(** * Shopify chatbot backend: the chat orchestration of the Express server

    A shallow embedding of the server module (the [POST /api/chat] handler,
    the [callLLM] helper and the Express error middleware) together with
    the properties of its behaviour.  The other endpoints of the module,
    the order in which its routes are registered, and [sendMessage] of the
    chat widget are embedded after the chat handler.

    Conventions of the embedding.
    - A JavaScript string is a [string] holding its UTF-8 bytes.  Every
      pattern of the server is ASCII, and under the [i] flag a non-ASCII
      character never matches an ASCII one, so matching on bytes and
      matching on UTF-16 code units agree.  [toLowerCase] is modelled on
      the ASCII letters; the server only compares its result with the
      names openai, anthropic and gemini, which no other lowering reaches
      (the one non-ASCII character lowered into ASCII is the Kelvin sign,
      to a letter these names do not have).
    - A number is an IEEE 754 double, given by sign, integral significand
      and binary exponent; [parseFloat] and [toFixed] follow ECMAScript.
    - [process.env] is a record of optional strings, read at each use.
    - What the Shopify REST client returns is typed: records for products,
      variants and collections, with an optional field wherever the server
      tests for absence.  What an LLM provider returns is any JSON value,
      read by optional chaining.
    - The two outbound effects, [client.get] of the Shopify REST client and
      [axios(requestConfig)], are answered by a [World]; each call is
      appended to a trace of events.  Within one request no two calls carry
      the same request value, so a world indexed by the request alone covers
      every sequence of answers.
    - Exceptions are values: a computation returns or throws, and
      [try_catch] is the [try]/[catch] statement.  A handler that returns
      has sent its response; a handler that throws has sent none: the
      process exits on the rejection of an [async] handler, and Express
      answers with its own page for an error thrown by the error
      middleware.
    - A request reaches the routes with its JSON body parsed; what
      [express.json()] and [cors()] answer themselves is not part of the
      model.
    - [console] output is not part of the model. *)

From Stdlib Require Import ZArith List String Ascii Bool Lia.
From Stdlib Require Import DecimalString.
Import ListNotations.
Open Scope string_scope.
Open Scope Z_scope.

(** ** Strings and the regular expressions of the server *)

Module Str.

Definition is_upper (c : ascii) : bool :=
  let n := nat_of_ascii c in (65 <=? n)%nat && (n <=? 90)%nat.

(** Case folding on the ASCII letters. *)
Definition lower (c : ascii) : ascii :=
  if is_upper c then ascii_of_nat (nat_of_ascii c + 32) else c.

(** [String.prototype.toLowerCase], exact on the ASCII range. *)
Fixpoint toLowerCase (s : string) : string :=
  match s with
  | EmptyString => EmptyString
  | String c r => String (lower c) (toLowerCase r)
  end.

Fixpoint starts_with (p s : string) : bool :=
  match p, s with
  | EmptyString, _ => true
  | String _ _, EmptyString => false
  | String a p', String b s' => Ascii.eqb a b && starts_with p' s'
  end.

Fixpoint starts_with_ci (p s : string) : bool :=
  match p, s with
  | EmptyString, _ => true
  | String _ _, EmptyString => false
  | String a p', String b s' => Ascii.eqb (lower a) (lower b) && starts_with_ci p' s'
  end.

(** [hay.includes(needle)]. *)
Fixpoint includes (needle hay : string) : bool :=
  starts_with needle hay ||
  match hay with
  | EmptyString => false
  | String _ r => includes needle r
  end.

Fixpoint includes_ci (needle hay : string) : bool :=
  starts_with_ci needle hay ||
  match hay with
  | EmptyString => false
  | String _ r => includes_ci needle r
  end.

(** The alternatives of a pattern [a|b|c] whose branches are literals. *)
Fixpoint split_bar (acc s : string) : list string :=
  match s with
  | EmptyString => [acc]
  | String c r =>
      if Ascii.eqb c "|" then acc :: split_bar EmptyString r
      else split_bar (acc ++ String c EmptyString) r
  end.

Definition alternatives (re : string) : list string := split_bar EmptyString re.

(** [/re/i.test(s)] for a pattern that is an alternation of literals: some
    alternative occurs somewhere in [s], letters compared without case. *)
Definition test_i (re s : string) : bool :=
  existsb (fun alt => includes_ci alt s) (alternatives re).

(** [s.replace(/<[^>]*>/g, '')]: scanning from the left, a [<] that has a
    [>] somewhere after it starts a match that ends at the first such [>]
    (the class [[^>]] cannot cross it); the match is dropped and the scan
    resumes behind it.  A [<] with no [>] after it matches nothing. *)
Fixpoint has_gt (s : string) : bool :=
  match s with
  | EmptyString => false
  | String c r => Ascii.eqb c ">" || has_gt r
  end.

Fixpoint strip_from (in_tag : bool) (s : string) : string :=
  match s with
  | EmptyString => EmptyString
  | String c r =>
      if in_tag then
        if Ascii.eqb c ">" then strip_from false r else strip_from true r
      else if Ascii.eqb c "<" && has_gt r then strip_from true r
      else String c (strip_from false r)
  end.

Definition strip_tags (s : string) : string := strip_from false s.

(** [/<[^>]*>/.test(s)]: some [<] is followed, later on, by a [>]. *)
Fixpoint has_tag (s : string) : bool :=
  match s with
  | EmptyString => false
  | String c r => (Ascii.eqb c "<" && has_gt r) || has_tag r
  end.

(** [lines.join(sep)]. *)
Fixpoint join (sep : string) (l : list string) : string :=
  match l with
  | [] => EmptyString
  | [x] => x
  | x :: r => x ++ sep ++ join sep r
  end.

(** A string is truthy when it is not empty. *)
Definition truthy (s : string) : bool :=
  match s with EmptyString => false | _ => true end.

(** The decimal digits of an integer. *)
Definition of_Z (z : Z) : string := NilZero.string_of_int (Z.to_int z).

End Str.

(** ** Numbers: IEEE 754 binary64 values, [parseFloat] and [toFixed] *)

Module Num.

(** A double: [Finite neg m e] is [(-1)^neg * m * 2^e] with [0 <= m]. *)
Inductive number :=
| NaN
| Infinity (neg : bool)
| Finite (neg : bool) (m : Z) (e : Z).

(** The fraction [n / (d * 2^e)] as a pair of integers. *)
Definition scaled (n d e : Z) : Z * Z :=
  if e <? 0 then (n * 2 ^ (- e), d) else (n, d * 2 ^ e).

(** The double nearest to the rational [n / d] ([0 <= n], [0 < d]), ties to
    the even significand: the exponent [e] is chosen so that the quotient
    has 53 bits (or [e = -1074] in the subnormal range), the quotient is
    rounded on its remainder, and a result past the largest double is
    infinite. *)
Definition round_rational (neg : bool) (n d : Z) : number :=
  if n =? 0 then Finite neg 0 0 else
  let e0 := Z.log2 n - Z.log2 d - 52 in
  let '(a0, b0) := scaled n d e0 in
  let e1 := if a0 / b0 <? 2 ^ 52 then e0 - 1 else e0 in
  let e := Z.max e1 (-1074) in
  let '(a, b) := scaled n d e in
  let q := a / b in
  let r := a mod b in
  let q' := if 2 * r <? b then q
            else if b <? 2 * r then q + 1
            else if Z.even q then q else q + 1 in
  if (971 <? e) || ((e =? 971) && (q' =? 2 ^ 53)) then Infinity neg
  else Finite neg q' e.

(** [x > 0]. *)
Definition gt0 (x : number) : bool :=
  match x with
  | NaN => false
  | Infinity neg => negb neg
  | Finite neg m _ => negb neg && (0 <? m)
  end.

(** A number is falsy when it is zero or NaN. *)
Definition truthy (x : number) : bool :=
  match x with
  | NaN => false
  | Infinity _ => true
  | Finite _ m _ => negb (m =? 0)
  end.

Definition is_digit (c : ascii) : bool :=
  let n := nat_of_ascii c in (48 <=? n)%nat && (n <=? 57)%nat.

Definition digit_value (c : ascii) : Z := Z.of_nat (nat_of_ascii c) - 48.

(** The longest prefix of decimal digits, and what follows it. *)
Fixpoint take_digits (s : string) : string * string :=
  match s with
  | EmptyString => (EmptyString, EmptyString)
  | String c r =>
      if is_digit c then let '(ds, rest) := take_digits r in (String c ds, rest)
      else (EmptyString, s)
  end.

Fixpoint digits_value_from (acc : Z) (ds : string) : Z :=
  match ds with
  | EmptyString => acc
  | String c r => digits_value_from (10 * acc + digit_value c) r
  end.

Definition digits_value (ds : string) : Z := digits_value_from 0 ds.

(** The white space and line terminators that [parseFloat] skips at the
    start of its argument, as UTF-8 byte sequences. *)
Definition is_ascii_ws (c : ascii) : bool :=
  let n := nat_of_ascii c in
  ((9 <=? n)%nat && (n <=? 13)%nat) || (n =? 32)%nat.

Definition is_ws2 (a b : ascii) : bool :=
  (nat_of_ascii a =? 194)%nat && (nat_of_ascii b =? 160)%nat.

Definition is_ws3 (a b c : ascii) : bool :=
  let x := nat_of_ascii a in
  let y := nat_of_ascii b in
  let z := nat_of_ascii c in
  ((x =? 225) && (y =? 154) && (z =? 128))%nat
  || ((x =? 226) && (y =? 128) &&
      (((128 <=? z) && (z <=? 138)) || (z =? 168) || (z =? 169) || (z =? 175)))%nat
  || ((x =? 226) && (y =? 129) && (z =? 159))%nat
  || ((x =? 227) && (y =? 128) && (z =? 128))%nat
  || ((x =? 239) && (y =? 187) && (z =? 191))%nat.

Fixpoint trim_start (s : string) : string :=
  match s with
  | EmptyString => s
  | String a r =>
      if is_ascii_ws a then trim_start r
      else
        match r with
        | EmptyString => s
        | String b r2 =>
            if is_ws2 a b then trim_start r2
            else
              match r2 with
              | EmptyString => s
              | String c r3 => if is_ws3 a b c then trim_start r3 else s
              end
        end
  end.

(** The exponent part [e], [e+] or [e-] followed by digits, when the text
    after the mantissa starts with one. *)
Definition parse_exponent (s : string) : option Z :=
  match s with
  | String c r =>
      if Ascii.eqb c "e" || Ascii.eqb c "E" then
        let '(sign, r') :=
          match r with
          | String c' r' =>
              if Ascii.eqb c' "+" then (1, r')
              else if Ascii.eqb c' "-" then (-1, r')
              else (1, r)
          | EmptyString => (1, r)
          end in
        let '(ds, _) := take_digits r' in
        match ds with
        | EmptyString => None
        | _ => Some (sign * digits_value ds)
        end
      else None
  | EmptyString => None
  end.

(** The longest prefix that is an unsigned decimal literal ([Infinity],
    [digits], [digits.], [digits.digits] or [.digits], each but the first
    with an optional exponent), and its value rounded to a double. *)
Definition parse_unsigned (neg : bool) (s : string) : number :=
  if Str.starts_with "Infinity" s then Infinity neg else
  let '(ip, r1) := take_digits s in
  let '(fp, r2) :=
    match r1 with
    | String c r => if Ascii.eqb c "." then take_digits r else (EmptyString, r1)
    | EmptyString => (EmptyString, r1)
    end in
  match ip, fp with
  | EmptyString, EmptyString => NaN
  | _, _ =>
      let ex := match parse_exponent r2 with Some x => x | None => 0 end in
      let mant := digits_value (ip ++ fp) in
      let e10 := ex - Z.of_nat (String.length fp) in
      if 0 <=? e10 then round_rational neg (mant * 10 ^ e10) 1
      else round_rational neg mant (10 ^ (- e10))
  end.

(** [parseFloat(s)]. *)
Definition parseFloat (s : string) : number :=
  match trim_start s with
  | String c r =>
      if Ascii.eqb c "+" then parse_unsigned false r
      else if Ascii.eqb c "-" then parse_unsigned true r
      else parse_unsigned false (String c r)
  | EmptyString => NaN
  end.

(** [F(y)] is the double of value [x], for integers [y] and [x]. *)
Definition rounds_to (y x : Z) : bool :=
  match round_rational false y 1 with
  | Finite _ m e => if 0 <=? e then m * 2 ^ e =? x else m =? x * 2 ^ (- e)
  | _ => false
  end.

(** The shortest digit string [s] of [k] digits with [F(s * 10^(D-k))] the
    double [X]; of two candidates the nearer to [X], and the even one on a
    tie. *)
Fixpoint shortest_from (fuel : nat) (k D X : Z) : Z * Z :=
  match fuel with
  | O => (X, D)
  | S fuel' =>
      let p := 10 ^ (D - k) in
      let lo := X / p in
      let hi := lo + 1 in
      let ok_lo := (10 ^ (k - 1) <=? lo) && rounds_to (lo * p) X in
      let ok_hi := (hi <? 10 ^ k) && rounds_to (hi * p) X in
      if ok_lo && ok_hi then
        let dl := X - lo * p in
        let dh := hi * p - X in
        if dl <? dh then (lo, k)
        else if dh <? dl then (hi, k)
        else if Z.even lo then (lo, k) else (hi, k)
      else if ok_lo then (lo, k)
      else if ok_hi then (hi, k)
      else shortest_from fuel' (k + 1) D X
  end.

(** [String(x)] for a double [x] of integral value [X >= 10^21]:
    exponent notation on the shortest digits that read back as [x]. *)
Definition toString_large (X : Z) : string :=
  let D := Z.of_nat (String.length (Str.of_Z X)) in
  let '(s, n) :=
    if rounds_to (10 ^ D) X then (1, D + 1)
    else (fst (shortest_from (Z.to_nat D) 1 D X), D) in
  let ds := Str.of_Z s in
  let mantissa :=
    match ds with
    | String d EmptyString => ds
    | String d r => String d ("." ++ r)
    | EmptyString => ds
    end in
  mantissa ++ "e+" ++ Str.of_Z (n - 1).

Fixpoint zeros (n : nat) : string :=
  match n with
  | O => EmptyString
  | S n' => String "0" (zeros n')
  end.

(** [String(x)] for the double [x] that an integer [z] is read as: below
    [10^21] the shortest digits that read back as [x], followed by zeros
    up to the units (for an integer below [2^53], its decimal digits);
    from [10^21] on, exponent notation. *)
Definition toString_integer (z : Z) : string :=
  match round_rational (z <? 0) (Z.abs z) 1 with
  | NaN => "NaN"
  | Infinity neg => if neg then "-Infinity" else "Infinity"
  | Finite neg m e =>
      let X := if 0 <=? e then m * 2 ^ e else m / 2 ^ (- e) in
      if X =? 0 then "0"
      else
        let sign := if neg then "-" else "" in
        if X <? 10 ^ 21 then
          let D := Z.of_nat (String.length (Str.of_Z X)) in
          let '(digits, k) := shortest_from (Z.to_nat D) 1 D X in
          sign ++ Str.of_Z digits ++ zeros (Z.to_nat (D - k))
        else sign ++ toString_large X
  end.

(** [x.toFixed(fd)]: for a finite [x] below [10^21], the integer [n]
    nearest to [x * 10^fd] (the larger one on a tie), written with [fd]
    digits after the point. *)
Definition toFixed (fd : nat) (x : number) : string :=
  match x with
  | NaN => "NaN"
  | Infinity neg => if neg then "-Infinity" else "Infinity"
  | Finite neg m e =>
      let s := if neg && (0 <? m) then "-" else "" in
      if (0 <=? e) && (10 ^ 21 <=? m * 2 ^ e) then s ++ toString_large (m * 2 ^ e)
      else
        let f := Z.of_nat fd in
        let n := if 0 <=? e then m * 2 ^ e * 10 ^ f
                 else (2 * m * 10 ^ f + 2 ^ (- e)) / (2 * 2 ^ (- e)) in
        let ms := if n =? 0 then "0" else Str.of_Z n in
        match fd with
        | O => s ++ ms
        | S _ =>
            let k := String.length ms in
            let ms' := if (k <=? fd)%nat then zeros (fd + 1 - k) ++ ms else ms in
            let k' := String.length ms' in
            s ++ substring 0 (k' - fd) ms' ++ "." ++ substring (k' - fd) fd ms'
        end
  end.

End Num.

(** ** JSON values and JavaScript values *)

#[warnings="-register-all"]
Inductive JSON :=
| JNull
| JBool (b : bool)
| JNum (x : Num.number)
| JStr (s : string)
| JArr (items : list JSON)
| JObj (fields : list (string * JSON)).

(** A JavaScript value built from JSON data: [None] is [undefined]. *)
Definition value := option JSON.

Definition undefined : value := None.
Definition null : value := Some JNull.

Definition json_truthy (v : JSON) : bool :=
  match v with
  | JNull => false
  | JBool b => b
  | JNum x => Num.truthy x
  | JStr s => Str.truthy s
  | JArr _ => true
  | JObj _ => true
  end.

Definition truthy (v : value) : bool :=
  match v with
  | None => false
  | Some j => json_truthy j
  end.

(** An optional string ([process.env.X], [v.price], ...) is truthy when it
    is present and not empty. *)
Definition str_truthy (o : option string) : bool :=
  match o with
  | None => false
  | Some s => Str.truthy s
  end.

(** [o || d] on an optional string. *)
Definition str_or (o : option string) (d : string) : string :=
  match o with
  | Some s => if Str.truthy s then s else d
  | None => d
  end.

(** The own property [k] of a parsed object. *)
Fixpoint lookup (k : string) (fields : list (string * JSON)) : value :=
  match fields with
  | [] => None
  | (k', v) :: r => if String.eqb k k' then Some v else lookup k r
  end.

(** [v?.name], for the names the server reads ([choices], [message],
    [content], [text], [candidates], [parts]): [undefined] on [null] and
    [undefined], the own property on an object, and [undefined] on every
    other value, whose prototypes define none of these names. *)
Definition opt_prop (v : value) (name : string) : value :=
  match v with
  | Some (JObj fields) => lookup name fields
  | _ => None
  end.

(** [v?.[0]]: the first element of an array, the first character of a
    string (its first byte here), the property ["0"] of an object. *)
Definition opt_index0 (v : value) : value :=
  match v with
  | Some (JArr (x :: _)) => Some x
  | Some (JStr (String c _)) => Some (JStr (String c EmptyString))
  | Some (JObj fields) => lookup "0" fields
  | _ => None
  end.

(** [JSON.stringify] of a string: quoted, with the two-character escapes
    and lower-case [\u00xx] for the other control characters. *)
Definition quote_char : ascii := ascii_of_nat 34.
Definition backslash : ascii := ascii_of_nat 92.

Definition hex_digit (n : nat) : ascii :=
  if (n <? 10)%nat then ascii_of_nat (48 + n) else ascii_of_nat (87 + n).

Definition escape_char (c : ascii) : string :=
  let n := nat_of_ascii c in
  if (n =? 8)%nat then String backslash "b"
  else if (n =? 9)%nat then String backslash "t"
  else if (n =? 10)%nat then String backslash "n"
  else if (n =? 12)%nat then String backslash "f"
  else if (n =? 13)%nat then String backslash "r"
  else if (n =? 34)%nat then String backslash (String quote_char EmptyString)
  else if (n =? 92)%nat then String backslash (String backslash EmptyString)
  else if (n <? 32)%nat then
    String backslash ("u00" ++ String (hex_digit (n / 16)) (String (hex_digit (n mod 16)) EmptyString))
  else String c EmptyString.

Fixpoint escape (s : string) : string :=
  match s with
  | EmptyString => EmptyString
  | String c r => escape_char c ++ escape r
  end.

Definition quote (s : string) : string :=
  String quote_char (escape s ++ String quote_char EmptyString).

(** ** The data of the server *)

(** [process.env], as far as the chat path reads it. *)
Record Env := {
  LLM_API_KEY : option string;
  LLM_PROVIDER : option string;
  LLM_MODEL : option string
}.

(** Products and collections as the Shopify REST API returns them; a field
    the server tests for absence is optional. *)
Record Variant := { variant_price : option string }.

Record Product := {
  product_title : string;
  product_variants : option (list Variant);
  product_price : option string;
  product_body_html : option string
}.

Record Collection := {
  collection_id : Z;
  collection_title : string
}.

(** [response.body] of a [client.get]. *)
Record Body := {
  body_products : option (list Product);
  body_custom_collections : option (list Collection)
}.

(** A thrown error: [error.message], [error.status] and [error.response]
    with its [status] and [body?.errors]. *)
Record ErrorResponse := {
  response_status : option Z;
  response_body_errors : value
}.

Record JsError := {
  error_message : string;
  error_status : option Z;
  error_response : option ErrorResponse
}.

Definition TypeError (msg : string) : JsError :=
  {| error_message := msg; error_status := None; error_response := None |}.

(** The argument of [client.get]. *)
Record GetRequest := {
  path : string;
  query : list (string * Z)
}.

(** The argument of [axios]. *)
Record RequestConfig := {
  method : string;
  url : string;
  headers : list (string * string);
  data : JSON
}.

(** The two upstream services: each call either throws or answers, a
    [client.get] with a response body and [axios] with [response.data]. *)
Record World := {
  client_get : GetRequest -> JsError + Body;
  axios : RequestConfig -> JsError + value
}.

Inductive Event :=
| LLMCall (cfg : RequestConfig)
| CatalogCall (req : GetRequest).

(** What Express sends back: [res.status(s).json(b)]. *)
Record Response := {
  status : Z;
  body : JSON
}.

(** [res.json(b)]. *)
Definition res_json (b : JSON) : Response := {| status := 200; body := b |}.

(** An object literal whose property values may be [undefined]:
    [res.json] leaves those properties out. *)
Fixpoint object (props : list (string * value)) : list (string * JSON) :=
  match props with
  | [] => []
  | (k, Some v) :: r => (k, v) :: object r
  | (_, None) :: r => object r
  end.

(** The context handed to the LLM. *)
Record Policies := {
  shipping : string;
  returns : string;
  rewards : string
}.

Record ProductInfo := {
  info_title : string;
  info_price : string;
  info_description : string
}.

Record Context := {
  shopName : string;
  website : string;
  policies : Policies;
  context_products : option (list ProductInfo)
}.

(** [JSON.stringify(context)]. *)
Definition stringify_info (p : ProductInfo) : string :=
  "{" ++ quote "title" ++ ":" ++ quote (info_title p) ++ ","
      ++ quote "price" ++ ":" ++ quote (info_price p) ++ ","
      ++ quote "description" ++ ":" ++ quote (info_description p) ++ "}".

Definition stringify_policies (p : Policies) : string :=
  "{" ++ quote "shipping" ++ ":" ++ quote (shipping p) ++ ","
      ++ quote "returns" ++ ":" ++ quote (returns p) ++ ","
      ++ quote "rewards" ++ ":" ++ quote (rewards p) ++ "}".

Definition stringify_context (c : Context) : string :=
  "{" ++ quote "shopName" ++ ":" ++ quote (shopName c) ++ ","
      ++ quote "website" ++ ":" ++ quote (website c) ++ ","
      ++ quote "policies" ++ ":" ++ stringify_policies (policies c)
      ++ match context_products c with
         | None => ""
         | Some ps =>
             "," ++ quote "products" ++ ":[" ++ Str.join "," (map stringify_info ps) ++ "]"
         end
      ++ "}".

(** ** Effects: a trace of outbound calls, and exceptions *)

Inductive Outcome (A : Type) :=
| Returned (a : A)
| Thrown (e : JsError).

Arguments Returned {A} a.
Arguments Thrown {A} e.

Definition M (A : Type) : Type := list Event * Outcome A.

Definition ret {A} (a : A) : M A := ([], Returned a).

Definition throw {A} (e : JsError) : M A := ([], Thrown e).

Definition bind {A B} (m : M A) (f : A -> M B) : M B :=
  match m with
  | (t, Returned a) => let '(t', r) := f a in ((t ++ t')%list, r)
  | (t, Thrown e) => (t, Thrown e)
  end.

(** [try { m } catch (error) { h error }]. *)
Definition try_catch {A} (m : M A) (h : JsError -> M A) : M A :=
  match m with
  | (t, Returned a) => (t, Returned a)
  | (t, Thrown e) => let '(t', r) := h e in ((t ++ t')%list, r)
  end.

Declare Scope js_scope.
Delimit Scope js_scope with js.
Notation "x <- m ;; k" := (bind m (fun x => k))
  (at level 61, m at next level, right associativity) : js_scope.
Notation "' pat <- m ;; k" := (bind m (fun x => match x with pat => k end))
  (at level 61, pat pattern, m at next level, right associativity) : js_scope.
Open Scope js_scope.

Definition trace {A} (m : M A) : list Event := fst m.

Definition is_llm_call (e : Event) : bool :=
  match e with LLMCall _ => true | CatalogCall _ => false end.

Definition is_catalog_call (e : Event) : bool :=
  match e with LLMCall _ => false | CatalogCall _ => true end.

Definition llm_calls (t : list Event) : nat := List.length (filter is_llm_call t).
Definition catalog_calls (t : list Event) : nat := List.length (filter is_catalog_call t).

(** ** Canned texts *)

Definition policy_shipping : string :=
"Standard UK Delivery (3-5 business days): FREE on orders over £50, otherwise £3.99. Express UK Delivery (1-2 business days): £6.99.".

Definition policy_returns : string :=
"30-day return window from delivery date. Items must be unused and in original packaging.".

Definition policy_rewards : string :=
"Earn 1 point for every £1 spent. 500 points = £5 reward.".

Definition reply_faq : string :=
"You can find answers to frequently asked questions on our FAQ page: https://irisessentials.com/pages/faqs

Some common questions include:
• How do I track my order?
• What payment methods do you accept?
• Are your products cruelty-free?
• How can I join the rewards program?

Is there something specific you'd like to know?".

Definition reply_refund : string :=
"Our refund policy includes:

• 30-day return window from delivery date
• Items must be unused, unworn, and in original packaging
• Original receipt or proof of purchase required
• Refunds processed to original payment method within 5-7 business days
• Return shipping costs are the customer's responsibility
• Sale items can only be exchanged for store credit

For more details: https://irisessentials.com/policies/refund-policy".

Definition reply_shipping : string :=
"Our shipping policy details:

• Standard UK Delivery (3-5 business days): FREE on orders over £50, otherwise £3.99
• Express UK Delivery (1-2 business days): £6.99
• International shipping available to EU, US, Canada, and Australia
• International delivery takes 7-14 business days
• All orders receive tracking information via email
• We're not responsible for customs fees on international orders
• Free returns within the UK within 30 days

More info: https://irisessentials.com/policies/shipping-policy".

Definition reply_privacy : string :=
"Our privacy policy key points:

• We collect personal information (name, email, address) only for processing orders
• Payment information is securely processed through Shopify Payments
• We use cookies to enhance browsing experience and analyze site traffic
• We never sell your personal information to third parties
• Marketing emails include an unsubscribe option
• You can request access to your personal data or deletion at any time
• We use industry-standard security measures to protect your data

Full policy: https://irisessentials.com/policies/privacy-policy".

Definition reply_terms : string :=
"Our Terms of Service highlights:

• You must be at least 18 years old to make a purchase
• Creating an account requires accurate and complete information
• Product images are representative, slight variations may occur
• We reserve the right to refuse service to anyone
• Prices are subject to change without notice
• We are not liable for delivery delays due to shipping carriers
• Intellectual property (images, logos, content) belongs to Iris Essentials
• User-generated content may be used for marketing with permission

Complete terms: https://irisessentials.com/policies/terms-of-service".

Definition reply_contact : string :=
"You can contact our customer support team through:
• Email: contact@irisessentials.com
• Phone: +447463084372 (Mon-Fri, 9am-5pm GMT)
• Contact form: https://irisessentials.com/pages/contact

We aim to respond to all inquiries within 24 hours.".

Definition reply_social : string :=
"Follow us on social media to stay updated with our latest products and promotions:
• Instagram: @iris_essentials
• Facebook: @IrisEssentialsOfficial
• TikTok: @iris_essentials
• Pinterest: @irisessentials

We love seeing our products in action! Tag us using #IrisEssentials".

Definition reply_rewards : string :=
"Our Iris Rewards program lets you earn points with every purchase! Here's how it works:

• Earn 1 point for every £1 spent
• 500 points = £5 reward
• 1000 points = £10 reward
• 2000 points = £20 reward

You can also earn points by:
• Creating an account: 100 points
• Following us on Instagram: 50 points
• Celebrating your birthday: 100 points
• Referring a friend: 200 points

Learn more at: https://irisessentials.com/pages/rewards-program".

Definition reply_specific_product : string :=
"**7-in-1 LED Light Therapy Device for Youthful Skin Care**

Price: £89.99

This advanced skincare device uses 7 different LED light wavelengths to target various skin concerns:

• Red light: Stimulates collagen production
• Blue light: Treats acne and prevents breakouts
• Green light: Reduces pigmentation and evens skin tone
• Yellow light: Reduces redness and inflammation
• Purple light: Detoxifies skin and improves lymphatic flow
• Cyan light: Soothes sensitive skin
• White light: Penetrates deeply for overall rejuvenation

The device is rechargeable, FDA-approved, and clinically tested. Use for just 10 minutes daily to see visible results within 4-6 weeks.

Would you like to know more about this product or other skincare devices we offer?".

Definition reply_default : string :=
"I'm here to help you with information about our products, rewards program, shipping, returns, and more. What would you like to know? I can provide details about our policies, not just links.".

(** ** The server *)

(** The vocabularies of the handler, as the source writes them. *)
Definition productRe : string := "product|item|merchandise|goods|buy|purchase|order".
Definition specificProductRe : string := "7-in-1 LED|LED Light Therapy|Light Therapy Device|Youthful Skin".
Definition goldEyeMaskRe : string := "24K Gold Eye Mask|Gold Eye Mask|Eye Mask|Puffiness|Wrinkle Relief".
Definition rewardsRe : string := "reward|loyalty|points|program|earn|redeem".
Definition faqRe : string := "faq|question|frequently asked".
Definition refundRe : string := "refund|return|exchange|money back".
Definition shippingRe : string := "shipping|delivery|postage|send|track".
Definition privacyRe : string := "privacy|data|information|collect|cookie".
Definition termsRe : string := "terms|conditions|service|legal".
Definition contactRe : string := "contact|support|help|email|phone|call".
Definition socialMediaRe : string := "social|media|facebook|instagram|twitter|tiktok|follow".
Definition beautyQueryRe : string := "beauty|beauty essentials|skincare|makeup|cosmetic".
Definition kitchenQueryRe : string := "kitchen|cooking|culinary|baking".
Definition beautyTitleRe : string := "beauty|beauty essentials".
Definition kitchenTitleRe : string := "kitchen|kitchen essentials".

(** The value of a numeric literal of the source. *)
Definition literal (text : string) : JSON := JNum (Num.parseFloat text).

(** An integer (an HTTP status) as a number. *)
Definition integer (z : Z) : JSON := JNum (Num.round_rational (z <? 0) (Z.abs z) 1).

(** [s || 500] on an optional status. *)
Definition status_or_500 (s : option Z) : Z :=
  match s with
  | Some z => if z =? 0 then 500 else z
  | None => 500
  end.

(** [items.map(f)] for an [f] that may throw. *)
Fixpoint mapM {A B} (f : A -> M B) (items : list A) : M (list B) :=
  match items with
  | [] => ret []
  | x :: r => y <- f x ;; ys <- mapM f r ;; ret (y :: ys)
  end.

(** [ToInt32]: the integer reduced modulo [2^32] into the signed range. *)
Definition to_int32 (z : Z) : Z := (z + 2 ^ 31) mod 2 ^ 32 - 2 ^ 31.

(** A status code that Node writes: 100 to 999. *)
Definition valid_status (code : Z) : bool := (100 <=? code) && (code <=? 999).

(** The [RangeError] of Node for a status it refuses
    ([ERR_HTTP_INVALID_STATUS_CODE]). *)
Definition invalidStatusCode (s : Z) : JsError :=
  {| error_message := "Invalid status code: " ++ Num.toString_integer s;
     error_status := None;
     error_response := None |}.

(** [res.status(r.status).json(r.body)].  [res.status] stores the status
    and [res.json] writes the head: Node reduces the status to 32 bits
    ([statusCode |= 0]), throws for a result outside 100 to 999 and writes
    the reduced status otherwise.  The response returned is the status
    written and the value given to [res.json]; with a status that allows
    no body (below 200, 204, 304) that value is not transmitted.  What
    [res.json] throws leaves the handler it is called in: from the
    [catch] of an [async] handler it is a rejection nobody handles, on
    which the process exits (line 605), so the request gets no answer;
    from the error middleware it reaches the default handler of Express,
    which answers 500 with a page of its own. *)
Definition respond (r : Response) : M Response :=
  let code := to_int32 (status r) in
  if valid_status code then ret {| status := code; body := body r |}
  else throw (invalidStatusCode (status r)).

(** The error handler middleware (source lines 53-61), reached through
    [next(error)]. *)
Definition errorHandler (err : JsError) : M Response :=
  respond
    {| status := status_or_500 (error_status err);
       body := JObj [("error", JObj [
         ("message", JStr (str_or (Some (error_message err)) "Internal Server Error"));
         ("status", integer (status_or_500 (error_status err)))])] |}.

(** *** The request of each provider *)

Definition openaiConfig (apiKey : string) (model : option string)
    (systemMessage userMessage : string) : RequestConfig :=
  {| method := "post";
     url := "https://api.openai.com/v1/chat/completions";
     headers := [("Authorization", "Bearer " ++ apiKey);
                 ("Content-Type", "application/json")];
     data := JObj [
       ("model", JStr (str_or model "gpt-3.5-turbo"));
       ("messages", JArr [
          JObj [("role", JStr "system"); ("content", JStr systemMessage)];
          JObj [("role", JStr "user"); ("content", JStr userMessage)]]);
       ("temperature", literal "0.7");
       ("max_tokens", literal "500")] |}.

Definition anthropicConfig (apiKey : string) (model : option string)
    (systemMessage userMessage : string) : RequestConfig :=
  {| method := "post";
     url := "https://api.anthropic.com/v1/messages";
     headers := [("x-api-key", apiKey);
                 ("Content-Type", "application/json");
                 ("anthropic-version", "2023-06-01")];
     data := JObj [
       ("model", JStr (str_or model "claude-3-sonnet-20240229"));
       ("messages", JArr [
          JObj [("role", JStr "user");
                ("content", JStr (systemMessage ++ "

Customer question: " ++ userMessage))]]);
       ("max_tokens", literal "500");
       ("temperature", literal "0.7")] |}.

Definition geminiConfig (apiKey : string) (model : option string)
    (systemMessage userMessage : string) : RequestConfig :=
  let modelIdentifier := str_or model "gemini-pro" in
  let geminiHeaders := [("Content-Type", "application/json")] in
  let '(geminiUrl, geminiHeaders) :=
    if String.eqb modelIdentifier "gemini-pro" then
      ("https://generativelanguage.googleapis.com/v1/models/" ++ modelIdentifier ++ ":generateContent",
       (geminiHeaders ++ [("x-goog-api-key", apiKey)])%list)
    else
      ("https://generativelanguage.googleapis.com/v1beta/models/" ++ modelIdentifier
         ++ ":generateContent?key=" ++ apiKey,
       geminiHeaders) in
  {| method := "post";
     url := geminiUrl;
     headers := geminiHeaders;
     data := JObj [
       ("contents", JArr [
          JObj [("role", JStr "user");
                ("parts", JArr [
                   JObj [("text", JStr (systemMessage ++ "

Customer question: " ++ userMessage))]])]]);
       ("generationConfig", JObj [
          ("temperature", literal "0.7");
          ("maxOutputTokens", literal "500")])] |}.

(** The request configuration of [callLLM]; [None] for a provider the
    helper does not support. *)
Definition requestConfigFor (provider apiKey : string) (model : option string)
    (systemMessage userMessage : string) : option RequestConfig :=
  if String.eqb provider "openai" then
    Some (openaiConfig apiKey model systemMessage userMessage)
  else if String.eqb provider "anthropic" then
    Some (anthropicConfig apiKey model systemMessage userMessage)
  else if String.eqb provider "gemini" then
    Some (geminiConfig apiKey model systemMessage userMessage)
  else None.

(** The reply read from [response.data], by optional chaining (source
    lines 249-261). *)
Definition extractReply (provider : string) (response_data : value) : value :=
  if String.eqb provider "openai" then
    opt_prop (opt_prop (opt_index0 (opt_prop response_data "choices")) "message") "content"
  else if String.eqb provider "anthropic" then
    opt_prop (opt_index0 (opt_prop response_data "content")) "text"
  else if String.eqb provider "gemini" then
    let candidate := opt_index0 (opt_prop response_data "candidates") in
    let content := opt_prop candidate "content" in
    let part := opt_index0 (opt_prop content "parts") in
    opt_prop part "text"
  else null.

Definition systemMessageFor (context : Context) : string :=
  "You are a helpful shopping assistant for Iris Essentials. Use the following context to answer the customer's question: "
  ++ stringify_context context.

(** *** The catalog snapshot and the product listing *)

(** The context of the LLM call, before the catalog snapshot. *)
Definition baseContext : Context :=
  {| shopName := "Iris Essentials";
     website := "https://irisessentials.com";
     policies := {| shipping := policy_shipping;
                    returns := policy_returns;
                    rewards := policy_rewards |};
     context_products := None |}.

(** One record of [context.products] (source lines 348-352);
    [p.variants[0]] throws when the product has no [variants] property. *)
Definition productInfo (p : Product) : M ProductInfo :=
  match product_variants p with
  | None => throw (TypeError "Cannot read properties of undefined (reading '0')")
  | Some variants =>
      let first_price :=
        match variants with
        | v :: _ => variant_price v
        | [] => None
        end in
      ret {| info_title := product_title p;
             info_price := str_or first_price "Price not available";
             info_description :=
               str_or (option_map Str.strip_tags (product_body_html p)) "No description" |}
  end.

(** [v.price && parseFloat(v.price) > 0]. *)
Definition positive_price (price : option string) : bool :=
  match price with
  | Some s => Str.truthy s && Num.gt0 (Num.parseFloat s)
  | None => false
  end.

(** The pound sign followed by [parseFloat(price).toFixed(2)]. *)
Definition pounds (price : option string) : string :=
  "£" ++ Num.toFixed 2 (Num.parseFloat (str_or price "")).

(** The price shown for a product of the listing (source lines 491-509). *)
Definition productPrice (product : Product) : string :=
  let price := "Price not available" in
  let price :=
    match product_variants product with
    | Some variants =>
        if (0 <? List.length variants)%nat then
          match find (fun v => positive_price (variant_price v)) variants with
          | Some variantWithPrice => pounds (variant_price variantWithPrice)
          | None => price
          end
        else price
    | None => price
    end in
  if String.eqb price "Price not available" && positive_price (product_price product)
  then pounds (product_price product)
  else price.

Definition productLine (product : Product) : string :=
  "• " ++ product_title product ++ ": " ++ productPrice product.

Definition productList (products : list Product) : string :=
  Str.join "
" (map productLine products).

(** [if (collectionId)]: an id is falsy when it is [null] or zero. *)
Definition id_truthy (collectionId : option Z) : bool :=
  match collectionId with
  | Some z => negb (z =? 0)
  | None => false
  end.

Definition reply (text : string) : Response :=
  res_json (JObj [("reply", JStr text)]).

Definition noProductsInCollection (collectionName : string) : string :=
  "I couldn't find any products in the " ++ collectionName
  ++ " collection. Please check back later.".

Definition noProductsInStore : string :=
  "I couldn't find any products in the store. Please check back later.".

Definition collectionListing (collectionName : string) (products : list Product) : string :=
  "Here are some products from our " ++ collectionName ++ " collection:

" ++ productList products ++ "

Would you like more information about any of these products?".

Definition storeListing (products : list Product) : string :=
  "Here are some products from our store:

" ++ productList products ++ "

Would you like more information about any of these products?".

(** The response of the [catch] of the handler (source lines 526-539). *)
Definition chatErrorResponse (error : JsError) : M Response :=
  match error_response error with
  | Some response =>
      respond
        {| status := status_or_500 (response_status response);
           body := JObj [("error", JObj (object [
             ("message",
              if truthy (response_body_errors response)
              then response_body_errors response
              else Some (JStr (error_message error)));
             ("status", option_map integer (response_status response));
             ("type", Some (JStr "ShopifyAPIError"))]))] |}
  | None => errorHandler error
  end.

Section Server.

Variable env : Env.
Variable world : World.

(** [await client.get(req)] on a REST client of the shop. *)
Definition get (req : GetRequest) : M Body :=
  ([CatalogCall req],
   match client_get world req with
   | inl e => Thrown e
   | inr b => Returned b
   end).

(** [await axios(requestConfig)], giving [response.data]. *)
Definition request (requestConfig : RequestConfig) : M value :=
  ([LLMCall requestConfig],
   match axios world requestConfig with
   | inl e => Thrown e
   | inr d => Returned d
   end).

(** [callLLM(prompt, context)] (source lines 134-286). *)
Definition callLLM (prompt : string) (context : Context) : M value :=
  if negb (str_truthy (LLM_API_KEY env)) || negb (str_truthy (LLM_PROVIDER env)) then
    ret null
  else
    try_catch
      (let provider := Str.toLowerCase (str_or (LLM_PROVIDER env) "") in
       let model := LLM_MODEL env in
       let apiKey := str_or (LLM_API_KEY env) "" in
       let systemMessage := systemMessageFor context in
       let userMessage := prompt in
       match requestConfigFor provider apiKey model systemMessage userMessage with
       | None => ret null
       | Some requestConfig =>
           response_data <- request requestConfig ;;
           ret (extractReply provider response_data)
       end)
      (fun error => ret null).

(** The products fetched for the context of the LLM. *)
Definition contextProducts : M (list ProductInfo) :=
  response_body <- get {| path := "products"; query := [("limit", 10)] |} ;;
  match body_products response_body with
  | None => throw (TypeError "Cannot read properties of undefined (reading 'map')")
  | Some products => mapM productInfo products
  end.

(** The context built for a message when an LLM is configured (source
    lines 323-356). *)
Definition chatContext (message : string) : M Context :=
  let context := baseContext in
  if Str.test_i productRe message then
    try_catch
      (infos <- contextProducts ;;
       ret {| shopName := shopName context;
              website := website context;
              policies := policies context;
              context_products := Some infos |})
      (fun error => ret context)
  else ret context.

(** The collection a product query is about: its id and its name (source
    lines 419-458). *)
Definition targetCollection (message : string) : M (option Z * string) :=
  let beautyCollectionQuery := Str.test_i beautyQueryRe message in
  let kitchenCollectionQuery := Str.test_i kitchenQueryRe message in
  if beautyCollectionQuery || kitchenCollectionQuery then
    collectionsResponse <- get {| path := "custom_collections"; query := [] |} ;;
    let collections :=
      match body_custom_collections collectionsResponse with
      | Some cs => cs
      | None => []
      end in
    if beautyCollectionQuery then
      match find (fun c => Str.test_i beautyTitleRe (collection_title c)) collections with
      | Some beautyCollection =>
          ret (Some (collection_id beautyCollection), collection_title beautyCollection)
      | None => ret (None, "")
      end
    else if kitchenCollectionQuery then
      match find (fun c => Str.test_i kitchenTitleRe (collection_title c)) collections with
      | Some kitchenCollection =>
          ret (Some (collection_id kitchenCollection), collection_title kitchenCollection)
      | None => ret (None, "")
      end
    else ret (None, "")
  else ret (None, "").

(** The branch of the rule-based responder for product queries (source
    lines 417-519). *)
Definition productQuery (message : string) : M Response :=
  '(collectionId, collectionName) <- targetCollection message ;;
  let queryParams := [("limit", 5)] in
  products <-
    (if id_truthy collectionId then
       collectionProductsResponse <-
         get {| path := "collections/"
                          ++ Num.toString_integer
                               (match collectionId with Some z => z | None => 0 end)
                          ++ "/products";
                query := queryParams |} ;;
       ret (match body_products collectionProductsResponse with Some ps => ps | None => [] end)
     else
       response <- get {| path := "products"; query := queryParams |} ;;
       ret (match body_products response with Some ps => ps | None => [] end)) ;;
  match products with
  | [] =>
      ret (reply (if id_truthy collectionId
                  then noProductsInCollection collectionName
                  else noProductsInStore))
  | _ :: _ =>
      ret (reply (if id_truthy collectionId
                  then collectionListing collectionName products
                  else storeListing products))
  end.

(** The rule-based responder: the vocabulary flags and the chain of
    branches (source lines 367-524). *)
Definition ruleBased (message : string) : M Response :=
  let isProductQuery := Str.test_i productRe message in
  let isSpecificProductQuery := Str.test_i specificProductRe message in
  let isGoldEyeMaskQuery := Str.test_i goldEyeMaskRe message in
  let isRewardsQuery := Str.test_i rewardsRe message in
  let isFaqQuery := Str.test_i faqRe message in
  let isRefundQuery := Str.test_i refundRe message in
  let isShippingQuery := Str.test_i shippingRe message in
  let isPrivacyQuery := Str.test_i privacyRe message in
  let isTermsQuery := Str.test_i termsRe message in
  let isContactQuery := Str.test_i contactRe message in
  let isSocialMediaQuery := Str.test_i socialMediaRe message in
  if isFaqQuery then ret (reply reply_faq)
  else if isRefundQuery then ret (reply reply_refund)
  else if isShippingQuery then ret (reply reply_shipping)
  else if isPrivacyQuery then ret (reply reply_privacy)
  else if isTermsQuery then ret (reply reply_terms)
  else if isContactQuery then ret (reply reply_contact)
  else if isSocialMediaQuery then ret (reply reply_social)
  else if isRewardsQuery then ret (reply reply_rewards)
  else if isSpecificProductQuery then ret (reply reply_specific_product)
  else if isProductQuery then productQuery message
  else ret (reply reply_default).

(** [process.env.LLM_API_KEY && process.env.LLM_PROVIDER]. *)
Definition llmConfigured : bool :=
  str_truthy (LLM_API_KEY env) && str_truthy (LLM_PROVIDER env).

(** The LLM attempt of the handler (source lines 318-365): [Some] response
    when the LLM answers. *)
Definition llmAttempt (message : string) : M (option Response) :=
  if llmConfigured then
    context <- chatContext message ;;
    llmResponse <- callLLM message context ;;
    if truthy llmResponse then
      ret (option_map (fun answer => res_json (JObj [("reply", answer)])) llmResponse)
    else ret None
  else ret None.

(** The handler of [POST /api/chat] (source lines 306-540), on the [message]
    of the request body ([None] when the body has none).  The Shopify client exists whenever
    the server runs: the process exits at start-up otherwise. *)
Definition chat (message : option string) : M Response :=
  try_catch
    (if negb (str_truthy message) then
       ret {| status := 400; body := JObj [("error", JStr "Message is required")] |}
     else
       let message := str_or message "" in
       answered <- llmAttempt message ;;
       match answered with
       | Some response => ret response
       | None => ruleBased message
       end)
    (fun error => chatErrorResponse error).

End Server.

(** ** The intent classifier as the specification words it *)

Inductive Intent :=
| FAQ | Refund | Shipping | Privacy | Terms | Contact | Social | Rewards
| SpecificProduct | GenericProduct | Default.

(** The vocabularies in their priority order. *)
Definition priority : list (Intent * string) :=
  [(FAQ, faqRe); (Refund, refundRe); (Shipping, shippingRe); (Privacy, privacyRe);
   (Terms, termsRe); (Contact, contactRe); (Social, socialMediaRe); (Rewards, rewardsRe);
   (SpecificProduct, specificProductRe); (GenericProduct, productRe)].

(** First match wins; no match is [Default]. *)
Fixpoint first_match (table : list (Intent * string)) (message : string) : Intent :=
  match table with
  | [] => Default
  | (intent, re) :: rest =>
      if Str.test_i re message then intent else first_match rest message
  end.

Definition classify (message : string) : Intent := first_match priority message.

(** The response composed for an intent. *)
Definition compose (world : World) (intent : Intent) (message : string) : M Response :=
  match intent with
  | FAQ => ret (reply reply_faq)
  | Refund => ret (reply reply_refund)
  | Shipping => ret (reply reply_shipping)
  | Privacy => ret (reply reply_privacy)
  | Terms => ret (reply reply_terms)
  | Contact => ret (reply reply_contact)
  | Social => ret (reply reply_social)
  | Rewards => ret (reply reply_rewards)
  | SpecificProduct => ret (reply reply_specific_product)
  | GenericProduct => productQuery world message
  | Default => ret (reply reply_default)
  end.

(** ** Notions used to state the properties *)

(** A message made of ASCII white space only. *)
Fixpoint blank (s : string) : bool :=
  match s with
  | EmptyString => true
  | String c r => Num.is_ascii_ws c && blank r
  end.

(** An alternative that starts with a character other than white space. *)
Definition starts_nonblank (alt : string) : bool :=
  match alt with
  | EmptyString => false
  | String a _ => negb (Num.is_ascii_ws (Str.lower a))
  end.

(** The requests of the chat path to the catalog. *)
Definition contextProductsRequest : GetRequest :=
  {| path := "products"; query := [("limit", 10)] |}.

Definition collectionsRequest : GetRequest :=
  {| path := "custom_collections"; query := [] |}.

Definition collectionProductsRequest (collectionId : Z) : GetRequest :=
  {| path := "collections/" ++ Num.toString_integer collectionId ++ "/products";
     query := [("limit", 5)] |}.

Definition productsRequest : GetRequest :=
  {| path := "products"; query := [("limit", 5)] |}.

(** The three phases of the trace of a request: the product lookup for the
    context of the LLM, the LLM call, and the lookups of the rule-based
    responder. *)
Definition context_phase (t : list Event) : Prop :=
  t = [] \/ t = [CatalogCall contextProductsRequest].

Definition llm_phase (t : list Event) : Prop :=
  t = [] \/ exists cfg, t = [LLMCall cfg].

Definition fallback_phase (t : list Event) : Prop :=
  t = [] \/
  t = [CatalogCall productsRequest] \/
  t = [CatalogCall collectionsRequest] \/
  t = [CatalogCall collectionsRequest; CatalogCall productsRequest] \/
  exists collectionId,
    t = [CatalogCall collectionsRequest; CatalogCall (collectionProductsRequest collectionId)].

(** The provider name [callLLM] compares, and the key it sends. *)
Definition providerName (env : Env) : string :=
  Str.toLowerCase (str_or (LLM_PROVIDER env) "").

Definition apiKeyOf (env : Env) : string := str_or (LLM_API_KEY env) "".

(** The response data [d] holds [j] at the reply path of the provider:
    every field and first element on the way is present. *)
Definition reply_at (provider : string) (d : value) (j : JSON) : Prop :=
  (provider = "openai" /\
   exists choices first message,
     opt_prop d "choices" = Some choices /\
     opt_index0 (Some choices) = Some first /\
     opt_prop (Some first) "message" = Some message /\
     opt_prop (Some message) "content" = Some j) \/
  (provider = "anthropic" /\
   exists content first,
     opt_prop d "content" = Some content /\
     opt_index0 (Some content) = Some first /\
     opt_prop (Some first) "text" = Some j) \/
  (provider = "gemini" /\
   exists candidates candidate content parts part,
     opt_prop d "candidates" = Some candidates /\
     opt_index0 (Some candidates) = Some candidate /\
     opt_prop (Some candidate) "content" = Some content /\
     opt_prop (Some content) "parts" = Some parts /\
     opt_index0 (Some parts) = Some part /\
     opt_prop (Some part) "text" = Some j).

(** Whenever the computation throws, the error is the one a catalog call
    of its trace was answered with. *)
Definition throws_from_catalog {A} (world : World) (m : M A) : Prop :=
  forall t e, m = (t, Thrown e) ->
  exists req, In (CatalogCall req) t /\ client_get world req = inl e.




(** The status a [catch] computes for an error: the status of the
    response the error carries, for an error without a response its own
    status, and 500 when that is missing or 0. *)
Definition errorStatus (e : JsError) : Z :=
  status_or_500 (match error_response e with
                 | Some response => response_status response
                 | None => error_status e
                 end).

(** Every error the catalog answers with has a status that Node writes. *)
Definition answerable (world : World) : Prop :=
  forall req e, client_get world req = inl e -> valid_status (errorStatus e) = true.

(** The price of the first variant of a product, when it has one. *)
Definition first_variant_price (p : Product) : option string :=
  match product_variants p with
  | Some (v :: _) => variant_price v
  | _ => None
  end.

(** [r] is the snapshot record of the product [p]: its title; the price
    string of its first variant as the catalog gave it, or 'Price not
    available' when that is missing or empty; its body with the tags
    removed, or 'No description' when the body is missing or nothing is
    left of it. *)
Definition is_snapshot_of (p : Product) (r : ProductInfo) : Prop :=
  info_title r = product_title p /\
  (forall price, first_variant_price p = Some price -> price <> "" -> info_price r = price) /\
  (first_variant_price p = None \/ first_variant_price p = Some "" ->
   info_price r = "Price not available") /\
  (forall html, product_body_html p = Some html -> Str.strip_tags html <> "" ->
   info_description r = Str.strip_tags html) /\
  (product_body_html p = None \/
   (exists html, product_body_html p = Some html /\ Str.strip_tags html = "") ->
   info_description r = "No description") /\
  Str.has_tag (info_description r) = false.

Definition withProducts (infos : list ProductInfo) : Context :=
  {| shopName := shopName baseContext;
     website := website baseContext;
     policies := policies baseContext;
     context_products := Some infos |}.

(** Strings of decimal digits, and the shape of a price with two
    decimals: digits, a point, two digits. *)
Fixpoint all_digits (s : string) : bool :=
  match s with
  | EmptyString => true
  | String c r => Num.is_digit c && all_digits r
  end.

Definition two_decimals (s : string) : Prop :=
  exists whole d1 d2,
    s = whole ++ "." ++ String d1 (String d2 "") /\
    whole <> "" /\ all_digits whole = true /\
    Num.is_digit d1 = true /\ Num.is_digit d2 = true.

(** The value of a double is below [10^21]. *)
Definition below_1e21 (x : Num.number) : bool :=
  match x with
  | Num.Finite _ m e => if 0 <=? e then m * 2 ^ e <? 10 ^ 21 else m <? 10 ^ 21 * 2 ^ (- e)
  | _ => false
  end.

(** An optional price string that parses to a strictly positive number. *)
Definition parses_positive (price : option string) : Prop :=
  exists s, price = Some s /\ Num.gt0 (Num.parseFloat s) = true.

(** No variant of the product has a price that parses positive. *)
Definition no_priced_variant (product : Product) : Prop :=
  forall variants, product_variants product = Some variants ->
  Forall (fun v => ~ parses_positive (variant_price v)) variants.

(** ** Sample environments, catalog data and worlds *)

Module Sample.

Definition env_none : Env :=
  {| LLM_API_KEY := None; LLM_PROVIDER := None; LLM_MODEL := None |}.

Definition env_openai : Env :=
  {| LLM_API_KEY := Some "sk-test"; LLM_PROVIDER := Some "OpenAI"; LLM_MODEL := None |}.

Definition env_gemini_default : Env :=
  {| LLM_API_KEY := Some "g-key"; LLM_PROVIDER := Some "gemini"; LLM_MODEL := None |}.

Definition env_gemini_flash : Env :=
  {| LLM_API_KEY := Some "g-key"; LLM_PROVIDER := Some "gemini";
     LLM_MODEL := Some "gemini-1.5-flash" |}.

Definition env_unknown : Env :=
  {| LLM_API_KEY := Some "key"; LLM_PROVIDER := Some "mistral"; LLM_MODEL := None |}.

Definition kitchenEssentials : Collection :=
  {| collection_id := 42; collection_title := "Kitchen Essentials" |}.

Definition pan : Product :=
  {| product_title := "Copper Pan";
     product_variants := Some [{| variant_price := Some "12.5" |}];
     product_price := None;
     product_body_html := Some "<p>A <b>sturdy</b> pan</p>" |}.

Definition whisk : Product :=
  {| product_title := "Whisk";
     product_variants := None;
     product_price := None;
     product_body_html := None |}.

Definition ladle : Product :=
  {| product_title := "Ladle";
     product_variants := Some [];
     product_price := Some "3";
     product_body_html := Some "<p></p>" |}.

(** Two prices that parse strictly positive and are not below [10^21]. *)
Definition bullion : Product :=
  {| product_title := "Bullion";
     product_variants := Some [{| variant_price := Some "1e21" |}];
     product_price := None;
     product_body_html := None |}.

Definition priceless : Product :=
  {| product_title := "Priceless";
     product_variants := Some [{| variant_price := Some "Infinity" |}];
     product_price := None;
     product_body_html := None |}.

Definition networkError : JsError := TypeError "connect ECONNREFUSED".

Definition unavailable : JsError :=
  {| error_message := "Received an error response (503 Service Unavailable) from Shopify";
     error_status := None;
     error_response := Some {| response_status := Some 503;
                               response_body_errors := Some (JStr "Service Unavailable") |} |}.



Definition collectionsBody (cs : list Collection) : Body :=
  {| body_products := None; body_custom_collections := Some cs |}.

Definition productsBody (ps : list Product) : Body :=
  {| body_products := Some ps; body_custom_collections := None |}.

(** A shop with the collection "Kitchen Essentials" holding two products;
    no LLM provider can be reached. *)
Definition kitchen_shop : World :=
  {| client_get := fun req =>
       if String.eqb (path req) "custom_collections" then inr (collectionsBody [kitchenEssentials])
       else if String.eqb (path req) "collections/42/products" then inr (productsBody [pan; whisk])
       else inr (productsBody [pan; ladle]);
     axios := fun _ => inl networkError |}.

(** A shop whose catalog answers every call with 503. *)
Definition shop_down : World :=
  {| client_get := fun _ => inl unavailable;
     axios := fun _ => inl networkError |}.

(** A provider answering in the OpenAI shape with the given [content]. *)
Definition openai_answer (content : JSON) : value :=
  Some (JObj [("choices", JArr [JObj [("message", JObj [("content", content)])]])]).

Definition provider_world (answer : value) : World :=
  {| client_get := fun _ => inr (productsBody [pan; ladle]);
     axios := fun _ => inr answer |}.

End Sample.

(** ** The other endpoints and the order of the routes *)

(** *** The settings endpoints (source lines 610-647) *)

(** The body of [POST /api/settings]. *)
Record SettingsBody := {
  llmProvider : option string;
  llmApiKey : option string;
  llmModel : option string
}.

(** [if (value) process.env.X = value]. *)
Definition assign (current value : option string) : option string :=
  if str_truthy value then value else current.

Definition updateEnv (env : Env) (b : SettingsBody) : Env :=
  {| LLM_API_KEY := assign (LLM_API_KEY env) (llmApiKey b);
     LLM_PROVIDER := assign (LLM_PROVIDER env) (llmProvider b);
     LLM_MODEL := assign (LLM_MODEL env) (llmModel b) |}.

(** [process.env.X || null]. *)
Definition or_null (o : option string) : JSON :=
  if str_truthy o then JStr (str_or o "") else JNull.

(** [process.env.LLM_API_KEY ? '********' : null]. *)
Definition masked (o : option string) : JSON :=
  if str_truthy o then JStr "********" else JNull.

Definition settingsView (env : Env) : JSON :=
  JObj [("llmProvider", or_null (LLM_PROVIDER env));
        ("llmApiKey", masked (LLM_API_KEY env));
        ("llmModel", or_null (LLM_MODEL env))].

(** The handler of [POST /api/settings]: the environment it leaves and the
    response. *)
Definition postSettings (env : Env) (b : SettingsBody) : Env * Response :=
  let env' := updateEnv env b in
  (env', res_json (JObj [("status", JStr "success");
                         ("message", JStr "Settings updated successfully");
                         ("settings", settingsView env')])).

(** The handler of [GET /api/settings]. *)
Definition getSettings (env : Env) : Response := res_json (settingsView env).

(** *** Health, the 404 handler, products and the connection test *)

(** The handler of [GET /api/health] (source lines 64-73), at the time
    [now] that [new Date().toISOString()] gives. *)
Definition health (now : string) : Response :=
  res_json (JObj [("status", JStr "ok"); ("timestamp", JStr now)]).

(** The catch-all handler (source lines 577-584). *)
Definition notFound : Response :=
  {| status := 404;
     body := JObj [("error", JObj [("message", JStr "Route not found");
                                   ("status", integer 404)])] |}.

(** A product as the connection test reads it. *)
Record SampleProduct := {
  sample_id : value;
  sample_title : value;
  sample_handle : value
}.

(** What the shop answers to the three requests of the administrative
    endpoints: [body.shop] of the shop lookup, [body.products] of the
    lookup of three products, and the whole response to the product
    lookup, as [res.json] serializes it. *)
Record Admin := {
  get_shop : JsError + value;
  get_samples : JsError + option (list SampleProduct);
  get_products : JsError + JSON
}.

Definition shopRequest : GetRequest := {| path := "shop"; query := [] |}.
Definition samplesRequest : GetRequest := {| path := "products"; query := [("limit", 3)] |}.
Definition allProductsRequest : GetRequest := {| path := "products"; query := [] |}.

(** [await client.get(req)], answered by [answer]. *)
Definition ask {A} (req : GetRequest) (answer : JsError + A) : M A :=
  ([CatalogCall req],
   match answer with
   | inl e => Thrown e
   | inr a => Returned a
   end).

(** The handler of [GET /api/products] (source lines 543-574); its [catch]
    is the one of the chat handler. *)
Definition productsEndpoint (admin : Admin) : M Response :=
  try_catch
    (products <- ask allProductsRequest (get_products admin) ;;
     ret (res_json products))
    (fun error => chatErrorResponse error).

Definition sampleJson (p : SampleProduct) : JSON :=
  JObj (object [("id", sample_id p); ("title", sample_title p); ("handle", sample_handle p)]).

(** The response of the [catch] of the connection test (source lines
    111-126). *)
Definition connectionErrorResponse (error : JsError) : M Response :=
  match error_response error with
  | Some response =>
      respond
        {| status := status_or_500 (response_status response);
           body := JObj [
             ("status", JStr "error");
             ("connection", JStr "Shopify connection failed");
             ("error", JObj (object [
                ("message",
                 if truthy (response_body_errors response)
                 then response_body_errors response
                 else Some (JStr (error_message error)));
                ("status", option_map integer (response_status response));
                ("type", Some (JStr "ShopifyAPIError"))]))] |}
  | None => errorHandler error
  end.

(** The handler of [GET /api/test-connection] (source lines 76-127);
    [products.body.products.length] throws when the body has no products. *)
Definition testConnection (admin : Admin) : M Response :=
  try_catch
    (shop <- ask shopRequest (get_shop admin) ;;
     products <- ask samplesRequest (get_samples admin) ;;
     match products with
     | None => throw (TypeError "Cannot read properties of undefined (reading 'length')")
     | Some products =>
         ret (res_json (JObj (object [
           ("status", Some (JStr "success"));
           ("connection", Some (JStr "Shopify connection successful"));
           ("shop", shop);
           ("productCount", Some (integer (Z.of_nat (List.length products))));
           ("sampleProducts", Some (JArr (map sampleJson products)))])))
     end)
    (fun error => connectionErrorResponse error).

(** *** The routes in the order the module registers them *)

(** The methods of the routes.  [OPTIONS] is answered by the [cors]
    middleware before any route, and [HEAD] is served as [GET]. *)
Inductive Method := GET | POST | PUT | PATCH | DELETE.

Definition method_eqb (a b : Method) : bool :=
  match a, b with
  | GET, GET | POST, POST | PUT, PUT | PATCH, PATCH | DELETE, DELETE => true
  | _, _ => false
  end.

(** A request: its method, the path of its URL, and the fields of its JSON
    body that the handlers read. *)
Record Request := {
  req_method : Method;
  req_path : string;
  req_message : option string;
  req_settings : SettingsBody
}.

Inductive Endpoint :=
| HealthEndpoint | TestConnectionEndpoint | ChatEndpoint | ProductsEndpoint
| NotFoundHandler | PostSettingsEndpoint | GetSettingsEndpoint.

(** A layer of the Express application: a route for a method and a path,
    a middleware mounted on every path, or an error-handling middleware,
    which ordinary dispatch skips. *)
Inductive Layer :=
| Route (m : Method) (route_path : string) (h : Endpoint)
| Use (h : Endpoint)
| UseError.

(** The layers after [express.json()] and [cors()], in the order of the
    source: the four routes, the catch-all 404 handler (line 577), the
    error handler (line 587), and then the two settings routes (lines 611
    and 637). *)
Definition stack : list Layer :=
  [Route GET "/api/health" HealthEndpoint;
   Route GET "/api/test-connection" TestConnectionEndpoint;
   Route POST "/api/chat" ChatEndpoint;
   Route GET "/api/products" ProductsEndpoint;
   Use NotFoundHandler;
   UseError;
   Route POST "/api/settings" PostSettingsEndpoint;
   Route GET "/api/settings" GetSettingsEndpoint].

(** A route path matches as Express matches by default: without case, and
    with an optional trailing slash. *)
Definition path_matches (route_path path : string) : bool :=
  let p := Str.toLowerCase path in
  String.eqb p route_path || String.eqb p (route_path ++ "/").

Definition layer_matches (l : Layer) (req : Request) : option Endpoint :=
  match l with
  | Route m route_path h =>
      if method_eqb m (req_method req) && path_matches route_path (req_path req)
      then Some h else None
  | Use h => Some h
  | UseError => None
  end.

(** The first layer that takes the request; none of the handlers calls
    [next()] without an error. *)
Fixpoint dispatch (layers : list Layer) (req : Request) : option Endpoint :=
  match layers with
  | [] => None
  | l :: rest =>
      match layer_matches l req with
      | Some h => Some h
      | None => dispatch rest req
      end
  end.

(** The application on one request: the environment it leaves and the
    response, or [None] when no layer takes the request. *)
Definition serve (env : Env) (world : World) (admin : Admin) (now : string)
    (req : Request) : option (Env * M Response) :=
  match dispatch stack req with
  | Some HealthEndpoint => Some (env, ret (health now))
  | Some TestConnectionEndpoint => Some (env, testConnection admin)
  | Some ChatEndpoint => Some (env, chat env world (req_message req))
  | Some ProductsEndpoint => Some (env, productsEndpoint admin)
  | Some NotFoundHandler => Some (env, ret notFound)
  | Some PostSettingsEndpoint =>
      let '(env', response) := postSettings env (req_settings req) in
      Some (env', ret response)
  | Some GetSettingsEndpoint => Some (env, ret (getSettings env))
  | None => None
  end.

(** ** The chat widget (Chatbot.js) *)

Module Widget.

(** A message of the conversation: [{ text, sender, loading, error }]. *)
Record Message := {
  text : value;
  sender : string;
  loading : bool;
  error : bool
}.

(** The state [sendMessage] works on: the [messages] and [input] of the
    component, [settings.saveHistory], and the item [chatHistory] of
    [localStorage], kept as the list that is serialized into it.  The
    messages of a mounted widget are messages React has shown. *)
Record State := {
  messages : list Message;
  input : string;
  saveHistory : bool;
  chatHistory : option (list Message)
}.

(** What [axios.post] meets: a response with a status and its data, or no
    response at all. *)
Inductive Answer :=
| Responded (status : Z) (data : value)
| Unreachable.

Definition userMessage (input : string) : Message :=
  {| text := Some (JStr input); sender := "user"; loading := false; error := false |}.

Definition loadingMessage : Message :=
  {| text := Some (JStr "..."); sender := "bot"; loading := true; error := false |}.

Definition botMessage (reply : value) : Message :=
  {| text := reply; sender := "bot"; loading := false; error := false |}.

Definition errorMessage : Message :=
  {| text := Some (JStr "Sorry, I encountered an error. Please try again later.");
     sender := "bot"; loading := false; error := true |}.

(** [!input.trim()]: trimming leaves nothing exactly when trimming the
    start leaves nothing. *)
Definition is_blank (input : string) : bool :=
  negb (Str.truthy (Num.trim_start input)).

(** [prev.filter(msg => !msg.loading)]. *)
Definition withoutLoading (prev : list Message) : list Message :=
  filter (fun msg => negb (loading msg)) prev.

(** What React makes of [{message.text}] (line 283): strings and numbers
    are shown, booleans, [null] and [undefined] show nothing, an array is
    shown item by item, and an object is refused with an error. *)
Fixpoint renderable (v : JSON) : bool :=
  match v with
  | JObj _ => false
  | JArr items => forallb renderable items
  | _ => true
  end.

(** What becomes of [response.data.reply]: [axios] rejects (no response,
    or a status outside 200 to 299); or the reply is read and shown; or
    the widget breaks: reading the reply throws, the data being [null] or
    [undefined], or showing it throws, the reply holding an object. *)
Inductive Read :=
| Rejected
| Reply (reply : value)
| Broken.

Definition readReply (answer : Answer) : Read :=
  match answer with
  | Responded status data =>
      if (200 <=? status) && (status <? 300) then
        match data with
        | None => Broken
        | Some JNull => Broken
        | Some (JObj fields) =>
            match lookup "reply" fields with
            | Some reply => if renderable reply then Reply (Some reply) else Broken
            | None => Reply None
            end
        | Some _ => Reply None
        end
      else Rejected
  | Unreachable => Rejected
  end.

(** [sendMessage] (lines 65-103), run to its end without another event in
    between, against a server answering [post]: the state it leaves and
    the messages it posted.  [None] when the widget breaks: the state
    updater that reads the reply runs while React renders, outside the
    [try] of [sendMessage], and so does the rendering of the messages; an
    error there unmounts the component. *)
Definition sendMessage (post : string -> Answer) (s : State)
    : option (State * list string) :=
  if is_blank (input s) then Some (s, [])
  else
    let userMessage := userMessage (input s) in
    let prev := (messages s ++ [userMessage])%list in
    let prev := (prev ++ [loadingMessage])%list in
    match readReply (post (input s)) with
    | Reply reply =>
        Some ({| messages := (withoutLoading prev ++ [botMessage reply])%list;
                 input := "";
                 saveHistory := saveHistory s;
                 chatHistory :=
                   if saveHistory s
                   then Some (messages s ++ [userMessage; botMessage reply])%list
                   else chatHistory s |},
              [input s])
    | Rejected =>
        Some ({| messages := (withoutLoading prev ++ [errorMessage])%list;
                 input := "";
                 saveHistory := saveHistory s;
                 chatHistory := chatHistory s |},
              [input s])
    | Broken => None
    end.

(** [clearHistory] (lines 114-117). *)
Definition clearHistory (s : State) : State :=
  {| messages := [];
     input := input s;
     saveHistory := saveHistory s;
     chatHistory := None |}.

(** What [JSON.parse] reads back from [JSON.stringify] of a value: a
    number that is not finite has become [null], and a negative zero has
    lost its sign. *)
Fixpoint wire (v : JSON) : JSON :=
  match v with
  | JNum Num.NaN => JNull
  | JNum (Num.Infinity _) => JNull
  | JNum (Num.Finite neg m e) => if m =? 0 then JNum (Num.Finite false 0 0) else v
  | JArr items => JArr (map wire items)
  | JObj fields => JObj (map (fun kv => (fst kv, wire (snd kv))) fields)
  | _ => v
  end.

(** The chat handler as the server the widget posts to: the response
    travels as JSON.  When the handler throws, the widget gets no
    response, or the page Express answers with status 500; [axios]
    rejects in both cases. *)
Definition backend (env : Env) (world : World) (message : string) : Answer :=
  match snd (chat env world (Some message)) with
  | Returned response => Responded (status response) (Some (wire (body response)))
  | Thrown _ => Unreachable
  end.

End Widget.


(** ** Notions used by the further properties *)

(** Two worlds whose catalogs answer alike. *)
Definition same_catalog (world world' : World) : Prop :=
  forall req, client_get world req = client_get world' req.

(** The canned texts of the rule-based responder. *)
Definition canned_replies : list string :=
  [reply_faq; reply_refund; reply_shipping; reply_privacy; reply_terms;
   reply_contact; reply_social; reply_rewards; reply_specific_product; reply_default].

(** The regular expression the collection lookup matches titles with. *)
Definition targetTitleRe (message : string) : string :=
  if Str.test_i beautyQueryRe message then beautyTitleRe else kitchenTitleRe.

(** What the general listing answers for the products fetched. *)
Definition generalListing (products : list Product) : string :=
  match products with
  | [] => noProductsInStore
  | _ :: _ => storeListing products
  end.


(** The method and path of the routes registered before the catch-all
    handler. *)
Definition routes : list (Method * string) :=
  [(GET, "/api/health"); (GET, "/api/test-connection");
   (POST, "/api/chat"); (GET, "/api/products")].

(** The request is for one of those routes. *)
Definition routed (req : Request) : bool :=
  existsb (fun r => method_eqb (fst r) (req_method req)
                    && path_matches (snd r) (req_path req)) routes.

(** A status of the range [axios] resolves on. *)
Definition is_2xx (status : Z) : bool := (200 <=? status) && (status <? 300).

(** A handler ends with a response whose status Node writes, or sends no
    response because Node refused the status it was given. *)
Definition answers_or_refused (m : M Response) : Prop :=
  (exists t r, m = (t, Returned r) /\ valid_status (status r) = true) \/
  (exists t s, m = (t, Thrown (invalidStatusCode s)) /\ valid_status (to_int32 s) = false).

(** The send went through: the input was posted once, and the widget shows
    the earlier messages without placeholders, the user's message and
    [last]. *)
Definition shows (s : Widget.State) (last : Widget.Message)
    (result : option (Widget.State * list string)) : Prop :=
  exists s',
    result = Some (s', [Widget.input s]) /\
    Widget.messages s'
    = (Widget.withoutLoading (Widget.messages s)
       ++ [Widget.userMessage (Widget.input s); last])%list.

(** ** Properties *)

(** *** The effect monad *)

Lemma to_int32_valid s : valid_status s = true -> to_int32 s = s.
Proof.
  unfold valid_status, to_int32. intros H. apply andb_prop in H as [H1 H2].
  apply Z.leb_le in H1, H2.
  change (2 ^ 31) with 2147483648. change (2 ^ 32) with 4294967296.
  rewrite Z.mod_small; lia.
Qed.

Lemma respond_valid r : valid_status (status r) = true -> respond r = ret r.
Proof.
  intros H. unfold respond. rewrite (to_int32_valid _ H), H. destruct r; reflexivity.
Qed.

Lemma respond_invalid r :
  valid_status (to_int32 (status r)) = false ->
  respond r = throw (invalidStatusCode (status r)).
Proof. intros H. unfold respond. rewrite H. reflexivity. Qed.

Lemma respond_trace r : fst (respond r) = [].
Proof. unfold respond. destruct (valid_status _); reflexivity. Qed.

Lemma respond_returned r t r' :
  respond r = (t, Returned r') ->
  t = [] /\ valid_status (status r') = true /\
  status r' = to_int32 (status r) /\ body r' = body r.
Proof.
  unfold respond. destruct (valid_status (to_int32 (status r))) eqn:E;
    intros H; inversion H; subst. repeat split. exact E.
Qed.

Lemma respond_thrown r t e :
  respond r = (t, Thrown e) ->
  t = [] /\ e = invalidStatusCode (status r) /\
  valid_status (to_int32 (status r)) = false.
Proof.
  unfold respond. destruct (valid_status (to_int32 (status r))) eqn:E;
    intros H; inversion H; subst. repeat split.
Qed.


Lemma chatErrorResponse_respond e :
  exists fields,
    chatErrorResponse e
    = respond {| status := errorStatus e; body := JObj [("error", JObj fields)] |}.
Proof.
  unfold chatErrorResponse, errorHandler, errorStatus.
  destruct (error_response e); eexists; reflexivity.
Qed.

Lemma chatErrorResponse_trace e : fst (chatErrorResponse e) = [].
Proof. destruct (chatErrorResponse_respond e) as (fields & ->). apply respond_trace. Qed.

Lemma bind_ret_l {A B} (a : A) (f : A -> M B) : bind (ret a) f = f a.
Proof. unfold bind, ret. destruct (f a). reflexivity. Qed.

Lemma try_catch_ret_returns {A} (m : M A) (a : A) :
  exists t r, try_catch m (fun _ => ret a) = (t, Returned r).
Proof.
  destruct m as [t [x|e]]; simpl; eauto.
Qed.

Lemma llm_calls_app t1 t2 : llm_calls (t1 ++ t2) = (llm_calls t1 + llm_calls t2)%nat.
Proof. unfold llm_calls. rewrite filter_app, length_app. reflexivity. Qed.

Lemma catalog_calls_app t1 t2 :
  catalog_calls (t1 ++ t2) = (catalog_calls t1 + catalog_calls t2)%nat.
Proof. unfold catalog_calls. rewrite filter_app, length_app. reflexivity. Qed.

(** *** Matching on blank messages *)

Lemma lower_ws c : Num.is_ascii_ws c = true -> Str.lower c = c.
Proof.
  destruct c as [[] [] [] [] [] [] [] []]; intros H;
    solve [reflexivity | vm_compute in H; discriminate].
Qed.

Lemma starts_with_ci_blank a p s :
  Num.is_ascii_ws (Str.lower a) = false -> blank s = true ->
  Str.starts_with_ci (String a p) s = false.
Proof.
  intros Ha Hs. destruct s as [|b s]; [reflexivity|].
  simpl in Hs. apply andb_prop in Hs as [Hb _].
  cbn [Str.starts_with_ci]. rewrite (lower_ws b Hb).
  destruct (Ascii.eqb (Str.lower a) b) eqn:E; [|reflexivity].
  apply Ascii.eqb_eq in E. congruence.
Qed.

Lemma includes_ci_blank a p s :
  Num.is_ascii_ws (Str.lower a) = false -> blank s = true ->
  Str.includes_ci (String a p) s = false.
Proof.
  intros Ha. induction s as [|b s IH]; intros Hs.
  - reflexivity.
  - cbn [Str.includes_ci]. rewrite (starts_with_ci_blank a p _ Ha Hs).
    simpl in Hs. apply andb_prop in Hs as [_ Hs]. simpl. auto.
Qed.

Lemma test_i_blank re s :
  forallb starts_nonblank (Str.alternatives re) = true -> blank s = true ->
  Str.test_i re s = false.
Proof.
  unfold Str.test_i. intros Hre Hs.
  induction (Str.alternatives re) as [|alt l IH]; [reflexivity|].
  simpl in Hre. apply andb_prop in Hre as [Ha Hl].
  cbn [existsb]. rewrite (IH Hl), orb_false_r.
  destruct alt as [|a p]; [discriminate|].
  apply includes_ci_blank; [|exact Hs].
  simpl in Ha. destruct (Num.is_ascii_ws (Str.lower a)); [discriminate|reflexivity].
Qed.

(** *** The priority order of the rule-based responder *)

(** The matcher stays folded in symbolic proofs; concrete instances are
    evaluated by [vm_compute]. *)
Opaque Str.test_i.

Lemma ruleBased_compose world message :
  ruleBased world message = compose world (classify message) message.
Proof.
  unfold ruleBased, classify, priority. cbn [first_match].
  destruct (Str.test_i faqRe message); [reflexivity|].
  destruct (Str.test_i refundRe message); [reflexivity|].
  destruct (Str.test_i shippingRe message); [reflexivity|].
  destruct (Str.test_i privacyRe message); [reflexivity|].
  destruct (Str.test_i termsRe message); [reflexivity|].
  destruct (Str.test_i contactRe message); [reflexivity|].
  destruct (Str.test_i socialMediaRe message); [reflexivity|].
  destruct (Str.test_i rewardsRe message); [reflexivity|].
  destruct (Str.test_i specificProductRe message); [reflexivity|].
  destruct (Str.test_i productRe message); reflexivity.
Qed.

Lemma classify_default message :
  (forall intent re, In (intent, re) priority -> Str.test_i re message = false) ->
  classify message = Default.
Proof.
  intros H. unfold classify, priority. cbn [first_match].
  rewrite (H FAQ faqRe), (H Refund refundRe), (H Shipping shippingRe),
    (H Privacy privacyRe), (H Terms termsRe), (H Contact contactRe),
    (H Social socialMediaRe), (H Rewards rewardsRe),
    (H SpecificProduct specificProductRe), (H GenericProduct productRe);
    [reflexivity | unfold priority; simpl; tauto ..].
Qed.

(** C2 (as amended).  The rule-based responder answers with the response
    composed for the first vocabulary, in the order FAQ, Refund, Shipping,
    Privacy, Terms, Contact, Social, Rewards, Specific-product,
    Generic-product, that matches the message, and with the Default reply
    when none does.  A message matching both the refund and the product
    vocabulary is never classified Generic-product: it is Refund, unless it
    also matches the FAQ vocabulary, which comes first. *)
Theorem C2_priority_order (world : World) (message : string) :
  ruleBased world message = compose world (classify message) message /\
  (Str.test_i refundRe message = true ->
   Str.test_i productRe message = true ->
   classify message <> GenericProduct /\
   classify message = if Str.test_i faqRe message then FAQ else Refund).
Proof.
  split; [apply ruleBased_compose|].
  intros Hr _. unfold classify, priority. cbn [first_match]. rewrite Hr.
  destruct (Str.test_i faqRe message); split; congruence.
Qed.

Lemma C2_priority_order_witness :
  Str.test_i refundRe "I want a refund for this product" = true /\
  Str.test_i productRe "I want a refund for this product" = true /\
  classify "I want a refund for this product" = Refund.
Proof.
  assert (Hr : Str.test_i refundRe "I want a refund for this product" = true)
    by (vm_compute; reflexivity).
  assert (Hp : Str.test_i productRe "I want a refund for this product" = true)
    by (vm_compute; reflexivity).
  split; [exact Hr | split; [exact Hp|]].
  destruct (C2_priority_order Sample.kitchen_shop "I want a refund for this product")
    as [_ H].
  destruct (H Hr Hp) as [_ H2]. rewrite H2. vm_compute. reflexivity.
Defined.

(** C2 as stated fails: this message matches the refund and the product
    vocabulary, and is answered with the FAQ text, not the refund text. *)
Lemma C2_counterexample :
  Str.test_i refundRe "I have a question about a refund for a product" = true /\
  Str.test_i productRe "I have a question about a refund for a product" = true /\
  classify "I have a question about a refund for a product" = FAQ /\
  classify "I have a question about a refund for a product" <> Refund /\
  ruleBased Sample.kitchen_shop "I have a question about a refund for a product"
    = ret (reply reply_faq) /\
  reply reply_faq <> reply reply_refund.
Proof.
  repeat split; try (vm_compute; reflexivity); vm_compute; discriminate.
Qed.

(** C10.  A message that matches the Gold Eye Mask vocabulary and no
    vocabulary of the priority list gets the Default reply, with no
    outbound call; the flag [isGoldEyeMaskQuery] selects no branch. *)
Theorem C10_gold_eye_mask_default (env : Env) (world : World) (message : string) :
  Str.test_i goldEyeMaskRe message = true ->
  (forall intent re, In (intent, re) priority -> Str.test_i re message = false) ->
  ruleBased world message = ([], Returned (reply reply_default)) /\
  (llmConfigured env = false ->
   chat env world (Some message) = ([], Returned (reply reply_default))).
Proof.
  intros Hg Hn.
  assert (Hrb : ruleBased world message = ([], Returned (reply reply_default))).
  { rewrite ruleBased_compose, (classify_default _ Hn). reflexivity. }
  split; [exact Hrb|].
  intros Hc. unfold chat, llmAttempt. rewrite Hc.
  destruct message as [|c r]; [vm_compute in Hg; discriminate|].
  cbn [str_truthy Str.truthy negb str_or]. rewrite bind_ret_l, Hrb. reflexivity.
Qed.

Lemma C10_gold_eye_mask_default_witness :
  ruleBased Sample.kitchen_shop "24K Gold Eye Mask" = ([], Returned (reply reply_default)) /\
  chat Sample.env_none Sample.kitchen_shop (Some "Puffiness")
    = ([], Returned (reply reply_default)).
Proof.
  assert (Hn : forall message, classify message = Default ->
            forall intent re, In (intent, re) priority -> Str.test_i re message = false).
  { intros message Hc intent re H. revert Hc. unfold classify, priority. cbn [first_match].
    simpl in H.
    repeat (destruct H as [H|H];
            [inversion H; subst;
             repeat match goal with
                    | |- context [if ?b then _ else _] => destruct b; try discriminate
                    end; reflexivity|]).
    contradiction. }
  split.
  - refine (proj1 (C10_gold_eye_mask_default Sample.env_none Sample.kitchen_shop
                     "24K Gold Eye Mask" _ _)).
    + vm_compute; reflexivity.
    + apply Hn. vm_compute; reflexivity.
  - refine (proj2 (C10_gold_eye_mask_default Sample.env_none Sample.kitchen_shop
                     "Puffiness" _ _) _).
    + vm_compute; reflexivity.
    + apply Hn. vm_compute; reflexivity.
    + reflexivity.
Defined.

(** *** Validation of the message *)

Lemma classify_blank message : blank message = true -> classify message = Default.
Proof.
  intros Hb. apply classify_default. intros intent re H. simpl in H.
  repeat (destruct H as [H|H];
          [inversion H; subst; apply test_i_blank; [vm_compute; reflexivity | exact Hb]|]).
  contradiction.
Qed.

(** C1 (as amended).  A request whose message is missing or the empty
    string ends with status 400 and the body [{ error: 'Message is
    required' }], with no outbound call.  A message of white space only is
    not rejected: with no LLM configured it gets the Default reply. *)
Theorem C1_empty_message_rejected (env : Env) (world : World) (message : option string) :
  (str_truthy message = false ->
   chat env world message
     = ([], Returned {| status := 400;
                        body := JObj [("error", JStr "Message is required")] |})) /\
  (forall text, message = Some text -> text <> "" -> blank text = true ->
   llmConfigured env = false ->
   chat env world message = ([], Returned (reply reply_default))).
Proof.
  split.
  - intros H. unfold chat. rewrite H. reflexivity.
  - intros text -> Hne Hb Hc. unfold chat, llmAttempt. rewrite Hc.
    destruct text as [|c r]; [congruence|].
    cbn [str_truthy Str.truthy negb str_or]. rewrite bind_ret_l.
    rewrite ruleBased_compose, (classify_blank _ Hb). reflexivity.
Qed.

Lemma C1_empty_message_rejected_witness :
  chat Sample.env_openai Sample.kitchen_shop (Some "")
    = ([], Returned {| status := 400;
                       body := JObj [("error", JStr "Message is required")] |}) /\
  chat Sample.env_none Sample.kitchen_shop (Some "  ")
    = ([], Returned (reply reply_default)).
Proof.
  split.
  - apply (proj1 (C1_empty_message_rejected Sample.env_openai Sample.kitchen_shop (Some ""))).
    reflexivity.
  - apply (proj2 (C1_empty_message_rejected Sample.env_none Sample.kitchen_shop (Some "  "))
             "  " eq_refl); [discriminate | reflexivity | reflexivity].
Defined.

(** C1 as stated fails: a message of three spaces is answered with status
    200, and with an LLM configured the provider is called for it; and the
    body of the 400 response carries the error as a plain string, with no
    [message] or [status] field. *)
Lemma C1_counterexample :
  (exists r, chat Sample.env_none Sample.kitchen_shop (Some "   ") = ([], Returned r)
             /\ status r = 200) /\
  llm_calls (trace (chat Sample.env_openai Sample.kitchen_shop (Some "   "))) = 1%nat /\
  (exists r fields,
     chat Sample.env_none Sample.kitchen_shop (Some "") = ([], Returned r)
     /\ status r = 400 /\ body r = JObj fields
     /\ lookup "error" fields = Some (JStr "Message is required")).
Proof.
  split; [|split].
  - eexists. split; vm_compute; reflexivity.
  - vm_compute; reflexivity.
  - do 2 eexists. repeat split; vm_compute; reflexivity.
Qed.

(** *** The Gemini request *)

(** C5.  When the provider is gemini, [callLLM] issues one request: for
    the model identifier "gemini-pro" (also the default when no model is
    configured) it goes to the v1 endpoint, whose URL does not depend on
    the key, with the key in the header [x-goog-api-key]; for any other
    identifier it goes to the v1beta endpoint with the key as the query
    parameter [key] and no key header. *)
Theorem C5_gemini_endpoint (env : Env) (world : World) (prompt : string) (context : Context) :
  str_truthy (LLM_API_KEY env) = true ->
  Str.toLowerCase (str_or (LLM_PROVIDER env) "") = "gemini" ->
  exists cfg,
    trace (callLLM env world prompt context) = [LLMCall cfg] /\
    (str_or (LLM_MODEL env) "gemini-pro" = "gemini-pro" ->
     url cfg = "https://generativelanguage.googleapis.com/v1/models/gemini-pro:generateContent"
     /\ headers cfg = [("Content-Type", "application/json");
                       ("x-goog-api-key", str_or (LLM_API_KEY env) "")]) /\
    (str_or (LLM_MODEL env) "gemini-pro" <> "gemini-pro" ->
     url cfg = "https://generativelanguage.googleapis.com/v1beta/models/"
               ++ str_or (LLM_MODEL env) "gemini-pro"
               ++ ":generateContent?key=" ++ str_or (LLM_API_KEY env) ""
     /\ headers cfg = [("Content-Type", "application/json")]).
Proof.
  intros Hk Hp.
  assert (Hpt : str_truthy (LLM_PROVIDER env) = true).
  { destruct (LLM_PROVIDER env) as [s|]; [|discriminate].
    simpl in *. destruct s; [discriminate | reflexivity]. }
  exists (geminiConfig (str_or (LLM_API_KEY env) "") (LLM_MODEL env)
            (systemMessageFor context) prompt).
  split.
  - unfold callLLM. rewrite Hk, Hpt, Hp. cbn [negb orb].
    unfold requestConfigFor. cbn [String.eqb Ascii.eqb Bool.eqb].
    unfold request, bind, try_catch, ret, trace.
    destruct (axios world _); reflexivity.
  - unfold geminiConfig. split; intros Hm.
    + rewrite Hm. split; reflexivity.
    + apply String.eqb_neq in Hm. rewrite Hm. split; reflexivity.
Qed.

Lemma C5_gemini_endpoint_witness :
  (exists cfg,
     trace (callLLM Sample.env_gemini_default Sample.kitchen_shop "hello" baseContext)
       = [LLMCall cfg]
     /\ url cfg = "https://generativelanguage.googleapis.com/v1/models/gemini-pro:generateContent"
     /\ headers cfg = [("Content-Type", "application/json"); ("x-goog-api-key", "g-key")]) /\
  (exists cfg,
     trace (callLLM Sample.env_gemini_flash Sample.kitchen_shop "hello" baseContext)
       = [LLMCall cfg]
     /\ url cfg = "https://generativelanguage.googleapis.com/v1beta/models/gemini-1.5-flash:generateContent?key=g-key"
     /\ headers cfg = [("Content-Type", "application/json")]).
Proof.
  split.
  - destruct (C5_gemini_endpoint Sample.env_gemini_default Sample.kitchen_shop "hello"
                baseContext eq_refl eq_refl) as (cfg & Ht & H1 & _).
    exists cfg. split; [exact Ht|]. apply H1. reflexivity.
  - destruct (C5_gemini_endpoint Sample.env_gemini_flash Sample.kitchen_shop "hello"
                baseContext eq_refl eq_refl) as (cfg & Ht & _ & H2).
    exists cfg. split; [exact Ht|]. apply H2. discriminate.
Defined.

(** *** The LLM invoker *)

Lemma opt_prop_some v name j :
  opt_prop v name = Some j -> exists x, v = Some x.
Proof. destruct v as [x|]; [eauto | discriminate]. Qed.

Lemma opt_index0_some v j :
  opt_index0 v = Some j -> exists x, v = Some x.
Proof. destruct v as [x|]; [eauto | discriminate]. Qed.

Lemma extractReply_at provider d j :
  requestConfigFor provider "" None "" "" <> None ->
  extractReply provider d = Some j -> reply_at provider d j.
Proof.
  unfold requestConfigFor, extractReply, reply_at. intros Hs H.
  destruct (String.eqb_spec provider "openai") as [->|_].
  { left. split; [reflexivity|].
    destruct (opt_prop_some _ _ _ H) as [message Hm]. rewrite Hm in H.
    destruct (opt_prop_some _ _ _ Hm) as [first Hf]. rewrite Hf in Hm.
    destruct (opt_index0_some _ _ Hf) as [choices Hc]. rewrite Hc in Hf.
    exists choices, first, message. auto. }
  destruct (String.eqb_spec provider "anthropic") as [->|_].
  { right; left. split; [reflexivity|].
    destruct (opt_prop_some _ _ _ H) as [first Hf]. rewrite Hf in H.
    destruct (opt_index0_some _ _ Hf) as [content Hc]. rewrite Hc in Hf.
    exists content, first. auto. }
  destruct (String.eqb_spec provider "gemini") as [->|_]; [|congruence].
  right; right. split; [reflexivity|]. cbv zeta in H.
  destruct (opt_prop_some _ _ _ H) as [part Hp]. rewrite Hp in H.
  destruct (opt_index0_some _ _ Hp) as [parts Hps]. rewrite Hps in Hp.
  destruct (opt_prop_some _ _ _ Hps) as [content Hct]. rewrite Hct in Hps.
  destruct (opt_prop_some _ _ _ Hct) as [candidate Hcd]. rewrite Hcd in Hct.
  destruct (opt_index0_some _ _ Hcd) as [candidates Hcs]. rewrite Hcs in Hcd.
  exists candidates, candidate, content, parts, part. auto 7.
Qed.

Lemma requestConfigFor_supported provider apiKey model systemMessage userMessage :
  requestConfigFor provider apiKey model systemMessage userMessage <> None <->
  (provider = "openai" \/ provider = "anthropic" \/ provider = "gemini").
Proof.
  unfold requestConfigFor.
  destruct (String.eqb_spec provider "openai");
    destruct (String.eqb_spec provider "anthropic");
    destruct (String.eqb_spec provider "gemini");
    split; intros H; try tauto; try discriminate; try congruence.
Qed.

Lemma callLLM_returns env world prompt context :
  exists t v, callLLM env world prompt context = (t, Returned v).
Proof.
  unfold callLLM.
  destruct (negb (str_truthy (LLM_API_KEY env)) || negb (str_truthy (LLM_PROVIDER env)));
    [unfold ret; eauto | apply try_catch_ret_returns].
Qed.

(** C4 (as amended).  [callLLM] never throws: it returns a value, after at
    most one request.  The value is [null] when no LLM is configured, when
    the provider name is not one of openai, anthropic and gemini (then
    without any request), and when the request fails, by a transport error
    or a status outside 2xx.  When the request succeeds the value is what
    the response holds at the reply path of the provider: [undefined] as
    soon as a field of the path is missing, otherwise the value found
    there, which is the reply text when the provider sent a string. *)
Theorem C4_callLLM_never_throws (env : Env) (world : World) (prompt : string)
    (context : Context) :
  exists t v,
    callLLM env world prompt context = (t, Returned v) /\
    (t = [] /\ v = null \/
     exists cfg,
       t = [LLMCall cfg] /\
       requestConfigFor (providerName env) (apiKeyOf env) (LLM_MODEL env)
         (systemMessageFor context) prompt = Some cfg /\
       match axios world cfg with
       | inl _ => v = null
       | inr response_data =>
           v = extractReply (providerName env) response_data /\
           (forall j, v = Some j -> reply_at (providerName env) response_data j)
       end) /\
    (providerName env <> "openai" -> providerName env <> "anthropic" ->
     providerName env <> "gemini" -> t = [] /\ v = null).
Proof.
  unfold callLLM. fold (providerName env). fold (apiKeyOf env).
  destruct (negb (str_truthy (LLM_API_KEY env)) || negb (str_truthy (LLM_PROVIDER env))).
  { exists [], null. repeat split; auto. }
  destruct (requestConfigFor (providerName env) (apiKeyOf env) (LLM_MODEL env)
              (systemMessageFor context) prompt) as [cfg|] eqn:Hcfg.
  - unfold request, bind, try_catch, ret.
    destruct (axios world cfg) as [e|d] eqn:Hax.
    + exists [LLMCall cfg], null. split; [reflexivity|]. split.
      * right. exists cfg. rewrite Hax. auto.
      * intros H1 H2 H3. exfalso.
        assert (Hs : requestConfigFor (providerName env) (apiKeyOf env) (LLM_MODEL env)
                       (systemMessageFor context) prompt <> None) by congruence.
        apply requestConfigFor_supported in Hs. tauto.
    + exists [LLMCall cfg], (extractReply (providerName env) d).
      split; [reflexivity|]. split.
      * right. exists cfg. rewrite Hax. repeat split; auto.
        intros j Hj. apply extractReply_at; [|exact Hj].
        apply requestConfigFor_supported.
        apply (requestConfigFor_supported (providerName env) (apiKeyOf env) (LLM_MODEL env)
                 (systemMessageFor context) prompt). congruence.
      * intros H1 H2 H3. exfalso.
        assert (Hs : requestConfigFor (providerName env) (apiKeyOf env) (LLM_MODEL env)
                       (systemMessageFor context) prompt <> None) by congruence.
        apply requestConfigFor_supported in Hs. tauto.
  - exists [], null. repeat split; auto.
Qed.

Lemma C4_callLLM_never_throws_witness :
  callLLM Sample.env_unknown Sample.kitchen_shop "hello" baseContext = ([], Returned null).
Proof.
  destruct (C4_callLLM_never_throws Sample.env_unknown Sample.kitchen_shop "hello" baseContext)
    as (t & v & Heq & _ & Hunknown).
  destruct Hunknown as [Ht Hv]; [discriminate | discriminate | discriminate |].
  rewrite Heq, Ht, Hv. reflexivity.
Defined.

(** C4 as stated fails: when the provider answers with a number in the
    place of the reply text, [callLLM] returns that number, which is
    neither text nor absent, and the handler sends it as the reply. *)
Lemma C4_counterexample :
  snd (callLLM Sample.env_openai (Sample.provider_world (Sample.openai_answer (literal "42")))
         "hello" baseContext)
    = Returned (Some (literal "42")) /\
  (forall s, Some (literal "42") <> Some (JStr s)) /\
  Some (literal "42") <> null /\
  Some (literal "42") <> undefined /\
  snd (chat Sample.env_openai (Sample.provider_world (Sample.openai_answer (literal "42")))
         (Some "hello"))
    = Returned (res_json (JObj [("reply", literal "42")])).
Proof.
  repeat split; try (vm_compute; reflexivity); try discriminate.
Qed.

(** *** Failures of the catalog *)

Lemma throws_from_catalog_ret {A} world (a : A) : throws_from_catalog world (ret a).
Proof. intros t e H. discriminate. Qed.

Lemma throws_from_catalog_get world req : throws_from_catalog world (get world req).
Proof.
  intros t e H. unfold get in H. exists req.
  destruct (client_get world req) as [e'|b]; inversion H; subst. simpl. auto.
Qed.

Lemma throws_from_catalog_bind {A B} world (m : M A) (f : A -> M B) :
  throws_from_catalog world m -> (forall a, throws_from_catalog world (f a)) ->
  throws_from_catalog world (bind m f).
Proof.
  intros Hm Hf t e H. destruct m as [t1 [a|e1]]; simpl in H.
  - destruct (f a) as [t2 r] eqn:Hfa. inversion H; subst.
    destruct (Hf a t2 e Hfa) as (req & Hin & Hreq).
    exists req. split; [apply in_or_app; auto | exact Hreq].
  - inversion H; subst. apply (Hm t e eq_refl).
Qed.

Lemma throws_from_catalog_targetCollection world message :
  throws_from_catalog world (targetCollection world message).
Proof.
  unfold targetCollection.
  destruct (Str.test_i beautyQueryRe message), (Str.test_i kitchenQueryRe message);
    cbn [orb]; try apply throws_from_catalog_ret;
    (apply throws_from_catalog_bind; [apply throws_from_catalog_get|]);
    intros b; match goal with |- context [find ?f ?l] => destruct (find f l) end;
    apply throws_from_catalog_ret.
Qed.

Lemma throws_from_catalog_productQuery world message :
  throws_from_catalog world (productQuery world message).
Proof.
  unfold productQuery.
  apply throws_from_catalog_bind; [apply throws_from_catalog_targetCollection|].
  intros [collectionId collectionName].
  apply throws_from_catalog_bind.
  - destruct (id_truthy collectionId);
      (apply throws_from_catalog_bind; [apply throws_from_catalog_get|]);
      intros; apply throws_from_catalog_ret.
  - intros [|p ps]; apply throws_from_catalog_ret.
Qed.

Lemma throws_from_catalog_ruleBased world message :
  throws_from_catalog world (ruleBased world message).
Proof.
  rewrite ruleBased_compose.
  destruct (classify message); cbn [compose]; try apply throws_from_catalog_ret.
  apply throws_from_catalog_productQuery.
Qed.

Lemma chatContext_returns world message :
  exists t context, chatContext world message = (t, Returned context).
Proof.
  unfold chatContext. destruct (Str.test_i productRe message).
  - apply try_catch_ret_returns.
  - unfold ret. eauto.
Qed.


Lemma llmAttempt_returns env world message :
  exists t r, llmAttempt env world message = (t, Returned r).
Proof.
  unfold llmAttempt. destruct (llmConfigured env); [|unfold ret; eauto].
  destruct (chatContext_returns world message) as (t1 & context & H1). rewrite H1.
  destruct (callLLM_returns env world message context) as (t2 & v & H2).
  unfold bind. rewrite H2. destruct (truthy v); unfold ret; eauto.
Qed.













(** *** The catalog snapshot of the context *)

Lemma strip_from_no_gt s : Str.has_gt s = false -> Str.strip_from false s = s.
Proof.
  induction s as [|c r IH]; [reflexivity|].
  cbn [Str.has_gt Str.strip_from]. intros H. apply orb_false_elim in H as [_ Hr].
  rewrite Hr, andb_false_r, (IH Hr). reflexivity.
Qed.

Lemma strip_from_no_tag s : forall in_tag, Str.has_tag (Str.strip_from in_tag s) = false.
Proof.
  induction s as [|c r IH]; intros in_tag; [reflexivity|].
  cbn [Str.strip_from]. destruct in_tag.
  - destruct (Ascii.eqb c ">"); apply IH.
  - destruct (Ascii.eqb c "<") eqn:Ec; cbn [andb].
    + destruct (Str.has_gt r) eqn:Hr; [apply IH|].
      cbn [Str.has_tag]. rewrite Ec, (strip_from_no_gt r Hr), Hr. cbn [andb orb].
      rewrite <- (strip_from_no_gt r Hr). apply IH.
    + cbn [Str.has_tag]. rewrite Ec. cbn [andb orb]. apply IH.
Qed.

Lemma strip_tags_no_tag s : Str.has_tag (Str.strip_tags s) = false.
Proof. apply strip_from_no_tag. Qed.

Lemma str_or_truthy s d : s <> "" -> str_or (Some s) d = s.
Proof. destruct s; [congruence | reflexivity]. Qed.

Lemma productInfo_snapshot p :
  product_variants p <> None ->
  exists r, productInfo p = ([], Returned r) /\ is_snapshot_of p r.
Proof.
  intros Hv. unfold productInfo, is_snapshot_of, first_variant_price.
  destruct (product_variants p) as [variants|]; [|congruence].
  eexists. split; [reflexivity|]. cbn [info_title info_price info_description].
  split; [reflexivity|]. split; [|split; [|split; [|split]]].
  - intros price H Hne. destruct variants as [|v vs]; [discriminate|].
    rewrite H. apply str_or_truthy, Hne.
  - intros [H|H]; destruct variants as [|v vs]; try rewrite H; reflexivity.
  - intros html H Hne. rewrite H. apply str_or_truthy, Hne.
  - intros [H|(html & H & He)]; rewrite H; [reflexivity|].
    cbn [option_map]. rewrite He. reflexivity.
  - destruct (product_body_html p) as [html|]; [|reflexivity].
    cbn [option_map str_or]. destruct (Str.truthy (Str.strip_tags html)); [|reflexivity].
    apply strip_tags_no_tag.
Qed.

Lemma mapM_productInfo_snapshot ps :
  Forall (fun p => product_variants p <> None) ps ->
  exists infos, mapM productInfo ps = ([], Returned infos) /\ Forall2 is_snapshot_of ps infos.
Proof.
  induction 1 as [|p ps Hp _ IH].
  - exists []. split; [reflexivity | constructor].
  - destruct (productInfo_snapshot p Hp) as (r & Hr & Hs).
    destruct IH as (infos & Hi & Hf).
    exists (r :: infos). split; [|constructor; assumption].
    cbn [mapM]. rewrite Hr, Hi. reflexivity.
Qed.

Lemma callLLM_trace env world prompt context cfg :
  llmConfigured env = true ->
  requestConfigFor (providerName env) (apiKeyOf env) (LLM_MODEL env)
    (systemMessageFor context) prompt = Some cfg ->
  trace (callLLM env world prompt context) = [LLMCall cfg].
Proof.
  unfold llmConfigured, callLLM. fold (providerName env). fold (apiKeyOf env).
  intros Hc Hcfg. apply andb_prop in Hc as [Hk Hp]. rewrite Hk, Hp, Hcfg.
  unfold request, bind, try_catch, ret, trace.
  destruct (axios world cfg); reflexivity.
Qed.

(** C9 (as amended).  When the message matches the product vocabulary and
    the catalog answers the product fetch with well-formed products, the
    context carries a snapshot with one record {title, price, description}
    per product, in order: the price is the price string of the first
    variant as the catalog gave it, or 'Price not available'; the
    description is the product body without its tags, or 'No description'.
    With an LLM configured, this context is the one written into the
    request sent to the provider. *)
Theorem C9_context_snapshot (env : Env) (world : World) (message : string)
    (response_body : Body) (products : list Product) :
  Str.test_i productRe message = true ->
  client_get world contextProductsRequest = inr response_body ->
  body_products response_body = Some products ->
  Forall (fun p => product_variants p <> None) products ->
  exists infos,
    chatContext world message
      = ([CatalogCall contextProductsRequest], Returned (withProducts infos)) /\
    Forall2 is_snapshot_of products infos /\
    (llmConfigured env = true ->
     forall cfg,
       requestConfigFor (providerName env) (apiKeyOf env) (LLM_MODEL env)
         (systemMessageFor (withProducts infos)) message = Some cfg ->
       trace (llmAttempt env world message)
         = [CatalogCall contextProductsRequest; LLMCall cfg]).
Proof.
  intros Hm Hget Hps Hwf.
  destruct (mapM_productInfo_snapshot products Hwf) as (infos & Hi & Hf).
  assert (Hctx : chatContext world message
                 = ([CatalogCall contextProductsRequest], Returned (withProducts infos))).
  { unfold chatContext, contextProducts, get. fold contextProductsRequest.
    rewrite Hm, Hget. unfold bind at 2. rewrite Hps, Hi. reflexivity. }
  exists infos. split; [exact Hctx|]. split; [exact Hf|].
  intros Hc cfg Hcfg. unfold llmAttempt. rewrite Hc, Hctx.
  pose proof (callLLM_trace env world message (withProducts infos) cfg Hc Hcfg) as Ht.
  cbv beta iota delta [bind].
  destruct (callLLM env world message (withProducts infos)) as [t [v|e]];
    unfold trace in Ht; simpl in Ht; subst t; unfold trace.
  - destruct (truthy v); reflexivity.
  - reflexivity.
Qed.

Lemma C9_context_snapshot_witness :
  exists infos,
    chatContext Sample.kitchen_shop "which products do you sell?"
      = ([CatalogCall contextProductsRequest], Returned (withProducts infos)) /\
    Forall2 is_snapshot_of [Sample.pan; Sample.ladle] infos.
Proof.
  destruct (C9_context_snapshot Sample.env_none Sample.kitchen_shop
              "which products do you sell?"
              (Sample.productsBody [Sample.pan; Sample.ladle])
              [Sample.pan; Sample.ladle]) as (infos & H1 & H2 & _).
  - vm_compute; reflexivity.
  - reflexivity.
  - reflexivity.
  - repeat constructor; discriminate.
  - exists infos. split; assumption.
Defined.

(** C9 as stated fails: in this snapshot the price of the pan is the price
    string of the catalog, "12.5", where the listing formats £12.50; the
    ladle, without a variant, is priced 'Price not available', not
    "unavailable"; its description is 'No description' although its body
    without tags is the empty string; and when the fetch fails there is no
    snapshot at all. *)
Lemma C9_counterexample :
  Str.test_i productRe "which products do you sell?" = true /\
  llmConfigured Sample.env_openai = true /\
  snd (chatContext Sample.kitchen_shop "which products do you sell?")
    = Returned (withProducts
        [{| info_title := "Copper Pan"; info_price := "12.5";
            info_description := "A sturdy pan" |};
         {| info_title := "Ladle"; info_price := "Price not available";
            info_description := "No description" |}]) /\
  productPrice Sample.pan = "£12.50" /\
  "Price not available" <> "unavailable" /\
  product_body_html Sample.ladle = Some "<p></p>" /\
  Str.strip_tags "<p></p>" = "" /\
  "No description" <> "" /\
  context_products
    (match snd (chatContext Sample.shop_down "which products do you sell?") with
     | Returned context => context
     | Thrown _ => withProducts []
     end) = None.
Proof.
  repeat split; try (vm_compute; reflexivity); discriminate.
Qed.

(** *** Price formatting *)

Lemma all_digits_app a b : all_digits (a ++ b) = all_digits a && all_digits b.
Proof. induction a as [|c a IH]; [reflexivity|]. simpl. rewrite IH, andb_assoc. reflexivity. Qed.

Lemma all_digits_uint d : all_digits (NilEmpty.string_of_uint d) = true.
Proof. induction d; simpl; auto. Qed.

Lemma of_Z_digits n : 0 <= n -> all_digits (Str.of_Z n) = true /\ Str.of_Z n <> "".
Proof.
  intros Hn. unfold Str.of_Z. destruct n as [|p|p]; [split; [reflexivity|discriminate]| |lia].
  cbn [Z.to_int NilZero.string_of_int]. unfold NilZero.string_of_uint.
  destruct (Pos.to_uint p) eqn:E; try (split; [apply all_digits_uint | discriminate]).
  split; [reflexivity|discriminate].
Qed.

Lemma all_digits_zeros k : all_digits (Num.zeros k) = true.
Proof. induction k; simpl; auto. Qed.

Lemma length_zeros k : String.length (Num.zeros k) = k.
Proof. induction k; simpl; auto. Qed.

Lemma string_length_app a b : String.length (a ++ b) = (String.length a + String.length b)%nat.
Proof. induction a; simpl; auto. Qed.

Lemma split_last_two t : forall n,
  String.length t = (n + 2)%nat ->
  exists w d1 d2,
    t = w ++ String d1 (String d2 "") /\ String.length w = n /\
    substring 0 n t = w /\ substring n 2 t = String d1 (String d2 "").
Proof.
  induction t as [|c t IH]; intros n H; [simpl in H; lia|].
  destruct n as [|n].
  - destruct t as [|d2 [|x t]]; simpl in H; try lia.
    exists "", c, d2. repeat split.
  - simpl in H. destruct (IH n ltac:(lia)) as (w & d1 & d2 & Ht & Hl & Hs1 & Hs2).
    exists (String c w), d1, d2. simpl. rewrite <- Ht, Hl, Hs1, Hs2. repeat split.
Qed.

Lemma two_decimals_split t :
  all_digits t = true -> (3 <= String.length t)%nat ->
  two_decimals (substring 0 (String.length t - 2) t ++ "."
                ++ substring (String.length t - 2) 2 t).
Proof.
  intros Hd Hl.
  destruct (split_last_two t (String.length t - 2) ltac:(lia))
    as (w & d1 & d2 & Ht & Hw & Hs1 & Hs2).
  rewrite Hs1, Hs2. exists w, d1, d2.
  rewrite Ht, all_digits_app in Hd. apply andb_prop in Hd as [Hdw Hd12].
  simpl in Hd12. apply andb_prop in Hd12 as [H1 H2]. apply andb_prop in H2 as [H2 _].
  repeat split; auto. intros ->. simpl in Hw. lia.
Qed.

Lemma toFixed_two_decimals m e :
  0 < m -> below_1e21 (Num.Finite false m e) = true ->
  two_decimals (Num.toFixed 2 (Num.Finite false m e)).
Proof.
  intros Hm Hb. unfold Num.toFixed. cbn [andb].
  assert (Hlarge : (0 <=? e) && (10 ^ 21 <=? m * 2 ^ e) = false).
  { unfold below_1e21 in Hb. destruct (0 <=? e); [|reflexivity].
    cbn [andb]. apply Z.ltb_lt in Hb. apply Z.leb_gt. exact Hb. }
  rewrite Hlarge.
  set (n := if 0 <=? e then m * 2 ^ e * 10 ^ Z.of_nat 2
            else (2 * m * 10 ^ Z.of_nat 2 + 2 ^ (- e)) / (2 * 2 ^ (- e))).
  assert (Hn : 0 <= n).
  { subst n. destruct (0 <=? e) eqn:He.
    - apply Z.leb_le in He. apply Z.mul_nonneg_nonneg; [|lia].
      apply Z.mul_nonneg_nonneg; [lia|]. apply Z.pow_nonneg; lia.
    - apply Z.leb_gt in He.
      assert (0 < 2 ^ (- e)) by (apply Z.pow_pos_nonneg; lia).
      apply Z.div_pos; lia. }
  set (ms := if n =? 0 then "0" else Str.of_Z n).
  assert (Hms : all_digits ms = true /\ ms <> "").
  { subst ms. destruct (n =? 0); [split; [reflexivity|discriminate]|].
    apply of_Z_digits, Hn. }
  destruct Hms as [Hd Hne].
  set (ms' := if (String.length ms <=? 2)%nat
              then Num.zeros (2 + 1 - String.length ms) ++ ms else ms).
  assert (Hms' : all_digits ms' = true /\ (3 <= String.length ms')%nat).
  { subst ms'. destruct (String.length ms <=? 2)%nat eqn:Hk.
    - apply Nat.leb_le in Hk. rewrite all_digits_app, all_digits_zeros, Hd.
      split; [reflexivity|]. rewrite string_length_app, length_zeros. lia.
    - apply Nat.leb_gt in Hk. split; [exact Hd | lia]. }
  destruct Hms' as [Hd' Hl'].
  change ("" ++ ?x) with x. apply (two_decimals_split ms' Hd' Hl').
Qed.

Lemma positive_price_parses price : positive_price price = true <-> parses_positive price.
Proof.
  unfold positive_price, parses_positive. split.
  - destruct price as [s|]; [|discriminate]. intros H.
    apply andb_prop in H as [_ H]. eauto.
  - intros (s & -> & H). rewrite H, andb_true_r.
    destruct s; [vm_compute in H; discriminate | reflexivity].
Qed.

Lemma positive_price_not price : ~ parses_positive price -> positive_price price = false.
Proof.
  intros H. destruct (positive_price price) eqn:E; [|reflexivity].
  apply positive_price_parses in E. contradiction.
Qed.

Lemma find_first {A} (f : A -> bool) before v after :
  Forall (fun u => f u = false) before -> f v = true ->
  find f (before ++ v :: after) = Some v.
Proof.
  induction 1 as [|u before Hu _ IH]; intros Hv; simpl.
  - rewrite Hv. reflexivity.
  - rewrite Hu. auto.
Qed.

Lemma find_none {A} (f : A -> bool) l :
  Forall (fun u => f u = false) l -> find f l = None.
Proof. induction 1 as [|u l Hu _ IH]; simpl; [|rewrite Hu]; auto. Qed.

Lemma str_or_empty s : str_or (Some s) "" = s.
Proof. destruct s; reflexivity. Qed.

(** From here on the two number functions stay folded. *)
Opaque Num.parseFloat Num.toFixed.

Lemma pounds_not_unavailable price :
  String.eqb (pounds price) "Price not available" = false.
Proof. reflexivity. Qed.

Lemma productPrice_no_variant product :
  no_priced_variant product ->
  productPrice product
    = if positive_price (product_price product) then pounds (product_price product)
      else "Price not available".
Proof.
  intros Hno. unfold productPrice.
  destruct (product_variants product) as [variants|] eqn:Hv; [|reflexivity].
  rewrite find_none.
  - destruct (0 <? Datatypes.length variants)%nat; reflexivity.
  - specialize (Hno variants Hv). eapply Forall_impl; [|exact Hno].
    intros v. apply positive_price_not.
Qed.

(** *** The lines of a listing *)

Lemma string_app_assoc a b c : (a ++ b) ++ c = a ++ b ++ c.
Proof. induction a as [|x a IH]; [reflexivity|]. simpl. rewrite IH. reflexivity. Qed.

Lemma string_app_nil_r a : a ++ "" = a.
Proof. induction a as [|x a IH]; [reflexivity|]. simpl. rewrite IH. reflexivity. Qed.

Lemma starts_with_app x b : Str.starts_with x (x ++ b) = true.
Proof.
  induction x as [|c x IH]; [destruct b; reflexivity|].
  simpl. rewrite Ascii.eqb_refl. exact IH.
Qed.

Lemma includes_app x a b : Str.includes x (a ++ x ++ b) = true.
Proof.
  induction a as [|c a IH].
  - cbn [append]. destruct (x ++ b) eqn:E; cbn [Str.includes];
      rewrite <- E, starts_with_app; reflexivity.
  - cbn [append Str.includes]. rewrite IH. apply orb_true_r.
Qed.

Lemma join_cons2 sep x y r : Str.join sep (x :: y :: r) = x ++ sep ++ Str.join sep (y :: r).
Proof. reflexivity. Qed.

Lemma productList_line p ps :
  In p ps -> exists before after, productList ps = before ++ productLine p ++ after.
Proof.
  unfold productList. induction ps as [|q ps IH]; intros Hin; [contradiction|].
  destruct Hin as [->|Hin].
  - destruct ps as [|q' ps'].
    + exists "", "". cbn [map Str.join append]. rewrite string_app_nil_r. reflexivity.
    + exists "". eexists. cbn [map]. rewrite join_cons2. reflexivity.
  - destruct (IH Hin) as (before & after & E).
    destruct ps as [|q' ps']; [contradiction|].
    exists (productLine q ++ "
" ++ before), after.
    cbn [map] in *. rewrite join_cons2, E, !string_app_assoc. reflexivity.
Qed.

Lemma collectionListing_titles name products p :
  In p products ->
  Str.includes ("• " ++ product_title p) (collectionListing name products) = true.
Proof.
  intros Hin. destruct (productList_line p products Hin) as (before & after & E).
  unfold collectionListing. rewrite E. unfold productLine.
  match goal with
  | |- Str.includes _ (?a ++ name ++ ?b ++ (before ++ _ ++ after) ++ ?f) = true =>
      replace (a ++ name ++ b
               ++ (before ++ ("• " ++ product_title p ++ ": " ++ productPrice p) ++ after)
               ++ f)
        with ((a ++ name ++ b ++ before) ++ ("• " ++ product_title p)
              ++ (": " ++ productPrice p ++ after ++ f))
        by (rewrite !string_app_assoc; reflexivity)
  end.
  apply includes_app.
Qed.

Lemma noProductsInCollection_distinct name : noProductsInCollection name <> noProductsInStore.
Proof.
  intros H. apply (f_equal String.length) in H.
  unfold noProductsInCollection, noProductsInStore in H.
  rewrite !string_length_app in H. simpl in H. lia.
Qed.

Lemma storeListing_lines products p :
  In p products ->
  Str.includes (productLine p) (storeListing products) = true.
Proof.
  intros Hin. destruct (productList_line p products Hin) as (before & after & E).
  unfold storeListing. rewrite E.
  match goal with
  | |- Str.includes _ (?a ++ (before ++ _ ++ after) ++ ?f) = true =>
      replace (a ++ (before ++ productLine p ++ after) ++ f)
        with ((a ++ before) ++ productLine p ++ (after ++ f))
        by (rewrite !string_app_assoc; reflexivity)
  end.
  apply includes_app.
Qed.

Lemma collectionListing_lines name products p :
  In p products ->
  Str.includes (productLine p) (collectionListing name products) = true.
Proof.
  intros Hin. destruct (productList_line p products Hin) as (before & after & E).
  unfold collectionListing. rewrite E.
  match goal with
  | |- Str.includes _ (?a ++ name ++ ?b ++ (before ++ _ ++ after) ++ ?f) = true =>
      replace (a ++ name ++ b ++ (before ++ productLine p ++ after) ++ f)
        with ((a ++ name ++ b ++ before) ++ productLine p ++ (after ++ f))
        by (rewrite !string_app_assoc; reflexivity)
  end.
  apply includes_app.
Qed.

(** *** The price of a product in the listing *)

(** C6 (as amended).  The price of a product in the listing follows three
    tiers: the first variant whose price parses to a strictly positive
    number, shown as the pound sign and [toFixed(2)] of the parsed number;
    otherwise the price field of the product itself when it parses
    strictly positive, shown the same way; otherwise 'Price not
    available'.  [toFixed(2)] of a parsed number below 10^21 is digits, a
    point and two digits.  The line of the product in both listings, the
    one of the store and the one of a collection, is a bullet, the title,
    a colon and that price.  A variant price "12.5" gives "£12.50"; no
    variants and no price gives 'Price not available'. *)
Theorem C6_price_three_tiers (product : Product) :
  (forall variants before v after price,
     product_variants product = Some variants ->
     variants = (before ++ v :: after)%list ->
     Forall (fun u => ~ parses_positive (variant_price u)) before ->
     variant_price v = Some price ->
     Num.gt0 (Num.parseFloat price) = true ->
     productPrice product = "£" ++ Num.toFixed 2 (Num.parseFloat price) /\
     (below_1e21 (Num.parseFloat price) = true ->
      two_decimals (Num.toFixed 2 (Num.parseFloat price)))) /\
  (forall price,
     no_priced_variant product ->
     product_price product = Some price ->
     Num.gt0 (Num.parseFloat price) = true ->
     productPrice product = "£" ++ Num.toFixed 2 (Num.parseFloat price) /\
     (below_1e21 (Num.parseFloat price) = true ->
      two_decimals (Num.toFixed 2 (Num.parseFloat price)))) /\
  (no_priced_variant product ->
   ~ parses_positive (product_price product) ->
   productPrice product = "Price not available") /\
  (product_variants product = Some [{| variant_price := Some "12.5" |}] ->
   productPrice product = "£12.50") /\
  ((product_variants product = None \/ product_variants product = Some []) ->
   product_price product = None ->
   productPrice product = "Price not available") /\
  (forall products name,
     In product products ->
     Str.includes ("• " ++ product_title product ++ ": " ++ productPrice product)
       (storeListing products) = true /\
     Str.includes ("• " ++ product_title product ++ ": " ++ productPrice product)
       (collectionListing name products) = true).
Proof.
  assert (Hshape : forall price,
            Num.gt0 (Num.parseFloat price) = true ->
            below_1e21 (Num.parseFloat price) = true ->
            two_decimals (Num.toFixed 2 (Num.parseFloat price))).
  { intros price Hpos Hb. destruct (Num.parseFloat price) as [|neg|neg m e];
      try discriminate.
    simpl in Hpos. apply andb_prop in Hpos as [Hneg Hm].
    destruct neg; [discriminate|]. apply Z.ltb_lt in Hm.
    apply toFixed_two_decimals; assumption. }
  split; [|split; [|split; [|split; [|split]]]].
  - intros variants before v after price Hv -> Hbefore Hprice Hpos.
    split; [|apply Hshape, Hpos].
    unfold productPrice. rewrite Hv.
    rewrite (find_first _ before v after).
    + replace (0 <? Datatypes.length (before ++ v :: after))%nat with true
        by (symmetry; apply Nat.ltb_lt; rewrite List.length_app; simpl; lia).
      rewrite pounds_not_unavailable. cbn [andb].
      unfold pounds. rewrite Hprice, str_or_empty. reflexivity.
    + eapply Forall_impl; [|exact Hbefore]. intros u. apply positive_price_not.
    + apply positive_price_parses. exists price. auto.
  - intros price Hno Hprice Hpos. split; [|apply Hshape, Hpos].
    rewrite (productPrice_no_variant _ Hno).
    replace (positive_price (product_price product)) with true
      by (symmetry; apply positive_price_parses; exists price; auto).
    unfold pounds. rewrite Hprice, str_or_empty. reflexivity.
  - intros Hno Hnot. rewrite (productPrice_no_variant _ Hno).
    rewrite (positive_price_not _ Hnot). reflexivity.
  - intros Hv. unfold productPrice. rewrite Hv. vm_compute. reflexivity.
  - intros Hv Hp. unfold productPrice. rewrite Hp.
    destruct Hv as [Hv|Hv]; rewrite Hv; reflexivity.
  - intros products name Hin. split.
    + apply (storeListing_lines products product Hin).
    + apply (collectionListing_lines name products product Hin).
Qed.

Lemma C6_price_three_tiers_witness :
  productPrice Sample.pan = "£12.50" /\
  two_decimals (Num.toFixed 2 (Num.parseFloat "12.5")) /\
  productPrice Sample.ladle = "£3.00" /\
  productPrice Sample.whisk = "Price not available" /\
  Str.includes "• Copper Pan: £12.50" (storeListing [Sample.pan; Sample.ladle]) = true.
Proof.
  destruct (C6_price_three_tiers Sample.pan) as (H1 & _ & _ & _ & _ & H6).
  destruct (C6_price_three_tiers Sample.ladle) as (_ & H2 & _).
  destruct (C6_price_three_tiers Sample.whisk) as (_ & _ & H3 & _).
  destruct (H1 [{| variant_price := Some "12.5" |}] [] {| variant_price := Some "12.5" |} []
              "12.5" eq_refl eq_refl (Forall_nil _) eq_refl) as [Hp Hs].
  { vm_compute; reflexivity. }
  assert (Hpan : productPrice Sample.pan = "£12.50") by (rewrite Hp; vm_compute; reflexivity).
  split; [exact Hpan|].
  split; [apply Hs; vm_compute; reflexivity|].
  split; [|split].
  - destruct (H2 "3") as [Hl _].
    + intros variants Hv. inversion Hv; subst. constructor.
    + reflexivity.
    + vm_compute; reflexivity.
    + rewrite Hl. vm_compute; reflexivity.
  - apply H3.
    + intros variants Hv. discriminate.
    + intros (s & Hs' & _). discriminate.
  - destruct (H6 [Sample.pan; Sample.ladle] "" (or_introl eq_refl)) as [Hline _].
    rewrite Hpan in Hline. exact Hline.
Defined.

Lemma no_point_not_two_decimals s :
  Str.includes "." s = false -> ~ two_decimals s.
Proof.
  intros H (whole & d1 & d2 & -> & _). rewrite includes_app in H. discriminate.
Qed.

(** C6 as stated fails: a price that parses strictly positive is not
    always shown with two decimals.  The variant prices "1e21" and
    "Infinity" parse strictly positive and are shown as "£1e+21" and
    "£Infinity". *)
Lemma C6_counterexample :
  Num.gt0 (Num.parseFloat "1e21") = true /\
  productPrice Sample.bullion = "£1e+21" /\
  ~ two_decimals "1e+21" /\
  Num.gt0 (Num.parseFloat "Infinity") = true /\
  productPrice Sample.priceless = "£Infinity" /\
  ~ two_decimals "Infinity".
Proof.
  split; [vm_compute; reflexivity|].
  split; [vm_compute; reflexivity|].
  split; [apply no_point_not_two_decimals; reflexivity|].
  split; [vm_compute; reflexivity|].
  split; [vm_compute; reflexivity|].
  apply no_point_not_two_decimals; reflexivity.
Qed.

(** *** The collection-scoped listing *)

(** C7 (as amended).  For a generic-product message with beauty or kitchen
    vocabulary, the collection looked for is the beauty one when the
    message has beauty vocabulary, and the kitchen one otherwise.  When the
    catalog lists a collection whose title matches it (the first such one,
    with a non-zero id) the responder makes exactly the collections lookup
    and the lookup of that collection's products, and never the general
    product lookup; the reply lists every product of the collection with
    its title behind a bullet, or, when the collection has no product, says
    so naming the collection, in words other than those for an empty
    store. *)
Theorem C7_collection_listing (world : World) (message : string)
    (collections_body products_body : Body) (collection : Collection) :
  classify message = GenericProduct ->
  Str.test_i beautyQueryRe message || Str.test_i kitchenQueryRe message = true ->
  client_get world collectionsRequest = inr collections_body ->
  find (fun c => Str.test_i (if Str.test_i beautyQueryRe message
                             then beautyTitleRe else kitchenTitleRe)
                            (collection_title c))
       (match body_custom_collections collections_body with Some cs => cs | None => [] end)
    = Some collection ->
  collection_id collection <> 0 ->
  client_get world (collectionProductsRequest (collection_id collection)) = inr products_body ->
  exists text,
    ruleBased world message
      = ([CatalogCall collectionsRequest;
          CatalogCall (collectionProductsRequest (collection_id collection))],
         Returned (reply text)) /\
    (body_products products_body = None \/ body_products products_body = Some [] ->
     text = noProductsInCollection (collection_title collection) /\
     text <> noProductsInStore) /\
    (forall products,
       body_products products_body = Some products -> products <> [] ->
       text = collectionListing (collection_title collection) products /\
       forall p, In p products ->
         Str.includes ("• " ++ product_title p) text = true).
Proof.
  intros Hc Hq Hcols Hfind Hid Hprods.
  assert (Htarget : targetCollection world message
                    = ([CatalogCall collectionsRequest],
                       Returned (Some (collection_id collection), collection_title collection))).
  { unfold targetCollection. rewrite Hq. unfold get. fold collectionsRequest.
    rewrite Hcols. unfold bind at 1.
    destruct (Str.test_i beautyQueryRe message) eqn:Hb.
    - rewrite Hfind. reflexivity.
    - cbn [orb] in Hq. rewrite Hq, Hfind. reflexivity. }
  assert (Hidt : id_truthy (Some (collection_id collection)) = true).
  { unfold id_truthy. apply Z.eqb_neq in Hid. rewrite Hid. reflexivity. }
  rewrite ruleBased_compose, Hc. cbn [compose]. unfold productQuery.
  rewrite Htarget. cbv beta iota delta [bind ret get]. rewrite Hidt.
  fold (collectionProductsRequest (collection_id collection)). rewrite Hprods.
  cbv beta iota delta [app].
  destruct (body_products products_body) as [[|p ps]|] eqn:Hbp.
  - eexists. split; [reflexivity|]. split.
    + intros _. split; [reflexivity | apply noProductsInCollection_distinct].
    + intros products H Hne. inversion H; subst. congruence.
  - eexists. split; [reflexivity|]. split.
    + intros [H|H]; discriminate.
    + intros products H Hne. inversion H; subst. split; [reflexivity|].
      intros q Hin. apply collectionListing_titles, Hin.
  - eexists. split; [reflexivity|]. split.
    + intros _. split; [reflexivity | apply noProductsInCollection_distinct].
    + intros products H. discriminate.
Qed.

Lemma C7_collection_listing_witness :
  ruleBased Sample.kitchen_shop "show me your kitchen products"
    = ([CatalogCall collectionsRequest; CatalogCall (collectionProductsRequest 42)],
       Returned (reply (collectionListing "Kitchen Essentials" [Sample.pan; Sample.whisk]))) /\
  Str.includes "• Copper Pan"
    (collectionListing "Kitchen Essentials" [Sample.pan; Sample.whisk]) = true /\
  Str.includes "• Whisk"
    (collectionListing "Kitchen Essentials" [Sample.pan; Sample.whisk]) = true.
Proof.
  destruct (C7_collection_listing Sample.kitchen_shop "show me your kitchen products"
              (Sample.collectionsBody [Sample.kitchenEssentials])
              (Sample.productsBody [Sample.pan; Sample.whisk])
              Sample.kitchenEssentials) as (text & Hr & _ & Hl).
  - vm_compute; reflexivity.
  - vm_compute; reflexivity.
  - reflexivity.
  - vm_compute; reflexivity.
  - discriminate.
  - reflexivity.
  - destruct (Hl [Sample.pan; Sample.whisk] eq_refl) as [Ht Hin]; [discriminate|].
    subst text. split; [exact Hr|]. split.
    + apply (Hin Sample.pan). simpl; auto.
    + apply (Hin Sample.whisk). simpl; auto.
Defined.

(** C7 as stated fails: this generic-product message names the kitchen
    collection, the catalog lists "Kitchen Essentials", and yet the reply
    is the general listing: the message also has beauty vocabulary, no
    beauty collection exists, and the kitchen one is then not looked for. *)
Lemma C7_counterexample :
  classify "any beauty or kitchen products?" = GenericProduct /\
  Str.test_i kitchenQueryRe "any beauty or kitchen products?" = true /\
  client_get Sample.kitchen_shop collectionsRequest
    = inr (Sample.collectionsBody [Sample.kitchenEssentials]) /\
  Str.test_i kitchenTitleRe (collection_title Sample.kitchenEssentials) = true /\
  ruleBased Sample.kitchen_shop "any beauty or kitchen products?"
    = ([CatalogCall collectionsRequest; CatalogCall productsRequest],
       Returned (reply (storeListing [Sample.pan; Sample.ladle]))).
Proof. repeat split; vm_compute; reflexivity. Qed.

(** *** The outbound calls of one request *)

Lemma trace_bind {A B} (m : M A) (f : A -> M B) :
  trace (bind m f)
  = (trace m ++ match snd m with Returned a => trace (f a) | Thrown _ => [] end)%list.
Proof.
  destruct m as [t [a|e]]; unfold bind, trace; simpl.
  - destruct (f a); reflexivity.
  - rewrite app_nil_r. reflexivity.
Qed.

Lemma trace_try_catch {A} (m : M A) (h : JsError -> M A) :
  trace (try_catch m h)
  = (trace m ++ match snd m with Returned _ => [] | Thrown e => trace (h e) end)%list.
Proof.
  destruct m as [t [a|e]]; unfold try_catch, trace; simpl.
  - rewrite app_nil_r. reflexivity.
  - destruct (h e); reflexivity.
Qed.

Lemma trace_mapM_productInfo ps : trace (mapM productInfo ps) = [].
Proof.
  induction ps as [|p ps IH]; [reflexivity|].
  cbn [mapM]. rewrite trace_bind.
  assert (Hp : trace (productInfo p) = [])
    by (unfold productInfo; destruct (product_variants p); reflexivity).
  rewrite Hp. destruct (snd (productInfo p)); [|reflexivity].
  rewrite trace_bind, IH. destruct (snd (mapM productInfo ps)); reflexivity.
Qed.

Lemma trace_chatContext world message :
  context_phase (trace (chatContext world message)) /\
  (Str.test_i productRe message = true \/ trace (chatContext world message) = []).
Proof.
  unfold chatContext, context_phase. destruct (Str.test_i productRe message);
    [|split; [left|right]; reflexivity].
  split; [right | left; reflexivity].
  rewrite trace_try_catch, trace_bind.
  assert (Hcp : trace (contextProducts world) = [CatalogCall contextProductsRequest]).
  { unfold contextProducts. rewrite trace_bind. unfold get at 1. fold contextProductsRequest.
    unfold trace at 1. cbn [fst].
    destruct (snd (get world contextProductsRequest)) as [b|e]; [|reflexivity].
    destruct (body_products b); [rewrite trace_mapM_productInfo|]; reflexivity. }
  rewrite Hcp. destruct (snd (contextProducts world)) as [infos|e]; cbn [trace ret fst app].
  - destruct (snd _); reflexivity.
  - destruct (snd _); reflexivity.
Qed.

Lemma trace_callLLM env world prompt context :
  llm_phase (trace (callLLM env world prompt context)).
Proof.
  unfold callLLM, llm_phase.
  destruct (negb (str_truthy (LLM_API_KEY env)) || negb (str_truthy (LLM_PROVIDER env)));
    [left; reflexivity|].
  destruct (requestConfigFor _ _ _ _ _) as [cfg|]; [|left; reflexivity].
  right. exists cfg. unfold request, bind, try_catch, ret, trace.
  destruct (axios world cfg); reflexivity.
Qed.

Lemma trace_llmAttempt env world message :
  exists t1 t2,
    trace (llmAttempt env world message) = (t1 ++ t2)%list /\
    context_phase t1 /\ llm_phase t2 /\
    (llmConfigured env = true \/ (t1 = [] /\ t2 = [])) /\
    (Str.test_i productRe message = true \/ t1 = []).
Proof.
  unfold llmAttempt. destruct (llmConfigured env).
  - destruct (trace_chatContext world message) as [H1 H1'].
    destruct (chatContext_returns world message) as (t1 & context & Hc).
    rewrite Hc in H1, H1'. unfold trace in H1, H1'. cbn [fst] in H1, H1'.
    pose proof (trace_callLLM env world message context) as H2.
    destruct (callLLM_returns env world message context) as (t2 & v & Hl).
    rewrite Hl in H2. unfold trace in H2. cbn [fst] in H2.
    exists t1, t2. rewrite Hc. cbv beta iota delta [bind]. rewrite Hl.
    split; [destruct (truthy v); unfold ret, trace; cbn [fst]; rewrite app_nil_r; reflexivity|].
    auto.
  - exists [], []. repeat split; try (left; reflexivity); auto.
Qed.

Lemma trace_targetCollection world message :
  targetCollection world message = ([], Returned (None, ""))
  \/ trace (targetCollection world message) = [CatalogCall collectionsRequest].
Proof.
  unfold targetCollection.
  destruct (Str.test_i beautyQueryRe message || Str.test_i kitchenQueryRe message);
    [right | left; reflexivity].
  rewrite trace_bind. unfold get at 1. fold collectionsRequest. unfold trace at 1. cbn [fst].
  destruct (snd (get world collectionsRequest)) as [b|e]; [|reflexivity].
  destruct (Str.test_i beautyQueryRe message).
  - destruct (find _ _); reflexivity.
  - destruct (Str.test_i kitchenQueryRe message); [destruct (find _ _)|]; reflexivity.
Qed.

Lemma trace_productQuery world message :
  fallback_phase (trace (productQuery world message)).
Proof.
  unfold productQuery. rewrite trace_bind.
  assert (Hrest : forall target : option Z * string,
            let t := trace (let '(collectionId, collectionName) := target in
              products <-
                (if id_truthy collectionId then
                   collectionProductsResponse <-
                     get world {| path := "collections/"
                                   ++ Num.toString_integer
                                        (match collectionId with Some z => z | None => 0 end)
                                   ++ "/products";
                                  query := [("limit", 5)] |} ;;
                   ret (match body_products collectionProductsResponse with
                        | Some ps => ps | None => [] end)
                 else
                   response <- get world {| path := "products"; query := [("limit", 5)] |} ;;
                   ret (match body_products response with Some ps => ps | None => [] end)) ;;
              match products with
              | [] =>
                  ret (reply (if id_truthy collectionId
                              then noProductsInCollection collectionName
                              else noProductsInStore))
              | _ :: _ =>
                  ret (reply (if id_truthy collectionId
                              then collectionListing collectionName products
                              else storeListing products))
              end) in
            t = [CatalogCall productsRequest]
            \/ exists collectionId, t = [CatalogCall (collectionProductsRequest collectionId)]).
  { intros [collectionId collectionName]. cbv zeta.
    destruct (id_truthy collectionId).
    - right. exists (match collectionId with Some z => z | None => 0 end).
      unfold collectionProductsRequest, bind, get, ret, trace.
      destruct (client_get world _) as [e|b]; [reflexivity|].
      destruct (match body_products b with Some ps => ps | None => [] end); reflexivity.
    - left. unfold productsRequest, bind, get, ret, trace.
      destruct (client_get world _) as [e|b]; [reflexivity|].
      destruct (match body_products b with Some ps => ps | None => [] end); reflexivity. }
  unfold fallback_phase.
  destruct (trace_targetCollection world message) as [Ht|Ht]; rewrite Ht.
  - cbn [trace fst snd app].
    destruct (Hrest (None, "")) as [H|[cid H]]; cbv zeta in H.
    + rewrite H. auto.
    + exfalso. revert H. cbn [id_truthy]. unfold bind, get, ret, trace.
      destruct (client_get world _) as [e|b]; [discriminate|].
      destruct (match body_products b with Some ps => ps | None => [] end); discriminate.
  - destruct (snd (targetCollection world message)) as [target|e]; cbn [app]; [|auto].
    destruct (Hrest target) as [H|[cid H]]; cbv zeta in H; rewrite H; eauto 6.
Qed.

Lemma trace_ruleBased world message : fallback_phase (trace (ruleBased world message)).
Proof.
  rewrite ruleBased_compose.
  destruct (classify message); cbn [compose]; try (left; reflexivity).
  apply trace_productQuery.
Qed.

(** C3 (as amended).  The outbound calls of one request come in three
    phases, in this order: at most one product lookup for the context of
    the LLM, made only when an LLM is configured and the message matches
    the product vocabulary; at most one LLM call, made only when an LLM is
    configured; and the lookups of the rule-based responder, at most a
    collections lookup followed by one scoped or general product lookup.
    Hence at most one LLM call and at most three catalog calls, and without
    a configured LLM no LLM call and at most two catalog calls. *)
Theorem C3_outbound_calls (env : Env) (world : World) (message : option string) :
  exists t1 t2 t3,
    trace (chat env world message) = (t1 ++ t2 ++ t3)%list /\
    context_phase t1 /\ llm_phase t2 /\ fallback_phase t3 /\
    (llmConfigured env = true \/ (t1 = [] /\ t2 = [])) /\
    (Str.test_i productRe (str_or message "") = true \/ t1 = []) /\
    (llm_calls (trace (chat env world message)) <= 1)%nat /\
    (catalog_calls (trace (chat env world message)) <= 3)%nat /\
    (llmConfigured env = true \/
     (llm_calls (trace (chat env world message)) = 0
      /\ catalog_calls (trace (chat env world message)) <= 2)%nat).
Proof.
  assert (Hshape : exists t1 t2 t3,
            trace (chat env world message) = (t1 ++ t2 ++ t3)%list /\
            context_phase t1 /\ llm_phase t2 /\ fallback_phase t3 /\
            (llmConfigured env = true \/ (t1 = [] /\ t2 = [])) /\
            (Str.test_i productRe (str_or message "") = true \/ t1 = [])).
  { unfold chat. rewrite trace_try_catch.
    destruct (negb (str_truthy message)).
    - exists [], [], []. unfold context_phase, llm_phase, fallback_phase.
      repeat split; auto.
    - destruct (trace_llmAttempt env world (str_or message ""))
        as (t1 & t2 & Ht & H1 & H2 & H3 & H4).
      destruct (llmAttempt_returns env world (str_or message "")) as (t & answered & Hl).
      rewrite Hl in Ht. unfold trace in Ht. cbn [fst] in Ht. subst t.
      cbv zeta. rewrite Hl. cbv beta iota delta [bind].
      destruct answered as [response|].
      + exists t1, t2, []. unfold ret, trace. cbn [fst snd]. rewrite !app_nil_r.
        repeat split; auto. left; reflexivity.
      + pose proof (trace_ruleBased world (str_or message "")) as H5.
        destruct (ruleBased world (str_or message "")) as [t3 o].
        unfold trace in H5. cbn [fst] in H5.
        exists t1, t2, t3. unfold trace. cbn [fst snd].
        split; [|auto].
        destruct o; cbn [fst ret];
          rewrite ?chatErrorResponse_trace, ?app_nil_r, <- ?app_assoc; reflexivity. }
  destruct Hshape as (t1 & t2 & t3 & Ht & H1 & H2 & H3 & H4 & H5).
  exists t1, t2, t3. rewrite Ht.
  split; [reflexivity|]. repeat (split; [assumption|]).
  rewrite !llm_calls_app, !catalog_calls_app.
  assert (C1 : (llm_calls t1 = 0 /\ catalog_calls t1 <= 1)%nat)
    by (destruct H1 as [->| ->]; split; vm_compute; lia).
  assert (C2 : (llm_calls t2 <= 1 /\ catalog_calls t2 = 0)%nat)
    by (destruct H2 as [->|[cfg ->]]; split; vm_compute; lia).
  assert (C3 : (llm_calls t3 = 0 /\ catalog_calls t3 <= 2)%nat)
    by (destruct H3 as [->|[->|[->|[->|[cid ->]]]]]; split; vm_compute; lia).
  split; [lia|]. split; [lia|].
  destruct H4 as [H4|[-> ->]]; [left; exact H4 | right].
  change (llm_calls []) with 0%nat. change (catalog_calls []) with 0%nat. lia.
Qed.

(** C3 as stated fails: with an LLM configured that gives no answer, this
    product message makes three catalog calls. *)
Lemma C3_counterexample :
  llmConfigured Sample.env_openai = true /\
  Str.test_i productRe "show me your kitchen products" = true /\
  filter is_catalog_call
    (trace (chat Sample.env_openai Sample.kitchen_shop (Some "show me your kitchen products")))
    = [CatalogCall contextProductsRequest;
       CatalogCall collectionsRequest;
       CatalogCall (collectionProductsRequest 42)] /\
  catalog_calls
    (trace (chat Sample.env_openai Sample.kitchen_shop (Some "show me your kitchen products")))
    = 3%nat /\
  llm_calls
    (trace (chat Sample.env_openai Sample.kitchen_shop (Some "show me your kitchen products")))
    = 1%nat.
Proof. repeat split; vm_compute; reflexivity. Qed.

(** ** Further properties of the chat handler *)

Lemma productQuery_reply world message t r :
  productQuery world message = (t, Returned r) ->
  exists text, r = reply text /\ Str.truthy text = true.
Proof.
  unfold productQuery. intros H.
  destruct (targetCollection world message) as [t1 [[collectionId collectionName]|e]];
    [|discriminate].
  cbv beta iota delta [bind ret get] in H.
  destruct (id_truthy collectionId);
    destruct (client_get world _) as [e|b]; try discriminate;
    destruct (match body_products b with Some ps => ps | None => [] end);
    inversion H; subst; eexists; split; reflexivity.
Qed.

Lemma ruleBased_reply world message t r :
  ruleBased world message = (t, Returned r) ->
  exists text, r = reply text /\ Str.truthy text = true.
Proof.
  rewrite ruleBased_compose.
  destruct (classify message); cbn [compose];
    try (intros H; inversion H; subst; eexists; split; reflexivity).
  apply productQuery_reply.
Qed.

Lemma llmAttempt_answered env world message t r :
  llmAttempt env world message = (t, Returned (Some r)) ->
  exists answer, r = res_json (JObj [("reply", answer)]) /\ json_truthy answer = true.
Proof.
  unfold llmAttempt. destruct (llmConfigured env); [|discriminate].
  destruct (chatContext_returns world message) as (t1 & context & Hc). rewrite Hc.
  destruct (callLLM_returns env world message context) as (t2 & v & Hl).
  cbv beta iota delta [bind]. rewrite Hl.
  destruct v as [answer|]; cbn [truthy]; [|discriminate].
  destruct (json_truthy answer) eqn:Ht; [|discriminate].
  intros H. inversion H; subst. eauto.
Qed.

(** The ways the chat handler ends. *)
Lemma chat_outcome env world message :
  exists t,
    (exists r, chat env world message = (t, Returned r) /\
       ((str_truthy message = false /\
         r = {| status := 400; body := JObj [("error", JStr "Message is required")] |}) \/
        (str_truthy message = true /\ exists answer,
           r = res_json (JObj [("reply", answer)]) /\ json_truthy answer = true /\
           (llmConfigured env = false -> exists text, answer = JStr text)) \/
        (str_truthy message = true /\ exists req e fields,
           In (CatalogCall req) t /\ client_get world req = inl e /\
           valid_status (status r) = true /\ status r = to_int32 (errorStatus e) /\
           body r = JObj [("error", JObj fields)]))) \/
    (exists req e,
       str_truthy message = true /\
       chat env world message = (t, Thrown (invalidStatusCode (errorStatus e))) /\
       In (CatalogCall req) t /\ client_get world req = inl e /\
       valid_status (to_int32 (errorStatus e)) = false).
Proof.
  unfold chat. destruct (str_truthy message); cbn [negb].
  2:{ eexists. left. eexists. split; [reflexivity|]. left. split; reflexivity. }
  cbv zeta.
  destruct (llmAttempt_returns env world (str_or message "")) as (t1 & answered & Hl).
  rewrite Hl. cbv beta iota delta [bind].
  destruct answered as [r|].
  - destruct (llmAttempt_answered _ _ _ _ _ Hl) as (answer & -> & Ht).
    eexists. left. eexists. split; [reflexivity|]. right; left. split; [reflexivity|].
    exists answer. split; [reflexivity|]. split; [exact Ht|].
    intros Hc. unfold llmAttempt in Hl. rewrite Hc in Hl. discriminate.
  - destruct (ruleBased world (str_or message "")) as [t2 [r|e]] eqn:Hrb;
      cbv beta iota delta [try_catch ret].
    + destruct (ruleBased_reply _ _ _ _ Hrb) as (text & -> & Ht).
      eexists. left. eexists. split; [reflexivity|]. right; left. split; [reflexivity|].
      exists (JStr text). split; [reflexivity|]. split; [exact Ht|]. eauto.
    + destruct (throws_from_catalog_ruleBased world _ t2 e Hrb) as (req & Hin & Hreq).
      destruct (chatErrorResponse_respond e) as (fields & ->).
      destruct (respond {| status := errorStatus e; body := JObj [("error", JObj fields)] |})
        as [t3 [r|e']] eqn:Hr.
      * apply respond_returned in Hr as (-> & Hv & Hs & Hb). rewrite app_nil_r.
        eexists. left. eexists. split; [reflexivity|]. right; right. split; [reflexivity|].
        exists req, e, fields. repeat split; try assumption.
        apply in_or_app. right. exact Hin.
      * apply respond_thrown in Hr as (-> & -> & Hv). rewrite app_nil_r.
        eexists. right. exists req, e. repeat split; try assumption.
        apply in_or_app. right. exact Hin.
Qed.

Lemma answerable_shop_down : answerable Sample.shop_down.
Proof. intros req e H. inversion H; subst. reflexivity. Qed.

(** X1.  The chat handler ends in one of two ways.  It answers, with a
    status that Node writes: a reply, with status 200 and a reply value
    that is truthy (never empty), or a body with an [error] field.  Or
    it sends no response: this happens only in its [catch], for an error
    of a catalog call whose status Node refuses, and the error that
    leaves the handler is then the one of Node for that status.  When
    every error of the catalog has a status from 100 to 999 the handler
    always answers. *)
Theorem chat_responds_unless_invalid_status (env : Env) (world : World)
    (message : option string) :
  ((exists t r,
      chat env world message = (t, Returned r) /\ valid_status (status r) = true /\
      ((status r = 200 /\ exists answer,
          body r = JObj [("reply", answer)] /\ json_truthy answer = true) \/
       (exists e, body r = JObj [("error", e)]))) \/
   (exists t req e,
      chat env world message = (t, Thrown (invalidStatusCode (errorStatus e))) /\
      In (CatalogCall req) t /\ client_get world req = inl e /\
      valid_status (to_int32 (errorStatus e)) = false)) /\
  (answerable world -> exists t r, chat env world message = (t, Returned r)).
Proof.
  destruct (chat_outcome env world message)
    as (t & [(r & Hc & Hr) | (req & e & _ & Hc & Hin & Hreq & Hv)]).
  - split; [|eauto]. left. exists t, r. split; [exact Hc|].
    destruct Hr as [[_ ->] | [[_ (answer & -> & Ht & _)] |
                              [_ (req & e & fields & _ & _ & Hv & _ & Hb)]]].
    + split; [reflexivity|]. right. eexists. reflexivity.
    + split; [reflexivity|]. left. split; [reflexivity|]. exists answer.
      split; [reflexivity | exact Ht].
    + split; [exact Hv|]. right. eexists. exact Hb.
  - split; [right; exists t, req, e; auto|].
    intros Ha. specialize (Ha req e Hreq).
    rewrite (to_int32_valid _ Ha), Ha in Hv. discriminate.
Qed.

Lemma chat_responds_unless_invalid_status_witness :
  exists t r, chat Sample.env_none Sample.shop_down (Some "any products?") = (t, Returned r).
Proof.
  exact (proj2 (chat_responds_unless_invalid_status Sample.env_none Sample.shop_down
                  (Some "any products?"))
               answerable_shop_down).
Defined.

Lemma bind_ext {A B} (m : M A) (f g : A -> M B) :
  (forall a, f a = g a) -> bind m f = bind m g.
Proof. intros H. destruct m as [t [a|e]]; simpl; [rewrite H|]; reflexivity. Qed.

Lemma get_same world world' req :
  same_catalog world world' -> get world req = get world' req.
Proof. intros H. unfold get. rewrite (H req). reflexivity. Qed.

Lemma ruleBased_same world world' message :
  same_catalog world world' -> ruleBased world message = ruleBased world' message.
Proof.
  intros H. rewrite !ruleBased_compose.
  destruct (classify message); cbn [compose]; try reflexivity.
  unfold productQuery.
  assert (Ht : targetCollection world message = targetCollection world' message).
  { unfold targetCollection. rewrite (get_same world world' _ H). reflexivity. }
  rewrite Ht. apply bind_ext. intros [collectionId collectionName].
  destruct (id_truthy collectionId); rewrite (get_same world world' _ H); reflexivity.
Qed.

(** X2.  With no LLM configured (key or provider missing or empty) the
    answer to a request depends on the catalog only: two worlds whose
    catalogs answer alike get the same response and the same calls,
    whatever their LLM providers would say, and no LLM call is made. *)
Theorem unconfigured_ignores_provider (env : Env) (world world' : World)
    (message : option string) :
  llmConfigured env = false ->
  same_catalog world world' ->
  chat env world message = chat env world' message /\
  llm_calls (trace (chat env world message)) = 0%nat.
Proof.
  intros Hc Hs. unfold chat, llmAttempt. rewrite Hc.
  destruct (negb (str_truthy message)); [split; reflexivity|].
  cbv zeta. rewrite !bind_ret_l, (ruleBased_same world world' _ Hs).
  split; [reflexivity|].
  rewrite trace_try_catch.
  pose proof (trace_ruleBased world' (str_or message "")) as Hf.
  destruct (ruleBased world' (str_or message "")) as [t o].
  unfold trace in *. cbn [fst snd] in *.
  replace (match o with Returned _ => [] | Thrown e => fst (chatErrorResponse e) end)
    with (@nil Event) by (destruct o; [reflexivity | symmetry; apply chatErrorResponse_trace]).
  rewrite app_nil_r.
  destruct Hf as [->|[->|[->|[->|[cid ->]]]]]; reflexivity.
Qed.

Lemma unconfigured_ignores_provider_witness :
  chat Sample.env_none Sample.kitchen_shop (Some "show me your kitchen products")
  = chat Sample.env_none
      {| client_get := client_get Sample.kitchen_shop;
         axios := fun _ => inr (Sample.openai_answer (JStr "hello")) |}
      (Some "show me your kitchen products").
Proof.
  apply (unconfigured_ignores_provider Sample.env_none Sample.kitchen_shop _ _ eq_refl).
  intros req. reflexivity.
Defined.

(** X3.  When an LLM is configured and its answer is truthy, that answer
    is the reply, with status 200, and the rule-based responder does not
    run: the calls are those of the context, at most one product lookup,
    followed by the LLM call. *)
Theorem llm_answer_is_the_reply (env : Env) (world : World) (message : string)
    (tc : list Event) (context : Context) (cfg : RequestConfig) (data : value)
    (answer : JSON) :
  message <> "" ->
  llmConfigured env = true ->
  chatContext world message = (tc, Returned context) ->
  requestConfigFor (providerName env) (apiKeyOf env) (LLM_MODEL env)
    (systemMessageFor context) message = Some cfg ->
  axios world cfg = inr data ->
  extractReply (providerName env) data = Some answer ->
  json_truthy answer = true ->
  chat env world (Some message)
    = ((tc ++ [LLMCall cfg])%list, Returned (res_json (JObj [("reply", answer)]))) /\
  (tc = [] \/ tc = [CatalogCall contextProductsRequest]).
Proof.
  intros Hne Hc Hctx Hcfg Hax Hex Ht.
  split.
  - unfold chat. destruct message as [|c r]; [congruence|].
    cbn [str_truthy Str.truthy negb str_or]. unfold llmAttempt. rewrite Hc, Hctx.
    cbv beta iota delta [bind].
    assert (Hl : callLLM env world (String c r) context
                 = ([LLMCall cfg], Returned (Some answer))).
    { unfold callLLM. fold (providerName env). fold (apiKeyOf env).
      unfold llmConfigured in Hc. apply andb_prop in Hc as [Hk Hp].
      rewrite Hk, Hp, Hcfg. unfold request, bind, try_catch, ret.
      rewrite Hax, Hex. reflexivity. }
    rewrite Hl. cbn [truthy]. rewrite Ht.
    cbv beta iota delta [ret try_catch option_map]. rewrite ?app_nil_r. reflexivity.
  - pose proof (trace_chatContext world message) as [H _].
    rewrite Hctx in H. exact H.
Qed.

Lemma llm_answer_is_the_reply_witness :
  chat Sample.env_openai (Sample.provider_world (Sample.openai_answer (JStr "Hello!")))
    (Some "hello")
  = ([LLMCall (openaiConfig "sk-test" None (systemMessageFor baseContext) "hello")],
     Returned (res_json (JObj [("reply", JStr "Hello!")]))).
Proof.
  refine (proj1 (llm_answer_is_the_reply Sample.env_openai
            (Sample.provider_world (Sample.openai_answer (JStr "Hello!"))) "hello"
            [] baseContext _ (Sample.openai_answer (JStr "Hello!")) (JStr "Hello!")
            _ _ _ _ _ _ _)).
  - discriminate.
  - reflexivity.
  - vm_compute; reflexivity.
  - reflexivity.
  - reflexivity.
  - reflexivity.
  - reflexivity.
Defined.

(** X4.  When an LLM is configured and what [callLLM] returns is falsy
    ([null], [undefined], the empty string, ...), the response is the one
    of the rule-based responder, whose calls follow those of the
    attempt. *)
Theorem llm_no_answer_falls_back (env : Env) (world : World) (message : string)
    (tc tl : list Event) (context : Context) (v : value) :
  message <> "" ->
  llmConfigured env = true ->
  chatContext world message = (tc, Returned context) ->
  callLLM env world message context = (tl, Returned v) ->
  truthy v = false ->
  chat env world (Some message)
    = ((tc ++ tl ++ trace (ruleBased world message))%list,
       snd (try_catch (ruleBased world message)
              (fun error => chatErrorResponse error))).
Proof.
  intros Hne Hc Hctx Hl Hv. unfold chat. destruct message as [|c r]; [congruence|].
  cbn [str_truthy Str.truthy negb str_or]. unfold llmAttempt. rewrite Hc, Hctx.
  cbv beta iota delta [bind]. rewrite Hl, Hv. cbv beta iota delta [ret].
  destruct (ruleBased world (String c r)) as [t [resp|e]];
    cbv beta iota delta [try_catch ret trace fst snd].
  - rewrite ?app_nil_r, <- ?app_assoc. reflexivity.
  - pose proof (chatErrorResponse_trace e) as Ht.
    destruct (chatErrorResponse e) as [t' o]. cbn [fst] in Ht. subst t'.
    rewrite ?app_nil_r, <- ?app_assoc. reflexivity.
Qed.

Lemma llm_no_answer_falls_back_witness :
  chat Sample.env_openai (Sample.provider_world (Sample.openai_answer (JStr "")))
    (Some "hello")
  = ([LLMCall (openaiConfig "sk-test" None (systemMessageFor baseContext) "hello")],
     Returned (reply reply_default)).
Proof.
  rewrite (llm_no_answer_falls_back Sample.env_openai
             (Sample.provider_world (Sample.openai_answer (JStr ""))) "hello"
             [] [LLMCall (openaiConfig "sk-test" None (systemMessageFor baseContext) "hello")]
             baseContext (Some (JStr ""))).
  - vm_compute; reflexivity.
  - discriminate.
  - reflexivity.
  - vm_compute; reflexivity.
  - vm_compute; reflexivity.
  - reflexivity.
Defined.

(** X5.  A message of any intent other than Generic-product is answered
    with one of the canned texts without any outbound call, whatever the
    state of the catalog; with no LLM configured this is the whole
    response of the handler. *)
Theorem canned_replies_need_no_catalog (env : Env) (world : World) (message : string) :
  classify message <> GenericProduct ->
  exists text,
    In text canned_replies /\
    ruleBased world message = ([], Returned (reply text)) /\
    (llmConfigured env = false -> message <> "" ->
     chat env world (Some message) = ([], Returned (reply text))).
Proof.
  intros Hc.
  assert (H : exists text, In text canned_replies
                           /\ ruleBased world message = ([], Returned (reply text))).
  { rewrite ruleBased_compose. unfold canned_replies.
    destruct (classify message); cbn [compose]; try congruence;
      eexists; (split; [|reflexivity]); simpl; tauto. }
  destruct H as (text & Hin & Hrb). exists text. split; [exact Hin|]. split; [exact Hrb|].
  intros Hl Hne. unfold chat, llmAttempt. rewrite Hl.
  destruct message as [|c r]; [congruence|].
  cbn [str_truthy Str.truthy negb str_or]. rewrite bind_ret_l, Hrb. reflexivity.
Qed.

Lemma canned_replies_need_no_catalog_witness :
  chat Sample.env_none Sample.shop_down (Some "What are your shipping rates?")
  = ([], Returned (reply reply_shipping)).
Proof.
  destruct (canned_replies_need_no_catalog Sample.env_none Sample.shop_down
              "What are your shipping rates?") as (text & _ & Hrb & Hchat).
  - vm_compute; discriminate.
  - rewrite (Hchat eq_refl); [|discriminate].
    assert (E : ruleBased Sample.shop_down "What are your shipping rates?"
                = ([], Returned (reply reply_shipping))) by (vm_compute; reflexivity).
    rewrite E in Hrb. inversion Hrb. reflexivity.
Defined.

(** ** Further properties of the product listing and of the snapshot *)

Lemma targetCollection_none world message :
  Str.test_i beautyQueryRe message || Str.test_i kitchenQueryRe message = false ->
  targetCollection world message = ([], Returned (None, "")).
Proof. intros H. unfold targetCollection. rewrite H. reflexivity. Qed.

Lemma generalQuery world message t0 name body :
  targetCollection world message = (t0, Returned (None, name)) ->
  client_get world productsRequest = inr body ->
  productQuery world message
  = ((t0 ++ [CatalogCall productsRequest])%list,
     Returned (reply (generalListing
                        (match body_products body with Some ps => ps | None => [] end)))).
Proof.
  intros Ht Hg. unfold productQuery. rewrite Ht.
  cbv beta iota delta [bind ret get id_truthy]. fold productsRequest. rewrite Hg.
  destruct (match body_products body with Some ps => ps | None => [] end);
    cbn [generalListing]; rewrite ?app_nil_r; reflexivity.
Qed.

(** X6.  A generic-product message without beauty or kitchen vocabulary
    makes exactly one catalog call, the general product lookup limited to
    five; the reply lists one line, bullet, title and price, for every
    product returned, or says that the store has no products when none is
    (also when the body has no [products] field). *)
Theorem general_listing (world : World) (message : string) (response_body : Body) :
  classify message = GenericProduct ->
  Str.test_i beautyQueryRe message = false ->
  Str.test_i kitchenQueryRe message = false ->
  client_get world productsRequest = inr response_body ->
  ruleBased world message
    = ([CatalogCall productsRequest],
       Returned (reply (generalListing
                          (match body_products response_body with
                           | Some ps => ps
                           | None => []
                           end)))) /\
  generalListing [] = noProductsInStore /\
  (forall products p,
     In p products ->
     generalListing products = storeListing products /\
     Str.includes ("• " ++ product_title p ++ ": " ++ productPrice p)
       (storeListing products) = true).
Proof.
  intros Hc Hb Hk Hg. split; [|split; [reflexivity|]].
  - rewrite ruleBased_compose, Hc. cbn [compose].
    apply (generalQuery world message [] ""); [|exact Hg].
    apply targetCollection_none. rewrite Hb, Hk. reflexivity.
  - intros products p Hin. split.
    + destruct products; [contradiction | reflexivity].
    + apply (storeListing_lines products p Hin).
Qed.

Lemma general_listing_witness :
  ruleBased Sample.kitchen_shop "what can I buy?"
  = ([CatalogCall productsRequest],
     Returned (reply (storeListing [Sample.pan; Sample.ladle]))) /\
  Str.includes "• Copper Pan: £12.50" (storeListing [Sample.pan; Sample.ladle]) = true.
Proof.
  destruct (general_listing Sample.kitchen_shop "what can I buy?"
              (Sample.productsBody [Sample.pan; Sample.ladle])) as (H1 & _ & H3).
  - vm_compute; reflexivity.
  - vm_compute; reflexivity.
  - vm_compute; reflexivity.
  - reflexivity.
  - split; [exact H1|].
    destruct (H3 [Sample.pan; Sample.ladle] Sample.pan) as [_ H]; [simpl; auto|].
    assert (E : "• " ++ product_title Sample.pan ++ ": " ++ productPrice Sample.pan
                = "• Copper Pan: £12.50") by (vm_compute; reflexivity).
    rewrite E in H. exact H.
Defined.

Lemma targetTitleRe_beauty message :
  Str.test_i beautyQueryRe message = true -> targetTitleRe message = beautyTitleRe.
Proof. intros H. unfold targetTitleRe. rewrite H. reflexivity. Qed.

Lemma targetTitleRe_kitchen message :
  Str.test_i beautyQueryRe message = false -> targetTitleRe message = kitchenTitleRe.
Proof. intros H. unfold targetTitleRe. rewrite H. reflexivity. Qed.

Lemma targetCollection_no_beauty world message collections_body :
  Str.test_i beautyQueryRe message = true ->
  client_get world collectionsRequest = inr collections_body ->
  find (fun c => Str.test_i beautyTitleRe (collection_title c))
       (match body_custom_collections collections_body with Some cs => cs | None => [] end)
  = None ->
  targetCollection world message = ([CatalogCall collectionsRequest], Returned (None, "")).
Proof.
  intros Hq Hcols Hnone.
  unfold targetCollection. rewrite Hq. cbn [orb].
  unfold get. fold collectionsRequest. rewrite Hcols. unfold bind at 1.
  rewrite Hnone. reflexivity.
Qed.

Lemma targetCollection_no_kitchen world message collections_body :
  Str.test_i beautyQueryRe message = false ->
  Str.test_i kitchenQueryRe message = true ->
  client_get world collectionsRequest = inr collections_body ->
  find (fun c => Str.test_i kitchenTitleRe (collection_title c))
       (match body_custom_collections collections_body with Some cs => cs | None => [] end)
  = None ->
  targetCollection world message = ([CatalogCall collectionsRequest], Returned (None, "")).
Proof.
  intros Hb Hq Hcols Hnone.
  unfold targetCollection. rewrite Hb, Hq. cbn [orb].
  unfold get. fold collectionsRequest. rewrite Hcols. unfold bind at 1.
  rewrite Hnone. reflexivity.
Qed.

Lemma targetCollection_unmatched world message collections_body :
  Str.test_i beautyQueryRe message || Str.test_i kitchenQueryRe message = true ->
  client_get world collectionsRequest = inr collections_body ->
  Forall (fun c => Str.test_i (targetTitleRe message) (collection_title c) = false)
         (match body_custom_collections collections_body with Some cs => cs | None => [] end) ->
  targetCollection world message = ([CatalogCall collectionsRequest], Returned (None, "")).
Proof.
  intros Hq Hcols Hnone. apply find_none in Hnone.
  destruct (Str.test_i beautyQueryRe message) eqn:Hb.
  - rewrite (targetTitleRe_beauty message Hb) in Hnone.
    apply (targetCollection_no_beauty world message collections_body Hb Hcols Hnone).
  - rewrite (targetTitleRe_kitchen message Hb) in Hnone.
    apply (targetCollection_no_kitchen world message collections_body Hb Hq Hcols Hnone).
Qed.

(** X7.  When the message has beauty or kitchen vocabulary and no
    collection of the catalog has a title matching the one looked for, the
    responder falls back to the general listing: the collections lookup
    is followed by the general product lookup, and the reply is the one
    for the whole store. *)
Theorem unmatched_collection_falls_back (world : World) (message : string)
    (collections_body response_body : Body) :
  classify message = GenericProduct ->
  Str.test_i beautyQueryRe message || Str.test_i kitchenQueryRe message = true ->
  client_get world collectionsRequest = inr collections_body ->
  Forall (fun c => Str.test_i (targetTitleRe message) (collection_title c) = false)
         (match body_custom_collections collections_body with Some cs => cs | None => [] end) ->
  client_get world productsRequest = inr response_body ->
  ruleBased world message
    = ([CatalogCall collectionsRequest; CatalogCall productsRequest],
       Returned (reply (generalListing
                          (match body_products response_body with
                           | Some ps => ps
                           | None => []
                           end)))).
Proof.
  intros Hc Hq Hcols Hnone Hg.
  rewrite ruleBased_compose, Hc. cbn [compose].
  rewrite (generalQuery world message [CatalogCall collectionsRequest] "" response_body
             (targetCollection_unmatched world message collections_body Hq Hcols Hnone) Hg).
  reflexivity.
Qed.

Lemma unmatched_collection_falls_back_witness :
  ruleBased Sample.kitchen_shop "do you sell makeup products?"
  = ([CatalogCall collectionsRequest; CatalogCall productsRequest],
     Returned (reply (storeListing [Sample.pan; Sample.ladle]))).
Proof.
  apply (unmatched_collection_falls_back Sample.kitchen_shop "do you sell makeup products?"
           (Sample.collectionsBody [Sample.kitchenEssentials])
           (Sample.productsBody [Sample.pan; Sample.ladle])).
  - vm_compute; reflexivity.
  - vm_compute; reflexivity.
  - reflexivity.
  - repeat constructor; vm_compute; reflexivity.
  - reflexivity.
Defined.

Lemma mapM_productInfo_throws products p :
  In p products -> product_variants p = None ->
  exists e, mapM productInfo products = ([], Thrown e).
Proof.
  induction products as [|q products IH]; intros Hin Hv; [contradiction|].
  cbn [mapM]. unfold productInfo at 1.
  destruct (product_variants q) as [variants|] eqn:Hq.
  - destruct Hin as [->|Hin]; [congruence|].
    destruct (IH Hin Hv) as (e & He). exists e.
    cbv beta iota delta [bind ret]. rewrite He. reflexivity.
  - eexists. reflexivity.
Qed.

(** X8.  The snapshot of the context is all or nothing: when the product
    fetch answers with a body that has no [products], or with a list in
    which one product has no [variants], the context is the one without a
    snapshot, however many well-formed products were returned; the fetch
    has been made, and nothing is thrown. *)
Theorem snapshot_all_or_nothing (world : World) (message : string) (response_body : Body) :
  Str.test_i productRe message = true ->
  client_get world contextProductsRequest = inr response_body ->
  (body_products response_body = None \/
   exists products p,
     body_products response_body = Some products /\ In p products /\
     product_variants p = None) ->
  chatContext world message = ([CatalogCall contextProductsRequest], Returned baseContext).
Proof.
  intros Hm Hg Hbad. unfold chatContext, contextProducts, get.
  fold contextProductsRequest. rewrite Hm, Hg. unfold bind at 2.
  destruct Hbad as [Hn|(products & p & Hp & Hin & Hv)].
  - rewrite Hn. reflexivity.
  - rewrite Hp. destruct (mapM_productInfo_throws products p Hin Hv) as (e & He).
    rewrite He. reflexivity.
Qed.

Lemma snapshot_all_or_nothing_witness :
  chatContext
    {| client_get := fun _ => inr (Sample.productsBody [Sample.pan; Sample.whisk]);
       axios := fun _ => inl Sample.networkError |}
    "which products do you sell?"
  = ([CatalogCall contextProductsRequest], Returned baseContext).
Proof.
  apply (snapshot_all_or_nothing _ "which products do you sell?"
           (Sample.productsBody [Sample.pan; Sample.whisk])).
  - vm_compute; reflexivity.
  - reflexivity.
  - right. exists [Sample.pan; Sample.whisk], Sample.whisk.
    repeat split. simpl; auto.
Defined.

(** ** Further properties of the LLM helper and of the error responses *)

Lemma toLowerCase_truthy s : Str.truthy (Str.toLowerCase s) = Str.truthy s.
Proof. destruct s; reflexivity. Qed.

Lemma str_truthy_lower p : str_truthy p = Str.truthy (Str.toLowerCase (str_or p "")).
Proof.
  rewrite toLowerCase_truthy. destruct p as [s|]; [|reflexivity].
  cbn [str_truthy str_or]. destruct (Str.truthy s) eqn:E; [exact (eq_sym E) | reflexivity].
Qed.

Lemma callLLM_provider env env' world prompt context :
  LLM_API_KEY env = LLM_API_KEY env' ->
  LLM_MODEL env = LLM_MODEL env' ->
  Str.toLowerCase (str_or (LLM_PROVIDER env) "")
  = Str.toLowerCase (str_or (LLM_PROVIDER env') "") ->
  callLLM env world prompt context = callLLM env' world prompt context.
Proof.
  intros Hk Hm Hp. unfold callLLM.
  rewrite (str_truthy_lower (LLM_PROVIDER env)), Hk, Hm, Hp,
    <- (str_truthy_lower (LLM_PROVIDER env')).
  reflexivity.
Qed.

Lemma llmAttempt_provider env env' world message :
  LLM_API_KEY env = LLM_API_KEY env' ->
  LLM_MODEL env = LLM_MODEL env' ->
  Str.toLowerCase (str_or (LLM_PROVIDER env) "")
  = Str.toLowerCase (str_or (LLM_PROVIDER env') "") ->
  llmAttempt env world message = llmAttempt env' world message.
Proof.
  intros Hk Hm Hp. unfold llmAttempt, llmConfigured.
  rewrite (str_truthy_lower (LLM_PROVIDER env)), Hk, Hp,
    <- (str_truthy_lower (LLM_PROVIDER env')).
  destruct (str_truthy (LLM_API_KEY env') && str_truthy (LLM_PROVIDER env')); [|reflexivity].
  apply bind_ext. intros context.
  rewrite (callLLM_provider env env' world _ context Hk Hm Hp). reflexivity.
Qed.

(** X9.  The name of the provider counts without its case: two
    configurations with the same key and model whose provider names agree
    once lower-cased give the same response, and the same calls, on every
    message and every world. *)
Theorem provider_case_insensitive (env env' : Env) (world : World) (message : option string) :
  LLM_API_KEY env = LLM_API_KEY env' ->
  LLM_MODEL env = LLM_MODEL env' ->
  Str.toLowerCase (str_or (LLM_PROVIDER env) "")
  = Str.toLowerCase (str_or (LLM_PROVIDER env') "") ->
  chat env world message = chat env' world message.
Proof.
  intros Hk Hm Hp. unfold chat.
  rewrite (llmAttempt_provider env env' world (str_or message "") Hk Hm Hp).
  reflexivity.
Qed.

Lemma provider_case_insensitive_witness :
  chat Sample.env_openai (Sample.provider_world (Sample.openai_answer (JStr "Hi!"))) (Some "hello there")
  = chat {| LLM_API_KEY := Some "sk-test"; LLM_PROVIDER := Some "openai"; LLM_MODEL := None |}
         (Sample.provider_world (Sample.openai_answer (JStr "Hi!"))) (Some "hello there").
Proof.
  apply (provider_case_insensitive Sample.env_openai
           {| LLM_API_KEY := Some "sk-test"; LLM_PROVIDER := Some "openai"; LLM_MODEL := None |}
           (Sample.provider_world (Sample.openai_answer (JStr "Hi!"))) (Some "hello there"));
    vm_compute; reflexivity.
Defined.

(** X10.  For the providers openai and anthropic the key travels in a
    header only: the helper makes one request, whose method, URL and body
    are the same whatever the key, to the fixed endpoint of the provider,
    with the key in [Authorization] (after "Bearer ") or in [x-api-key]. *)
Theorem key_only_in_header (env env' : Env) (world : World) (prompt : string)
    (context : Context) :
  LLM_PROVIDER env = LLM_PROVIDER env' ->
  LLM_MODEL env = LLM_MODEL env' ->
  str_truthy (LLM_API_KEY env) = true ->
  str_truthy (LLM_API_KEY env') = true ->
  Str.toLowerCase (str_or (LLM_PROVIDER env) "") = "openai" \/
  Str.toLowerCase (str_or (LLM_PROVIDER env) "") = "anthropic" ->
  exists cfg cfg',
    trace (callLLM env world prompt context) = [LLMCall cfg] /\
    trace (callLLM env' world prompt context) = [LLMCall cfg'] /\
    method cfg = method cfg' /\ url cfg = url cfg' /\ data cfg = data cfg' /\
    map fst (headers cfg) = map fst (headers cfg') /\
    (url cfg = "https://api.openai.com/v1/chat/completions" /\
     In ("Authorization", "Bearer " ++ str_or (LLM_API_KEY env) "") (headers cfg) \/
     url cfg = "https://api.anthropic.com/v1/messages" /\
     In ("x-api-key", str_or (LLM_API_KEY env) "") (headers cfg)).
Proof.
  intros Hp Hm Hk Hk' Hprov.
  assert (Hpt : str_truthy (LLM_PROVIDER env) = true).
  { rewrite str_truthy_lower. destruct Hprov as [-> | ->]; reflexivity. }
  assert (Hpt' : str_truthy (LLM_PROVIDER env') = true) by (rewrite <- Hp; exact Hpt).
  unfold callLLM. rewrite Hk, Hk', Hpt, Hpt', <- Hp, <- Hm. cbn [negb orb].
  destruct Hprov as [-> | ->]; unfold requestConfigFor;
    cbn [String.eqb Ascii.eqb Bool.eqb];
    unfold request, bind, try_catch, ret, trace; cbn [fst];
    do 2 eexists;
    (split; [destruct (axios world _); reflexivity|]);
    (split; [destruct (axios world _); reflexivity|]);
    repeat (split; [reflexivity|]).
  - left. split; [reflexivity | simpl; auto].
  - right. split; [reflexivity | simpl; auto].
Qed.

Lemma key_only_in_header_witness :
  exists cfg cfg',
    trace (callLLM Sample.env_openai (Sample.provider_world (Sample.openai_answer (JStr "Hi!"))) "hello" baseContext) = [LLMCall cfg] /\
    trace (callLLM {| LLM_API_KEY := Some "another-key";
                      LLM_PROVIDER := LLM_PROVIDER Sample.env_openai;
                      LLM_MODEL := LLM_MODEL Sample.env_openai |}
                   (Sample.provider_world (Sample.openai_answer (JStr "Hi!"))) "hello" baseContext) = [LLMCall cfg'] /\
    url cfg = url cfg' /\ data cfg = data cfg'.
Proof.
  destruct (key_only_in_header Sample.env_openai
              {| LLM_API_KEY := Some "another-key";
                 LLM_PROVIDER := LLM_PROVIDER Sample.env_openai;
                 LLM_MODEL := LLM_MODEL Sample.env_openai |}
              (Sample.provider_world (Sample.openai_answer (JStr "Hi!"))) "hello" baseContext)
    as (cfg & cfg' & H1 & H2 & _ & H3 & H4 & _).
  - reflexivity.
  - reflexivity.
  - reflexivity.
  - reflexivity.
  - left. vm_compute; reflexivity.
  - exists cfg, cfg'. repeat split; assumption.
Defined.

(** X11.  The error handler computes the status of the error, 500 when
    the error has none (or 0), so never 0.  When Node writes that status
    (100 to 999) the handler answers with it, the [status] of the body is
    that same status, and the message is the one of the error, or
    'Internal Server Error' when that is empty, so never empty.  When
    Node refuses the status the handler sends no response and Node's
    error leaves it.  A response of the handler always has a status that
    Node writes. *)
Theorem errorHandler_response (err : JsError) :
  let s := status_or_500 (error_status err) in
  s <> 0 /\
  (error_status err = None -> s = 500) /\
  (forall z, error_status err = Some z -> z <> 0 -> s = z) /\
  (valid_status s = true ->
   exists m,
     errorHandler err
     = ([], Returned {| status := s;
                        body := JObj [("error", JObj [("message", JStr m);
                                                      ("status", integer s)])] |}) /\
     m <> "" /\ (error_message err <> "" -> m = error_message err)) /\
  (valid_status (to_int32 s) = false ->
   errorHandler err = ([], Thrown (invalidStatusCode s))) /\
  (forall t r, errorHandler err = (t, Returned r) ->
     valid_status (status r) = true /\ status r = to_int32 s).
Proof.
  cbv zeta. unfold errorHandler. repeat split.
  - unfold status_or_500. destruct (error_status err) as [z|]; [|discriminate].
    destruct (z =? 0) eqn:E; [discriminate | apply Z.eqb_neq; exact E].
  - intros ->. reflexivity.
  - intros z -> Hz. unfold status_or_500. apply Z.eqb_neq in Hz. rewrite Hz. reflexivity.
  - intros Hv. eexists. split; [apply respond_valid; exact Hv|]. cbn [str_or]. split.
    + destruct (error_message err); cbn [Str.truthy]; discriminate.
    + destruct (error_message err); [congruence | reflexivity].
  - intros Hv. apply respond_invalid. exact Hv.
  - apply respond_returned in H as (_ & Hv & _). exact Hv.
  - apply respond_returned in H as (_ & _ & Hs & _). exact Hs.
Qed.

Lemma errorHandler_response_witness :
  exists m,
    errorHandler Sample.networkError
    = ([], Returned {| status := 500;
                       body := JObj [("error", JObj [("message", JStr m);
                                                     ("status", integer 500)])] |}).
Proof.
  destruct (errorHandler_response Sample.networkError) as (_ & _ & _ & H & _).
  destruct (H eq_refl) as (m & Hm & _). exists m. exact Hm.
Defined.

(** X12.  The [catch] of the chat and products handlers, on an error that
    carries the response of the shop, computes the status of that
    response, 500 when it has none (or 0), so never 0.  When Node writes
    that status the [catch] answers with it; the body's error is typed
    [ShopifyAPIError] and has a message; its [status] is the one of the
    shop's response, and is left out when the shop's response has none,
    although the status answered is then 500.  When Node refuses the
    status the [catch] sends no response and Node's error leaves the
    handler. *)
Theorem upstream_error_response (error : JsError) (response : ErrorResponse) :
  error_response error = Some response ->
  let s := status_or_500 (response_status response) in
  s <> 0 /\
  (response_status response = None -> s = 500) /\
  (forall z, response_status response = Some z -> z <> 0 -> s = z) /\
  (valid_status s = true ->
   exists fields,
     chatErrorResponse error
     = ([], Returned {| status := s; body := JObj [("error", JObj fields)] |}) /\
     lookup "type" fields = Some (JStr "ShopifyAPIError") /\
     (exists m, lookup "message" fields = Some m) /\
     lookup "status" fields = option_map integer (response_status response)) /\
  (valid_status (to_int32 s) = false ->
   chatErrorResponse error = ([], Thrown (invalidStatusCode s))).
Proof.
  intros Hr. cbv zeta. unfold chatErrorResponse. rewrite Hr.
  assert (Hm : exists m,
             (if truthy (response_body_errors response)
              then response_body_errors response
              else Some (JStr (error_message error))) = Some m).
  { destruct (response_body_errors response) as [j|]; cbn [truthy]; [|eauto].
    destruct (json_truthy j); eauto. }
  destruct Hm as (m & Hm). rewrite Hm. cbn [object].
  split; [|split; [|split; [|split]]].
  - unfold status_or_500. destruct (response_status response) as [z|]; [|discriminate].
    destruct (z =? 0) eqn:E; [discriminate | apply Z.eqb_neq; exact E].
  - intros ->. reflexivity.
  - intros z -> Hz. unfold status_or_500. apply Z.eqb_neq in Hz. rewrite Hz. reflexivity.
  - intros Hv. eexists. split; [apply respond_valid; exact Hv|].
    destruct (response_status response); cbn [option_map object lookup String.eqb Ascii.eqb
      Bool.eqb]; repeat split; eauto.
  - intros Hv. apply respond_invalid. exact Hv.
Qed.

Lemma upstream_error_response_witness :
  exists fields,
    chatErrorResponse Sample.unavailable
    = ([], Returned {| status := 503; body := JObj [("error", JObj fields)] |}) /\
    lookup "status" fields = Some (integer 503).
Proof.
  destruct (upstream_error_response Sample.unavailable
              {| response_status := Some 503;
                 response_body_errors := Some (JStr "Service Unavailable") |} eq_refl)
    as (_ & _ & _ & H & _).
  destruct (H eq_refl) as (fields & Hc & _ & _ & Hs). exists fields. split; assumption.
Defined.

(** ** The settings endpoints *)

Lemma assign_truthy current value :
  str_truthy (assign current value) = str_truthy value || str_truthy current.
Proof. unfold assign. destruct (str_truthy value) eqn:E; [rewrite E|]; reflexivity. Qed.

Lemma assign_twice current value : assign (assign current value) value = assign current value.
Proof. unfold assign. destruct (str_truthy value); reflexivity. Qed.

Lemma masked_truthy o o' : str_truthy o = str_truthy o' -> masked o = masked o'.
Proof. unfold masked. intros ->. reflexivity. Qed.

(** X13.  The settings views show the key masked: the response of
    [GET /api/settings], and the response of [POST /api/settings] to any
    body, are the same for two configurations that differ only in the
    value of a key that both have.  The key shown is the fixed mask when
    there is a key and [null] when there is none. *)
Theorem settings_mask_key (env env' : Env) :
  LLM_PROVIDER env = LLM_PROVIDER env' ->
  LLM_MODEL env = LLM_MODEL env' ->
  str_truthy (LLM_API_KEY env) = str_truthy (LLM_API_KEY env') ->
  getSettings env = getSettings env' /\
  (forall b, snd (postSettings env b) = snd (postSettings env' b)) /\
  opt_prop (Some (body (getSettings env))) "llmApiKey"
  = Some (if str_truthy (LLM_API_KEY env) then JStr "********" else JNull).
Proof.
  intros Hp Hm Hk. split; [|split].
  - unfold getSettings, settingsView. rewrite Hp, Hm, (masked_truthy _ _ Hk). reflexivity.
  - intros b. unfold postSettings, updateEnv, settingsView.
    cbn [snd LLM_API_KEY LLM_PROVIDER LLM_MODEL]. rewrite Hp, Hm.
    rewrite (masked_truthy (assign (LLM_API_KEY env) (llmApiKey b))
               (assign (LLM_API_KEY env') (llmApiKey b)));
      [reflexivity|].
    rewrite !assign_truthy, Hk. reflexivity.
  - reflexivity.
Qed.

Lemma settings_mask_key_witness :
  getSettings Sample.env_openai
  = getSettings {| LLM_API_KEY := Some "another-key";
                   LLM_PROVIDER := LLM_PROVIDER Sample.env_openai;
                   LLM_MODEL := LLM_MODEL Sample.env_openai |}.
Proof.
  apply (settings_mask_key Sample.env_openai
           {| LLM_API_KEY := Some "another-key";
              LLM_PROVIDER := LLM_PROVIDER Sample.env_openai;
              LLM_MODEL := LLM_MODEL Sample.env_openai |});
    reflexivity.
Defined.

(** X14.  [POST /api/settings] sets and never unsets: a field that is
    absent or empty leaves its variable as it was, a configured server
    stays configured, a body with a provider and a key configures the
    server, posting the same body again changes nothing more, and the
    settings of the response are the ones [GET /api/settings] shows
    next. *)
Theorem settings_set_never_unset (env : Env) (b : SettingsBody) :
  let env' := fst (postSettings env b) in
  (str_truthy (llmProvider b) = false -> LLM_PROVIDER env' = LLM_PROVIDER env) /\
  (str_truthy (llmApiKey b) = false -> LLM_API_KEY env' = LLM_API_KEY env) /\
  (str_truthy (llmModel b) = false -> LLM_MODEL env' = LLM_MODEL env) /\
  (llmConfigured env = true -> llmConfigured env' = true) /\
  (str_truthy (llmProvider b) = true -> str_truthy (llmApiKey b) = true ->
   llmConfigured env' = true) /\
  fst (postSettings env' b) = env' /\
  opt_prop (Some (body (snd (postSettings env b)))) "settings"
  = Some (body (getSettings env')).
Proof.
  cbv zeta. unfold postSettings, updateEnv, llmConfigured.
  cbn [fst snd LLM_API_KEY LLM_PROVIDER LLM_MODEL].
  repeat split.
  - intros H. unfold assign. rewrite H. reflexivity.
  - intros H. unfold assign. rewrite H. reflexivity.
  - intros H. unfold assign. rewrite H. reflexivity.
  - intros H. apply andb_prop in H as [Hk Hp].
    rewrite !assign_truthy, Hk, Hp, !orb_true_r. reflexivity.
  - intros Hp Hk. rewrite !assign_truthy, Hk, Hp. reflexivity.
  - rewrite !assign_twice. reflexivity.
Qed.

Lemma settings_set_never_unset_witness :
  llmConfigured
    (fst (postSettings Sample.env_none
            {| llmProvider := Some "gemini"; llmApiKey := Some "g-key"; llmModel := None |}))
  = true.
Proof.
  destruct (settings_set_never_unset Sample.env_none
              {| llmProvider := Some "gemini"; llmApiKey := Some "g-key"; llmModel := None |})
    as (_ & _ & _ & _ & H & _).
  apply H; reflexivity.
Defined.

(** ** The routes *)

Lemma dispatch_stack req :
  dispatch stack req
  = if method_eqb GET (req_method req) && path_matches "/api/health" (req_path req)
    then Some HealthEndpoint
    else if method_eqb GET (req_method req) && path_matches "/api/test-connection" (req_path req)
    then Some TestConnectionEndpoint
    else if method_eqb POST (req_method req) && path_matches "/api/chat" (req_path req)
    then Some ChatEndpoint
    else if method_eqb GET (req_method req) && path_matches "/api/products" (req_path req)
    then Some ProductsEndpoint
    else Some NotFoundHandler.
Proof.
  unfold stack. cbn [dispatch layer_matches].
  repeat match goal with |- context [if ?c then Some _ else None] => destruct c end;
    reflexivity.
Qed.

(** X15.  A request that is for none of the four routes registered before
    the catch-all handler is answered 404 "Route not found", with no call
    to the shop or to a provider, and leaves the configuration as it
    is. *)
Theorem unrouted_request_not_found (env : Env) (world : World) (admin : Admin)
    (now : string) (req : Request) :
  routed req = false ->
  serve env world admin now req = Some (env, ([], Returned notFound)).
Proof.
  unfold routed, routes. cbn [existsb fst snd]. intros H.
  repeat (apply orb_false_elim in H as [? H]).
  unfold serve. rewrite dispatch_stack.
  repeat match goal with Hc : _ && _ = false |- _ => rewrite Hc; clear Hc end.
  reflexivity.
Qed.

Lemma unrouted_request_not_found_witness :
  serve Sample.env_none Sample.kitchen_shop
    {| get_shop := inl Sample.networkError; get_samples := inl Sample.networkError;
       get_products := inl Sample.networkError |}
    "2024-01-01T00:00:00.000Z"
    {| req_method := GET; req_path := "/api/chat"; req_message := Some "hello";
       req_settings := {| llmProvider := None; llmApiKey := None; llmModel := None |} |}
  = Some (Sample.env_none, ([], Returned notFound)).
Proof.
  apply unrouted_request_not_found. vm_compute; reflexivity.
Defined.

Lemma path_settings_unrouted req :
  path_matches "/api/settings" (req_path req) = true -> routed req = false.
Proof.
  unfold routed, routes, path_matches. cbn [existsb fst snd]. intros H.
  apply orb_prop in H as [H|H]; apply String.eqb_eq in H; rewrite H;
    cbn [String.eqb Ascii.eqb Bool.eqb String.append orb andb];
    rewrite !andb_false_r; reflexivity.
Qed.

(** X16.  The two settings routes are registered after the catch-all
    handler and are never reached: no request is dispatched to them, a
    request for the path [/api/settings] is answered 404 whatever its
    method and body, and no request changes the configuration of the
    server. *)
Theorem settings_routes_unreachable (env : Env) (world : World) (admin : Admin)
    (now : string) (req : Request) :
  dispatch stack req <> Some PostSettingsEndpoint /\
  dispatch stack req <> Some GetSettingsEndpoint /\
  (forall env' m, serve env world admin now req = Some (env', m) -> env' = env) /\
  (path_matches "/api/settings" (req_path req) = true ->
   serve env world admin now req = Some (env, ([], Returned notFound))).
Proof.
  assert (Hd : dispatch stack req <> Some PostSettingsEndpoint /\
               dispatch stack req <> Some GetSettingsEndpoint).
  { rewrite dispatch_stack.
    repeat match goal with |- context [if ?c then _ else _] => destruct c end;
      split; discriminate. }
  destruct Hd as [Hpost Hget]. repeat split; try assumption.
  - intros env' m. unfold serve.
    destruct (dispatch stack req) as [[]|]; try congruence.
  - intros H. unfold serve. rewrite dispatch_stack.
    pose proof (path_settings_unrouted req H) as Hr.
    unfold routed, routes in Hr. cbn [existsb fst snd] in Hr.
    repeat (apply orb_false_elim in Hr as [? Hr]).
    repeat match goal with Hc : _ && _ = false |- _ => rewrite Hc; clear Hc end.
    reflexivity.
Qed.

Lemma settings_routes_unreachable_witness :
  serve Sample.env_none Sample.kitchen_shop
    {| get_shop := inl Sample.networkError; get_samples := inl Sample.networkError;
       get_products := inl Sample.networkError |}
    "2024-01-01T00:00:00.000Z"
    {| req_method := POST; req_path := "/api/settings"; req_message := None;
       req_settings := {| llmProvider := Some "openai"; llmApiKey := Some "sk-test";
                          llmModel := None |} |}
  = Some (Sample.env_none, ([], Returned notFound)).
Proof.
  refine (proj2 (proj2 (proj2 (settings_routes_unreachable _ _ _ _ _))) _).
  vm_compute; reflexivity.
Defined.

(** ** The connection test and the products endpoint *)

Lemma respond_answers_or_refused r : answers_or_refused (respond r).
Proof.
  destruct (respond r) as [t [r'|e]] eqn:Hr.
  - apply respond_returned in Hr as (_ & Hv & _). left. eauto.
  - apply respond_thrown in Hr as (_ & -> & Hv). right. eauto.
Qed.

Lemma connectionErrorResponse_respond e :
  exists b, connectionErrorResponse e = respond {| status := errorStatus e; body := b |}.
Proof.
  unfold connectionErrorResponse, errorHandler, errorStatus.
  destruct (error_response e); eexists; reflexivity.
Qed.

Lemma testConnection_answers_or_refused admin : answers_or_refused (testConnection admin).
Proof.
  unfold testConnection, ask, bind, try_catch, ret, throw.
  destruct (get_shop admin) as [e|shop].
  - destruct (connectionErrorResponse_respond e) as (b & ->).
    pose proof (respond_answers_or_refused {| status := errorStatus e; body := b |}) as H.
    destruct (respond _) as [t o]. destruct H as [(? & ? & E & ?) | (? & ? & E & ?)];
      inversion E; subst; [left | right]; eauto.
  - destruct (get_samples admin) as [e|[products|]].
    + destruct (connectionErrorResponse_respond e) as (b & ->).
      pose proof (respond_answers_or_refused {| status := errorStatus e; body := b |}) as H.
      destruct (respond _) as [t o]. destruct H as [(? & ? & E & ?) | (? & ? & E & ?)];
        inversion E; subst; [left | right]; eauto.
    + left. do 2 eexists. split; reflexivity.
    + left. do 2 eexists. split; reflexivity.
Qed.

Lemma productsEndpoint_answers_or_refused admin :
  answers_or_refused (productsEndpoint admin).
Proof.
  unfold productsEndpoint, ask, bind, try_catch, ret.
  destruct (get_products admin) as [e|products].
  - destruct (chatErrorResponse_respond e) as (fields & ->).
    pose proof (respond_answers_or_refused
                  {| status := errorStatus e; body := JObj [("error", JObj fields)] |}) as H.
    destruct (respond _) as [t o]. destruct H as [(? & ? & E & ?) | (? & ? & E & ?)];
      inversion E; subst; [left | right]; eauto.
  - left. do 2 eexists. split; reflexivity.
Qed.

Lemma chat_answers_or_refused env world message :
  answers_or_refused (chat env world message).
Proof.
  destruct (chat_outcome env world message)
    as (t & [(r & Hc & Hr) | (req & e & _ & Hc & _ & _ & Hv)]).
  - left. exists t, r. split; [exact Hc|].
    destruct Hr as [[_ ->] | [[_ (answer & -> & _)] |
                              [_ (req & e & fields & _ & _ & Hv & _)]]];
      [reflexivity | reflexivity | exact Hv].
  - right. eauto.
Qed.

(** X17.  The connection test asks for the shop and then for three
    products.  When the shop lookup fails the products are not asked for,
    and the [catch] answers with the status of the error, or sends no
    response when Node refuses that status.  When both lookups answer,
    the response has status 200, counts the products returned, lists as
    many samples, and carries the shop, a shop that is [undefined] being
    left out.  When the second answer has no products, the response is
    the one of the error handler, with status 500. *)
Theorem testConnection_outcomes (admin : Admin) :
  (forall e, get_shop admin = inl e ->
     testConnection admin = ([CatalogCall shopRequest], snd (connectionErrorResponse e)) /\
     exists b,
       connectionErrorResponse e = respond {| status := errorStatus e; body := b |}) /\
  (forall shop products,
     get_shop admin = inr shop -> get_samples admin = inr (Some products) ->
     exists r,
       testConnection admin
       = ([CatalogCall shopRequest; CatalogCall samplesRequest], Returned r) /\
       status r = 200 /\
       opt_prop (Some (body r)) "shop" = shop /\
       opt_prop (Some (body r)) "productCount"
       = Some (integer (Z.of_nat (List.length products))) /\
       opt_prop (Some (body r)) "sampleProducts" = Some (JArr (map sampleJson products))) /\
  (forall shop,
     get_shop admin = inr shop -> get_samples admin = inr None ->
     testConnection admin
     = ([CatalogCall shopRequest; CatalogCall samplesRequest],
        Returned {| status := 500;
                    body := JObj [("error", JObj [
                      ("message",
                       JStr "Cannot read properties of undefined (reading 'length')");
                      ("status", integer 500)])] |})).
Proof.
  split; [|split].
  - intros e He. split; [|apply connectionErrorResponse_respond].
    unfold testConnection, ask, bind, try_catch. rewrite He.
    destruct (connectionErrorResponse_respond e) as (b & ->).
    pose proof (respond_trace {| status := errorStatus e; body := b |}) as Ht.
    destruct (respond _) as [t o]. cbn [fst snd] in *. subst t. reflexivity.
  - unfold testConnection, ask, bind, try_catch, ret, throw.
    intros shop products -> ->. eexists. split; [reflexivity|].
    destruct shop; repeat split; reflexivity.
  - unfold testConnection, ask, bind, try_catch, ret, throw.
    intros shop -> ->. reflexivity.
Qed.

Lemma testConnection_outcomes_witness :
  testConnection {| get_shop := inl Sample.unavailable;
                    get_samples := inr (Some []);
                    get_products := inl Sample.networkError |}
  = ([CatalogCall shopRequest], snd (connectionErrorResponse Sample.unavailable)).
Proof.
  refine (proj1 (proj1 (testConnection_outcomes _) Sample.unavailable _)). reflexivity.
Defined.

(** X18.  Every request that reaches the routes is taken by one handler,
    which leaves the configuration as it was, and that handler ends in
    one of two ways: with a response whose status Node writes (100 to
    999), or with no response, Node having refused the status an error
    of the shop carried.  No other error leaves a handler. *)
Theorem every_request_handled (env : Env) (world : World) (admin : Admin)
    (now : string) (req : Request) :
  exists m, serve env world admin now req = Some (env, m) /\ answers_or_refused m.
Proof.
  unfold serve. rewrite dispatch_stack.
  repeat match goal with |- context [if ?c then Some _ else _] => destruct c end;
    eexists; (split; [reflexivity|]).
  - left. do 2 eexists. split; reflexivity.
  - apply testConnection_answers_or_refused.
  - apply chat_answers_or_refused.
  - apply productsEndpoint_answers_or_refused.
  - left. do 2 eexists. split; reflexivity.
Qed.

(** ** The chat widget *)

Lemma withoutLoading_sent prev m :
  Widget.withoutLoading ((prev ++ [Widget.userMessage m]) ++ [Widget.loadingMessage])
  = (Widget.withoutLoading prev ++ [Widget.userMessage m])%list.
Proof.
  unfold Widget.withoutLoading. rewrite !filter_app. cbn [filter Widget.loading
    Widget.userMessage Widget.loadingMessage negb]. rewrite app_nil_r. reflexivity.
Qed.

Lemma withoutLoading_clean prev :
  Forall (fun m => Widget.loading m = false) (Widget.withoutLoading prev).
Proof.
  unfold Widget.withoutLoading. apply Forall_forall. intros m Hin.
  apply filter_In in Hin as [_ H]. destruct (Widget.loading m); [discriminate | reflexivity].
Qed.

Lemma withoutLoading_id prev :
  Forall (fun m => Widget.loading m = false) prev -> Widget.withoutLoading prev = prev.
Proof.
  unfold Widget.withoutLoading. induction 1 as [|m prev Hm _ IH]; [reflexivity|].
  cbn [filter]. rewrite Hm, IH. reflexivity.
Qed.

Lemma not_blank_truthy input :
  Widget.is_blank input = false -> str_truthy (Some input) = true.
Proof. destruct input; [discriminate | reflexivity]. Qed.

(** X19.  The widget posts nothing for an input that is blank, and leaves
    its state as it is; for any other input it posts once, the input as
    typed (not trimmed), and empties the input field. *)
Theorem widget_posts_once (post : string -> Widget.Answer) (s s' : Widget.State)
    (posted : list string) :
  Widget.sendMessage post s = Some (s', posted) ->
  (Widget.is_blank (Widget.input s) = true /\ s' = s /\ posted = []) \/
  (Widget.is_blank (Widget.input s) = false /\ posted = [Widget.input s] /\
   Widget.input s' = "" /\ Widget.saveHistory s' = Widget.saveHistory s).
Proof.
  unfold Widget.sendMessage. destruct (Widget.is_blank (Widget.input s)).
  - intros H. inversion H; subst. left. repeat split.
  - destruct (Widget.readReply (post (Widget.input s))); intros H; inversion H; subst;
      right; repeat split.
Qed.

Lemma widget_posts_once_witness :
  Widget.is_blank "  hi " = false /\
  exists s',
    Widget.sendMessage (fun _ => Widget.Unreachable)
      {| Widget.messages := []; Widget.input := "  hi ";
         Widget.saveHistory := true; Widget.chatHistory := None |}
    = Some (s', ["  hi "]).
Proof.
  destruct (Widget.sendMessage (fun _ => Widget.Unreachable)
              {| Widget.messages := []; Widget.input := "  hi ";
                 Widget.saveHistory := true; Widget.chatHistory := None |})
    as [[s' posted]|] eqn:E; [|discriminate].
  destruct (widget_posts_once _ _ s' posted E) as [[Hb _] | [Hb [Hp _]]].
  - discriminate.
  - split; [exact Hb|]. exists s'. rewrite Hp. reflexivity.
Defined.

(** X20.  After a send no loading placeholder is left among the
    messages: those that were there before are removed as well.  The
    messages are the earlier ones without placeholders, the user's
    message, and last the reply of the server, or the apology when the
    request was rejected. *)
Theorem widget_messages_after_send (post : string -> Widget.Answer) (s s' : Widget.State)
    (posted : list string) :
  Widget.is_blank (Widget.input s) = false ->
  Widget.sendMessage post s = Some (s', posted) ->
  Forall (fun m => Widget.loading m = false) (Widget.messages s') /\
  exists last,
    Widget.messages s'
    = (Widget.withoutLoading (Widget.messages s)
       ++ [Widget.userMessage (Widget.input s); last])%list /\
    ((Widget.readReply (post (Widget.input s)) = Widget.Rejected /\
      last = Widget.errorMessage) \/
     (exists reply, Widget.readReply (post (Widget.input s)) = Widget.Reply reply /\
                    last = Widget.botMessage reply)).
Proof.
  intros Hb. unfold Widget.sendMessage. rewrite Hb.
  destruct (Widget.readReply (post (Widget.input s))) as [|reply|]; intros H;
    inversion H; subst; cbn [Widget.messages]; rewrite withoutLoading_sent, <- app_assoc;
    cbn [app].
  - split.
    + apply Forall_app. split; [apply withoutLoading_clean|]. repeat constructor.
    + exists Widget.errorMessage. split; [reflexivity|]. left. split; reflexivity.
  - split.
    + apply Forall_app. split; [apply withoutLoading_clean|]. repeat constructor.
    + exists (Widget.botMessage reply). split; [reflexivity|]. right. exists reply.
      split; reflexivity.
Qed.

Lemma widget_messages_after_send_witness :
  Forall (fun m => Widget.loading m = false)
    [Widget.userMessage "hi"; Widget.botMessage (Some (JStr "Hello!"))] /\
  exists last,
    [Widget.userMessage "hi"; Widget.botMessage (Some (JStr "Hello!"))]
    = (Widget.withoutLoading [Widget.loadingMessage] ++ [Widget.userMessage "hi"; last])%list /\
    ((Widget.readReply (Widget.Responded 200 (Some (JObj [("reply", JStr "Hello!")])))
      = Widget.Rejected /\ last = Widget.errorMessage) \/
     (exists reply,
        Widget.readReply (Widget.Responded 200 (Some (JObj [("reply", JStr "Hello!")])))
        = Widget.Reply reply /\ last = Widget.botMessage reply)).
Proof.
  exact (widget_messages_after_send
           (fun _ => Widget.Responded 200 (Some (JObj [("reply", JStr "Hello!")])))
           {| Widget.messages := [Widget.loadingMessage]; Widget.input := "hi";
              Widget.saveHistory := false; Widget.chatHistory := None |}
           {| Widget.messages :=
                [Widget.userMessage "hi"; Widget.botMessage (Some (JStr "Hello!"))];
              Widget.input := EmptyString;
              Widget.saveHistory := false; Widget.chatHistory := None |}
           ["hi"] eq_refl eq_refl).
Defined.

(** X21.  The stored history changes only on a reply read while saving
    is enabled: it is then the earlier messages, the user's message and
    the reply, which is what the widget shows when no placeholder was
    among the earlier messages.  With saving disabled, or when the request
    is rejected, the stored history is left as it was, so an exchange that
    ended in the apology is never stored. *)
Theorem widget_history (post : string -> Widget.Answer) (s s' : Widget.State)
    (posted : list string) :
  Widget.sendMessage post s = Some (s', posted) ->
  (Widget.saveHistory s = false -> Widget.chatHistory s' = Widget.chatHistory s) /\
  (Widget.readReply (post (Widget.input s)) = Widget.Rejected ->
   Widget.chatHistory s' = Widget.chatHistory s) /\
  (forall reply,
     Widget.is_blank (Widget.input s) = false ->
     Widget.saveHistory s = true ->
     Widget.readReply (post (Widget.input s)) = Widget.Reply reply ->
     Widget.chatHistory s'
     = Some (Widget.messages s
             ++ [Widget.userMessage (Widget.input s); Widget.botMessage reply])%list /\
     (Forall (fun m => Widget.loading m = false) (Widget.messages s) ->
      Widget.chatHistory s' = Some (Widget.messages s'))).
Proof.
  unfold Widget.sendMessage. destruct (Widget.is_blank (Widget.input s)).
  { intros H. inversion H; subst. repeat split; try reflexivity; discriminate. }
  destruct (Widget.readReply (post (Widget.input s))) as [|reply|]; intros H;
    inversion H; subst; cbn [Widget.chatHistory Widget.messages].
  - repeat split; try reflexivity; discriminate.
  - split; [intros ->; reflexivity|]. split; [discriminate|].
    intros reply' _ Hs Hr. inversion Hr; subst. rewrite Hs. split; [reflexivity|].
    intros Hclean. rewrite withoutLoading_sent, (withoutLoading_id _ Hclean), <- app_assoc.
    reflexivity.
Qed.

Lemma widget_history_witness :
  exists s',
    Widget.sendMessage (fun _ => Widget.Responded 503 (Some (JObj [("error", JNull)])))
      {| Widget.messages := []; Widget.input := "hi";
         Widget.saveHistory := true; Widget.chatHistory := None |}
    = Some (s', ["hi"]) /\
    Widget.chatHistory s' = None.
Proof.
  eexists. split; [reflexivity|].
  refine (proj1 (proj2 (widget_history
                          (fun _ => Widget.Responded 503 (Some (JObj [("error", JNull)])))
                          {| Widget.messages := []; Widget.input := "hi";
                             Widget.saveHistory := true; Widget.chatHistory := None |}
                          _ ["hi"] eq_refl)) _).
  reflexivity.
Defined.

Lemma shows_reply post s reply :
  Widget.is_blank (Widget.input s) = false ->
  Widget.readReply (post (Widget.input s)) = Widget.Reply reply ->
  shows s (Widget.botMessage reply) (Widget.sendMessage post s).
Proof.
  intros Hb Hr. unfold shows, Widget.sendMessage. rewrite Hb, Hr.
  eexists. split; [reflexivity|]. cbn [Widget.messages].
  rewrite withoutLoading_sent, <- app_assoc. reflexivity.
Qed.

Lemma shows_apology post s :
  Widget.is_blank (Widget.input s) = false ->
  Widget.readReply (post (Widget.input s)) = Widget.Rejected ->
  shows s Widget.errorMessage (Widget.sendMessage post s).
Proof.
  intros Hb Hr. unfold shows, Widget.sendMessage. rewrite Hb, Hr.
  eexists. split; [reflexivity|]. cbn [Widget.messages].
  rewrite withoutLoading_sent, <- app_assoc. reflexivity.
Qed.

Lemma lookup_wire_error fields :
  lookup "reply" (map (fun kv => (fst kv, Widget.wire (snd kv))) [("error", JObj fields)])
  = None.
Proof. reflexivity. Qed.

(** X22.  The widget against the chat handler, for an input that is not
    blank.  The handler never answers 'Message is required'.  The exchange
    ends in one of three ways.  The handler answers a reply: the widget
    shows it as it travels, unless it holds an object, which breaks the
    widget; with no LLM configured the reply is a text and is always
    shown.  The handler answers an error: the widget shows the apology,
    or an empty message when the status is in the range 200 to 299.  The
    handler sends no response: the widget shows the apology. *)
Theorem widget_with_backend (env : Env) (world : World) (s : Widget.State) :
  Widget.is_blank (Widget.input s) = false ->
  let message := Some (Widget.input s) in
  let result := Widget.sendMessage (Widget.backend env world) s in
  snd (chat env world message)
  <> Returned {| status := 400; body := JObj [("error", JStr "Message is required")] |} /\
  ((exists t answer,
      chat env world message = (t, Returned (res_json (JObj [("reply", answer)]))) /\
      json_truthy answer = true /\
      (Widget.renderable (Widget.wire answer) = true ->
       shows s (Widget.botMessage (Some (Widget.wire answer))) result) /\
      (Widget.renderable (Widget.wire answer) = false -> result = None) /\
      (llmConfigured env = false -> Widget.renderable (Widget.wire answer) = true)) \/
   (exists t r fields,
      chat env world message = (t, Returned r) /\
      body r = JObj [("error", JObj fields)] /\
      shows s (if is_2xx (status r) then Widget.botMessage None else Widget.errorMessage)
        result) \/
   (exists t e,
      chat env world message = (t, Thrown e) /\ shows s Widget.errorMessage result)).
Proof.
  intros Hb. cbv zeta. pose proof (not_blank_truthy _ Hb) as Ht.
  destruct (chat_outcome env world (Some (Widget.input s)))
    as (t & [(r & Hc & Hr) | (req & e & _ & Hc & _)]).
  - destruct Hr as [[Hf _] | [[_ (answer & -> & Ha & Htext)] |
                              [_ (req & e & fields & _ & _ & _ & _ & Hbody)]]].
    + congruence.
    + split; [rewrite Hc; discriminate|]. left. exists t, answer.
      split; [exact Hc|]. split; [exact Ha|].
      assert (Hread : Widget.readReply (Widget.backend env world (Widget.input s))
                      = if Widget.renderable (Widget.wire answer)
                        then Widget.Reply (Some (Widget.wire answer)) else Widget.Broken).
      { unfold Widget.backend. rewrite Hc. reflexivity. }
      split; [|split].
      * intros Hren. rewrite Hren in Hread. apply (shows_reply _ _ _ Hb Hread).
      * intros Hren. rewrite Hren in Hread. unfold Widget.sendMessage.
        rewrite Hb, Hread. reflexivity.
      * intros Hl. destruct (Htext Hl) as (text & ->). reflexivity.
    + split.
      { rewrite Hc. cbn [snd]. intros E. inversion E; subst. discriminate. }
      right; left. exists t, r, fields. split; [exact Hc|]. split; [exact Hbody|].
      assert (Hread : Widget.readReply (Widget.backend env world (Widget.input s))
                      = if is_2xx (status r) then Widget.Reply None else Widget.Rejected).
      { unfold Widget.backend. rewrite Hc. cbn [snd]. rewrite Hbody.
        unfold Widget.readReply, is_2xx. cbn [Widget.wire]. rewrite lookup_wire_error.
        reflexivity. }
      destruct (is_2xx (status r)).
      * apply (shows_reply _ _ _ Hb Hread).
      * apply (shows_apology _ _ Hb Hread).
  - split; [rewrite Hc; discriminate|]. right; right. do 2 eexists.
    split; [exact Hc|]. apply (shows_apology _ _ Hb).
    unfold Widget.backend. rewrite Hc. reflexivity.
Qed.

Lemma widget_with_backend_witness :
  exists s',
    Widget.sendMessage (Widget.backend Sample.env_none Sample.shop_down)
      {| Widget.messages := []; Widget.input := "show me your products";
         Widget.saveHistory := true; Widget.chatHistory := None |}
    = Some (s', ["show me your products"]).
Proof.
  destruct (widget_with_backend Sample.env_none Sample.shop_down
              {| Widget.messages := []; Widget.input := "show me your products";
                 Widget.saveHistory := true; Widget.chatHistory := None |})
    as (_ & [(t & answer & _ & _ & Hs & _ & Hl) | [(t & r & fields & _ & _ & Hs) |
                                                   (t & e & _ & Hs)]]).
  - vm_compute; reflexivity.
  - destruct (Hs (Hl eq_refl)) as (s' & H & _). exists s'. exact H.
  - destruct Hs as (s' & H & _). exists s'. exact H.
  - destruct Hs as (s' & H & _). exists s'. exact H.
Defined.

(** A provider whose reply is an object breaks the widget. *)
Example widget_breaks_on_object_reply :
  Widget.sendMessage
    (Widget.backend Sample.env_openai
       (Sample.provider_world (Sample.openai_answer (JObj [("text", JStr "Hello!")]))))
    {| Widget.messages := []; Widget.input := "hello";
       Widget.saveHistory := true; Widget.chatHistory := None |}
  = None.
Proof. vm_compute; reflexivity. Qed.

(** ** The description of a product in the snapshot *)

Lemma strip_from_plain s : Str.has_tag s = false -> Str.strip_from false s = s.
Proof.
  induction s as [|c r IH]; [reflexivity|].
  cbn [Str.has_tag Str.strip_from]. intros H. apply orb_false_elim in H as [Hc Hr].
  rewrite Hc, (IH Hr). reflexivity.
Qed.

Lemma strip_from_length s : forall in_tag,
  (String.length (Str.strip_from in_tag s) <= String.length s)%nat.
Proof.
  induction s as [|c r IH]; intros in_tag; [apply Nat.le_refl|].
  cbn [Str.strip_from String.length]. destruct in_tag.
  - destruct (Ascii.eqb c ">"); apply Nat.le_le_succ_r, IH.
  - destruct (Ascii.eqb c "<" && Str.has_gt r).
    + apply Nat.le_le_succ_r, IH.
    + cbn [String.length]. apply le_n_S, IH.
Qed.

(** X23.  Removing the markup of a description leaves a text without tags
    as it is, a [<] that no [>] follows included; removing it twice gives
    what removing it once gives; and the result is never longer than the
    text. *)
Theorem strip_tags_plain_text (s : string) :
  (Str.has_tag s = false -> Str.strip_tags s = s) /\
  Str.strip_tags (Str.strip_tags s) = Str.strip_tags s /\
  (String.length (Str.strip_tags s) <= String.length s)%nat.
Proof.
  split; [apply strip_from_plain|]. split.
  - apply strip_from_plain, strip_from_no_tag.
  - apply strip_from_length.
Qed.

Lemma strip_tags_plain_text_witness : Str.strip_tags "size < 5 cm" = "size < 5 cm".
Proof. apply (proj1 (strip_tags_plain_text "size < 5 cm")). reflexivity. Defined.
